(** * pytuya: a shallow embedding of the Tuya protocol engine

    Source: [custom_components/localtuya/pytuya/__init__.py].

    The development follows the module top to bottom: the Python values
    the module manipulates (bytes, slices, [struct], exceptions), the
    library primitives it calls (CRC-32, base64, UTF-8, AES in ECB mode,
    MD5, [json.dumps]), then [pack_message] / [unpack_message],
    [AESCipher], [MessageDispatcher] and [TuyaProtocol]. *)

From Stdlib Require Import String Ascii Strings.Byte.
From Stdlib Require Import ZArith List Bool Lia Permutation.
From AAC_tactics Require Import AAC.
Import ListNotations.

#[local] Open Scope Z_scope.

(* ================================================================== *)
(** ** Python values *)

(** [bytes] objects. *)
Definition bytes := list byte.

(** [str] objects: sequences of Unicode code points. *)
Definition str := list Z.

(** Exceptions raised by the modelled code, by class. *)
Inductive exn : Type :=
| StructError          (* struct.error *)
| ValueError           (* cryptography / base64 / json *)
| TypeError
| AttributeError
| KeyError
| UnicodeDecodeError
| UnicodeEncodeError
| BinasciiError        (* binascii.Error *)
| TimeoutError         (* asyncio.TimeoutError *)
| PlainException.      (* raise Exception(...) *)

Inductive result (A : Type) : Type :=
| Ok (a : A)
| Raise (e : exn).
Arguments Ok {A} a.
Arguments Raise {A} e.

Definition bind {A B} (r : result A) (k : A -> result B) : result B :=
  match r with
  | Ok a => k a
  | Raise e => Raise e
  end.

Notation "x <- r ;; k" := (bind r (fun x => k))
  (at level 61, r at next level, right associativity).
Notation "' p <- r ;; k" := (bind r (fun x => let p := x in k))
  (at level 61, p pattern, r at next level, right associativity).

Definition is_ok {A} (r : result A) : bool :=
  match r with Ok _ => true | Raise _ => false end.

(** Conversions between a byte and its value in [0, 255]. *)
Definition Z_of_byte (b : byte) : Z := Z.of_N (Byte.to_N b).

Definition byte_of_Z (z : Z) : byte :=
  match Byte.of_N (Z.to_N (z mod 256)) with
  | Some b => b
  | None => x00
  end.

(** Python slicing [l[start:stop]] (step 1).  [None] stands for an
    omitted bound; a negative bound counts from the end; both bounds are
    clamped to [0, len]. *)
Definition clamp_index (n i : Z) : Z :=
  if i <? 0 then Z.max (n + i) 0 else Z.min i n.

Definition py_slice {A} (start stop : option Z) (l : list A) : list A :=
  let n := Z.of_nat (length l) in
  let lo := match start with Some i => clamp_index n i | None => 0 end in
  let hi := match stop with Some i => clamp_index n i | None => n end in
  firstn (Z.to_nat (hi - lo)) (skipn (Z.to_nat lo) l).

(** [l[i:j]], [l[i:]] and [l[:j]]. *)
Definition slice {A} (l : list A) (i j : Z) : list A :=
  py_slice (Some i) (Some j) l.
Definition slice_from {A} (l : list A) (i : Z) : list A :=
  py_slice (Some i) None l.
Definition slice_to {A} (l : list A) (j : Z) : list A :=
  py_slice None (Some j) l.

Definition len {A} (l : list A) : Z := Z.of_nat (length l).

(** [bytes.startswith]. *)
Fixpoint startswith (p s : bytes) : bool :=
  match p, s with
  | [], _ => true
  | _ :: _, [] => false
  | a :: p', b :: s' => Byte.eqb a b && startswith p' s'
  end.

(** Bytes of an ASCII literal such as [b"3.1"]. *)
Definition b_lit (s : string) : bytes := list_byte_of_string s.

(* ================================================================== *)
(** ** [struct]: big-endian unsigned 32-bit fields *)

Definition uint32_ok (v : Z) : bool := (0 <=? v) && (v <? 2 ^ 32).

Definition be32 (v : Z) : bytes :=
  [byte_of_Z (v / 2 ^ 24); byte_of_Z (v / 2 ^ 16);
   byte_of_Z (v / 2 ^ 8); byte_of_Z v].

(** [struct.pack(">nI", v1, ..., vn)]: [struct.error] when an argument
    is outside [0, 2^32). *)
Fixpoint struct_pack (vs : list Z) : result bytes :=
  match vs with
  | [] => Ok []
  | v :: vs' =>
      if uint32_ok v
      then rest <- struct_pack vs' ;; Ok (be32 v ++ rest)
      else Raise StructError
  end.

Definition of_be32 (b3 b2 b1 b0 : byte) : Z :=
  Z_of_byte b3 * 2 ^ 24 + Z_of_byte b2 * 2 ^ 16
  + Z_of_byte b1 * 2 ^ 8 + Z_of_byte b0.

Fixpoint unpack_words (n : nat) (data : bytes) : option (list Z) :=
  match n with
  | O => Some []
  | S n' =>
      match data with
      | b3 :: b2 :: b1 :: b0 :: rest =>
          option_map (cons (of_be32 b3 b2 b1 b0)) (unpack_words n' rest)
      | _ => None
      end
  end.

(** [struct.calcsize(">nI")]. *)
Definition calcsize (n : nat) : Z := 4 * Z.of_nat n.

(** [struct.unpack(">nI", data)]: the buffer must have exactly the
    size of the format. *)
Definition struct_unpack (n : nat) (data : bytes) : result (list Z) :=
  if len data =? calcsize n
  then match unpack_words n data with
       | Some vs => Ok vs
       | None => Raise StructError
       end
  else Raise StructError.

(** [struct.unpack_from(">nI", data)]: the buffer must have at least
    the size of the format. *)
Definition struct_unpack_from (n : nat) (data : bytes) : result (list Z) :=
  match unpack_words n data with
  | Some vs => Ok vs
  | None => Raise StructError
  end.

(* ================================================================== *)
(** ** [binascii.crc32] *)

Definition crc_shift (c : Z) : Z :=
  if Z.testbit c 0
  then Z.lxor (Z.shiftr c 1) 0xEDB88320
  else Z.shiftr c 1.

Definition crc_byte (c : Z) (b : byte) : Z :=
  Nat.iter 8 crc_shift (Z.lxor c (Z_of_byte b)).

Definition crc32 (data : bytes) : Z :=
  Z.lxor (fold_left crc_byte data 0xFFFFFFFF) 0xFFFFFFFF.

(* ================================================================== *)
(** ** [str] helpers *)

(** The [str] of an ASCII literal. *)
Definition s_lit (s : string) : str := map Z_of_byte (list_byte_of_string s).

Definition str_eqb (a b : str) : bool :=
  (length a =? length b)%nat
  && forallb (fun p => fst p =? snd p) (combine a b).

Fixpoint str_prefix (p s : str) : bool :=
  match p, s with
  | [], _ => true
  | _ :: _, [] => false
  | a :: p', b :: s' => (a =? b) && str_prefix p' s'
  end.

(** [needle in hay] for [str]. *)
Fixpoint str_contains (needle hay : str) : bool :=
  str_prefix needle hay
  || match hay with
     | [] => false
     | _ :: hay' => str_contains needle hay'
     end.

(** [s.replace] of every space by the empty string. *)
Definition remove_spaces (s : str) : str :=
  filter (fun c => negb (c =? 32)) s.

(* ================================================================== *)
(** ** UTF-8: [bytes.decode()] and [str.encode("utf-8")] *)

Definition is_cont (b : byte) : bool :=
  (0x80 <=? Z_of_byte b) && (Z_of_byte b <=? 0xBF).

Definition cont_bits (b : byte) : Z := Z_of_byte b - 0x80.

(** Strict UTF-8 decoding: overlong forms, surrogates and code points
    above U+10FFFF raise [UnicodeDecodeError]. *)
Fixpoint utf8_decode (s : bytes) : result str :=
  match s with
  | [] => Ok []
  | b0 :: r0 =>
      let v0 := Z_of_byte b0 in
      if v0 <? 0x80 then
        rest <- utf8_decode r0 ;; Ok (v0 :: rest)
      else match r0 with
      | [] => Raise UnicodeDecodeError
      | b1 :: r1 =>
          let v1 := Z_of_byte b1 in
          if (0xC2 <=? v0) && (v0 <=? 0xDF) then
            if is_cont b1 then
              rest <- utf8_decode r1 ;;
              Ok (((v0 - 0xC0) * 64 + cont_bits b1) :: rest)
            else Raise UnicodeDecodeError
          else match r1 with
          | [] => Raise UnicodeDecodeError
          | b2 :: r2 =>
              if (0xE0 <=? v0) && (v0 <=? 0xEF) then
                if is_cont b1 && is_cont b2
                   && negb ((v0 =? 0xE0) && (v1 <? 0xA0))
                   && negb ((v0 =? 0xED) && (0xA0 <=? v1))
                then
                  rest <- utf8_decode r2 ;;
                  Ok (((v0 - 0xE0) * 4096 + cont_bits b1 * 64
                       + cont_bits b2) :: rest)
                else Raise UnicodeDecodeError
              else match r2 with
              | [] => Raise UnicodeDecodeError
              | b3 :: r3 =>
                  if (0xF0 <=? v0) && (v0 <=? 0xF4) then
                    if is_cont b1 && is_cont b2 && is_cont b3
                       && negb ((v0 =? 0xF0) && (v1 <? 0x90))
                       && negb ((v0 =? 0xF4) && (0x90 <=? v1))
                    then
                      rest <- utf8_decode r3 ;;
                      Ok (((v0 - 0xF0) * 262144 + cont_bits b1 * 4096
                           + cont_bits b2 * 64 + cont_bits b3) :: rest)
                    else Raise UnicodeDecodeError
                  else Raise UnicodeDecodeError
              end
          end
      end
  end.

Definition utf8_encode_char (c : Z) : result bytes :=
  if (c <? 0) || (0x10FFFF <? c) then Raise ValueError
  else if c <? 0x80 then Ok [byte_of_Z c]
  else if c <? 0x800 then
    Ok [byte_of_Z (0xC0 + c / 64); byte_of_Z (0x80 + c mod 64)]
  else if (0xD800 <=? c) && (c <=? 0xDFFF) then Raise UnicodeEncodeError
  else if c <? 0x10000 then
    Ok [byte_of_Z (0xE0 + c / 4096); byte_of_Z (0x80 + (c / 64) mod 64);
        byte_of_Z (0x80 + c mod 64)]
  else
    Ok [byte_of_Z (0xF0 + c / 262144); byte_of_Z (0x80 + (c / 4096) mod 64);
        byte_of_Z (0x80 + (c / 64) mod 64); byte_of_Z (0x80 + c mod 64)].

Fixpoint utf8_encode (s : str) : result bytes :=
  match s with
  | [] => Ok []
  | c :: s' =>
      b <- utf8_encode_char c ;;
      rest <- utf8_encode s' ;;
      Ok (b ++ rest)
  end.

(** [n * b] for a [bytes] object [b]: [n] copies, none when [n <= 0]. *)
Definition bytes_mul (n : Z) (b : bytes) : bytes :=
  concat (repeat b (Z.to_nat n)).

(* ================================================================== *)
(** ** [base64.b64encode] and [base64.b64decode] *)

(** The standard alphabet, by position. *)
Definition b64_char (n : Z) : byte :=
  if n <? 26 then byte_of_Z (n + 65)
  else if n <? 52 then byte_of_Z (n + 71)
  else if n <? 62 then byte_of_Z (n - 4)
  else if n =? 62 then byte_of_Z 43
  else byte_of_Z 47.

(** [table_a2b_base64]: the position of a character in the alphabet. *)
Definition b64_index (b : byte) : option Z :=
  let v := Z_of_byte b in
  if (65 <=? v) && (v <=? 90) then Some (v - 65)
  else if (97 <=? v) && (v <=? 122) then Some (v - 71)
  else if (48 <=? v) && (v <=? 57) then Some (v + 4)
  else if v =? 43 then Some 62
  else if v =? 47 then Some 63
  else None.

Definition BASE64_PAD : byte := byte_of_Z 61.

Fixpoint b64encode (s : bytes) : bytes :=
  match s with
  | [] => []
  | [a] =>
      let a := Z_of_byte a in
      [b64_char (a / 4); b64_char ((a mod 4) * 16); BASE64_PAD; BASE64_PAD]
  | [a; b] =>
      let a := Z_of_byte a in
      let b := Z_of_byte b in
      [b64_char (a / 4); b64_char ((a mod 4) * 16 + b / 16);
       b64_char ((b mod 16) * 4); BASE64_PAD]
  | a :: b :: c :: rest =>
      let a := Z_of_byte a in
      let b := Z_of_byte b in
      let c := Z_of_byte c in
      b64_char (a / 4) :: b64_char ((a mod 4) * 16 + b / 16)
      :: b64_char ((b mod 16) * 4 + c / 64) :: b64_char (c mod 64)
      :: b64encode rest
  end.

(** The decoder of [binascii.a2b_base64] in its default, non-strict
    mode (the one [base64.b64decode] uses): characters outside the
    alphabet are skipped, a complete pad sequence ends the input. *)
Record b64_state : Type := mkB64 {
  quad_pos : Z;
  leftchar : Z;
  pads : Z;
  bin_data : bytes  (* output so far, last byte first *)
}.

Fixpoint a2b_loop (input : bytes) (st : b64_state) : result bytes :=
  match input with
  | [] =>
      if quad_pos st =? 0 then Ok (rev (bin_data st))
      else Raise BinasciiError
  | this_ch :: input' =>
      if Byte.eqb this_ch BASE64_PAD then
        if 2 <=? quad_pos st then
          if 4 <=? quad_pos st + (pads st + 1)
          then Ok (rev (bin_data st))
          else a2b_loop input'
                 (mkB64 (quad_pos st) (leftchar st) (pads st + 1) (bin_data st))
        else a2b_loop input' st
      else
        match b64_index this_ch with
        | None => a2b_loop input' st
        | Some v =>
            let out := bin_data st in
            let lc := leftchar st in
            if quad_pos st =? 0 then
              a2b_loop input' (mkB64 1 v 0 out)
            else if quad_pos st =? 1 then
              a2b_loop input'
                (mkB64 2 (v mod 16) 0 (byte_of_Z (lc * 4 + v / 16) :: out))
            else if quad_pos st =? 2 then
              a2b_loop input'
                (mkB64 3 (v mod 4) 0 (byte_of_Z (lc * 16 + v / 4) :: out))
            else
              a2b_loop input'
                (mkB64 0 0 0 (byte_of_Z (lc * 64 + v) :: out))
        end
  end.

Definition b64decode (s : bytes) : result bytes :=
  a2b_loop s (mkB64 0 0 0 []).

(* ================================================================== *)
(** ** AES (FIPS-197), as provided by [cryptography]'s
       [Cipher(algorithms.AES(key), modes.ECB(), ...)] *)

Definition bxor (a b : byte) : byte :=
  byte_of_Z (Z.lxor (Z_of_byte a) (Z_of_byte b)).

(** Multiplication by [x] in GF(2^8) modulo [x^8 + x^4 + x^3 + x + 1]. *)
Definition xtime (a : byte) : byte :=
  let v := Z_of_byte a in
  byte_of_Z (Z.lxor (Z.shiftl v 1) (if 0x80 <=? v then 0x11b else 0)).

Fixpoint gmul_aux (n : nat) (a : byte) (b : Z) : byte :=
  match n with
  | O => x00
  | S n' =>
      bxor (if Z.odd b then a else x00) (gmul_aux n' (xtime a) (b / 2))
  end.

Definition gmul (a b : byte) : byte := gmul_aux 8 a (Z_of_byte b).

(** The multiplicative inverse, [a^254], with [0] sent to [0]. *)
Definition ginv (a : byte) : byte :=
  let a2 := gmul a a in
  let a4 := gmul a2 a2 in
  let a8 := gmul a4 a4 in
  let a16 := gmul a8 a8 in
  let a32 := gmul a16 a16 in
  let a64 := gmul a32 a32 in
  let a128 := gmul a64 a64 in
  gmul a128 (gmul a64 (gmul a32 (gmul a16 (gmul a8 (gmul a4 a2))))).

Definition rotl8 (v n : Z) : Z :=
  (Z.lor (Z.shiftl v n) (Z.shiftr v (8 - n))) mod 256.

Definition sbox_affine (a : byte) : byte :=
  let v := Z_of_byte a in
  byte_of_Z (Z.lxor v (Z.lxor (rotl8 v 1) (Z.lxor (rotl8 v 2)
              (Z.lxor (rotl8 v 3) (Z.lxor (rotl8 v 4) 0x63))))).

Definition all_bytes : list byte :=
  Eval vm_compute in map (fun n => byte_of_Z (Z.of_nat n)) (seq 0 256).

Definition SBOX : list byte :=
  Eval vm_compute in map (fun a => sbox_affine (ginv a)) all_bytes.

Definition sbox (a : byte) : byte := nth (Byte.to_nat a) SBOX x00.

Definition INV_SBOX : list byte :=
  Eval vm_compute in
    map (fun a => match find (fun c => Byte.eqb (sbox c) a) all_bytes with
                  | Some c => c
                  | None => x00
                  end) all_bytes.

Definition inv_sbox (a : byte) : byte := nth (Byte.to_nat a) INV_SBOX x00.

(** A column of the state and the state itself (four columns). *)
Definition word : Type := byte * byte * byte * byte.
Definition block : Type := word * word * word * word.

Definition map_word (f : byte -> byte) (w : word) : word :=
  let '(a, b, c, d) := w in (f a, f b, f c, f d).

Definition xor_word (u v : word) : word :=
  let '(a, b, c, d) := u in
  let '(a', b', c', d') := v in
  (bxor a a', bxor b b', bxor c c', bxor d d').

Definition map_block (f : word -> word) (s : block) : block :=
  let '(c0, c1, c2, c3) := s in (f c0, f c1, f c2, f c3).

Definition sub_bytes : block -> block := map_block (map_word sbox).
Definition inv_sub_bytes : block -> block := map_block (map_word inv_sbox).

Definition shift_rows (s : block) : block :=
  let '((s00, s10, s20, s30), (s01, s11, s21, s31),
        (s02, s12, s22, s32), (s03, s13, s23, s33)) := s in
  ((s00, s11, s22, s33), (s01, s12, s23, s30),
   (s02, s13, s20, s31), (s03, s10, s21, s32)).

Definition inv_shift_rows (s : block) : block :=
  let '((s00, s10, s20, s30), (s01, s11, s21, s31),
        (s02, s12, s22, s32), (s03, s13, s23, s33)) := s in
  ((s00, s13, s22, s31), (s01, s10, s23, s32),
   (s02, s11, s20, s33), (s03, s12, s21, s30)).

Definition gmul2 (a : byte) : byte := xtime a.
Definition gmul3 (a : byte) : byte := bxor (xtime a) a.
Definition gmul9 (a : byte) : byte := bxor (xtime (xtime (xtime a))) a.
Definition gmul11 (a : byte) : byte :=
  bxor (xtime (xtime (xtime a))) (bxor (xtime a) a).
Definition gmul13 (a : byte) : byte :=
  bxor (xtime (xtime (xtime a))) (bxor (xtime (xtime a)) a).
Definition gmul14 (a : byte) : byte :=
  bxor (xtime (xtime (xtime a))) (bxor (xtime (xtime a)) (xtime a)).

Definition mix_column (w : word) : word :=
  let '(a0, a1, a2, a3) := w in
  (bxor (gmul2 a0) (bxor (gmul3 a1) (bxor a2 a3)),
   bxor a0 (bxor (gmul2 a1) (bxor (gmul3 a2) a3)),
   bxor a0 (bxor a1 (bxor (gmul2 a2) (gmul3 a3))),
   bxor (gmul3 a0) (bxor a1 (bxor a2 (gmul2 a3)))).

Definition inv_mix_column (w : word) : word :=
  let '(a0, a1, a2, a3) := w in
  (bxor (gmul14 a0) (bxor (gmul11 a1) (bxor (gmul13 a2) (gmul9 a3))),
   bxor (gmul9 a0) (bxor (gmul14 a1) (bxor (gmul11 a2) (gmul13 a3))),
   bxor (gmul13 a0) (bxor (gmul9 a1) (bxor (gmul14 a2) (gmul11 a3))),
   bxor (gmul11 a0) (bxor (gmul13 a1) (bxor (gmul9 a2) (gmul14 a3)))).

Definition mix_columns : block -> block := map_block mix_column.
Definition inv_mix_columns : block -> block := map_block inv_mix_column.

Definition add_round_key (s rk : block) : block :=
  let '(c0, c1, c2, c3) := s in
  let '(k0, k1, k2, k3) := rk in
  (xor_word c0 k0, xor_word c1 k1, xor_word c2 k2, xor_word c3 k3).

(** Key expansion, for [Nk] key words ([Nk] = 4, 6 or 8). *)
Definition zero_word : word := (x00, x00, x00, x00).

Definition rot_word (w : word) : word :=
  let '(a, b, c, d) := w in (b, c, d, a).

Fixpoint words_of_bytes (l : bytes) : list word :=
  match l with
  | a :: b :: c :: d :: rest => (a, b, c, d) :: words_of_bytes rest
  | _ => []
  end.

Fixpoint key_expansion_loop (count : nat) (Nk i : nat) (w : list word)
    (rc : byte) : list word :=
  match count with
  | O => w
  | S count' =>
      let temp := nth (i - 1) w zero_word in
      let '(temp', rc') :=
        if (i mod Nk =? 0)%nat
        then (xor_word (map_word sbox (rot_word temp)) (rc, x00, x00, x00),
              xtime rc)
        else if (6 <? Nk)%nat && (i mod Nk =? 4)%nat
        then (map_word sbox temp, rc)
        else (temp, rc) in
      key_expansion_loop count' Nk (S i)
        (w ++ [xor_word (nth (i - Nk) w zero_word) temp']) rc'
  end.

Fixpoint blocks_of_words (l : list word) : list block :=
  match l with
  | a :: b :: c :: d :: rest => (a, b, c, d) :: blocks_of_words rest
  | _ => []
  end.

(** The [Nr + 1] round keys of a key of [Nk] words, [Nr = Nk + 6]. *)
Definition key_expansion (key : bytes) : list block :=
  let Nk := (length key / 4)%nat in
  let total := (4 * (Nk + 6 + 1))%nat in
  blocks_of_words
    (key_expansion_loop (total - Nk) Nk Nk (words_of_bytes key) x01).

(** The rounds after the initial [AddRoundKey]; the last one has no
    [MixColumns]. *)
Fixpoint cipher_rounds (rks : list block) (s : block) : block :=
  match rks with
  | [] => s
  | [rk] => add_round_key (shift_rows (sub_bytes s)) rk
  | rk :: rest =>
      cipher_rounds rest
        (add_round_key (mix_columns (shift_rows (sub_bytes s))) rk)
  end.

Definition cipher (rks : list block) (s : block) : block :=
  match rks with
  | [] => s
  | rk0 :: rest => cipher_rounds rest (add_round_key s rk0)
  end.

Fixpoint inv_cipher_rounds (rks : list block) (s : block) : block :=
  match rks with
  | [] => s
  | [rk] => inv_sub_bytes (inv_shift_rows (add_round_key s rk))
  | rk :: rest =>
      inv_sub_bytes (inv_shift_rows (inv_mix_columns
        (add_round_key (inv_cipher_rounds rest s) rk)))
  end.

Definition inv_cipher (rks : list block) (s : block) : block :=
  match rks with
  | [] => s
  | rk0 :: rest => add_round_key (inv_cipher_rounds rest s) rk0
  end.

Definition word_eqb (u v : word) : bool :=
  let '(a, b, c, d) := u in
  let '(a', b', c', d') := v in
  Byte.eqb a a' && Byte.eqb b b' && Byte.eqb c c' && Byte.eqb d d'.

(** ECB mode over whole blocks. *)
Fixpoint blocks_of_bytes (l : bytes) : option (list block) :=
  match l with
  | [] => Some []
  | b0 :: b1 :: b2 :: b3 :: b4 :: b5 :: b6 :: b7
    :: b8 :: b9 :: b10 :: b11 :: b12 :: b13 :: b14 :: b15 :: rest =>
      option_map
        (cons ((b0, b1, b2, b3), (b4, b5, b6, b7),
               (b8, b9, b10, b11), (b12, b13, b14, b15)))
        (blocks_of_bytes rest)
  | _ => None
  end.

Definition bytes_of_word (w : word) : bytes :=
  let '(a, b, c, d) := w in [a; b; c; d].

Definition bytes_of_block (s : block) : bytes :=
  let '(c0, c1, c2, c3) := s in
  bytes_of_word c0 ++ bytes_of_word c1 ++ bytes_of_word c2 ++ bytes_of_word c3.

Definition bytes_of_blocks (l : list block) : bytes :=
  concat (map bytes_of_block l).

(** [Cipher(algorithms.AES(key), modes.ECB(), backend)]: the key must
    have 128, 192 or 256 bits.  The object is represented by its round
    keys. *)
Definition Cipher : Type := list block.

Definition Cipher_AES_ECB (key : bytes) : result Cipher :=
  if (len key =? 16) || (len key =? 24) || (len key =? 32)
  then Ok (key_expansion key)
  else Raise ValueError.

(** [c.encryptor().update(data) + c.encryptor().finalize()]: ECB has
    no padding of its own, [finalize] raises [ValueError] when the data
    is not a whole number of blocks. *)
Definition ecb_encrypt (c : Cipher) (data : bytes) : result bytes :=
  match blocks_of_bytes data with
  | Some bs => Ok (bytes_of_blocks (map (cipher c) bs))
  | None => Raise ValueError
  end.

Definition ecb_decrypt (c : Cipher) (data : bytes) : result bytes :=
  match blocks_of_bytes data with
  | Some bs => Ok (bytes_of_blocks (map (inv_cipher c) bs))
  | None => Raise ValueError
  end.

(* ================================================================== *)
(** ** [hashlib.md5] *)

Definition mask32 (x : Z) : Z := x mod 2 ^ 32.

Definition rotl32 (x c : Z) : Z :=
  mask32 (Z.lor (Z.shiftl x c) (Z.shiftr x (32 - c))).

Definition not32 (x : Z) : Z := Z.lxor x 0xFFFFFFFF.

Definition md5_s : list Z :=
  [7; 12; 17; 22; 7; 12; 17; 22; 7; 12; 17; 22; 7; 12; 17; 22; 5; 9;
   14; 20; 5; 9; 14; 20; 5; 9; 14; 20; 5; 9; 14; 20; 4; 11; 16; 23;
   4; 11; 16; 23; 4; 11; 16; 23; 4; 11; 16; 23; 6; 10; 15; 21; 6; 10;
   15; 21; 6; 10; 15; 21; 6; 10; 15; 21].

Definition md5_K : list Z :=
  [0xd76aa478; 0xe8c7b756; 0x242070db; 0xc1bdceee; 0xf57c0faf;
   0x4787c62a; 0xa8304613; 0xfd469501; 0x698098d8; 0x8b44f7af;
   0xffff5bb1; 0x895cd7be; 0x6b901122; 0xfd987193; 0xa679438e;
   0x49b40821; 0xf61e2562; 0xc040b340; 0x265e5a51; 0xe9b6c7aa;
   0xd62f105d; 0x02441453; 0xd8a1e681; 0xe7d3fbc8; 0x21e1cde6;
   0xc33707d6; 0xf4d50d87; 0x455a14ed; 0xa9e3e905; 0xfcefa3f8;
   0x676f02d9; 0x8d2a4c8a; 0xfffa3942; 0x8771f681; 0x6d9d6122;
   0xfde5380c; 0xa4beea44; 0x4bdecfa9; 0xf6bb4b60; 0xbebfbc70;
   0x289b7ec6; 0xeaa127fa; 0xd4ef3085; 0x04881d05; 0xd9d4d039;
   0xe6db99e5; 0x1fa27cf8; 0xc4ac5665; 0xf4292244; 0x432aff97;
   0xab9423a7; 0xfc93a039; 0x655b59c3; 0x8f0ccc92; 0xffeff47d;
   0x85845dd1; 0x6fa87e4f; 0xfe2ce6e0; 0xa3014314; 0x4e0811a1;
   0xf7537e82; 0xbd3af235; 0x2ad7d2bb; 0xeb86d391].

Definition le32 (v : Z) : bytes :=
  [byte_of_Z v; byte_of_Z (v / 2 ^ 8);
   byte_of_Z (v / 2 ^ 16); byte_of_Z (v / 2 ^ 24)].

Definition le64 (v : Z) : bytes := le32 v ++ le32 (v / 2 ^ 32).

Fixpoint le_words (n : nat) (l : bytes) : list Z :=
  match n, l with
  | S n', b0 :: b1 :: b2 :: b3 :: rest =>
      (Z_of_byte b0 + Z_of_byte b1 * 2 ^ 8 + Z_of_byte b2 * 2 ^ 16
       + Z_of_byte b3 * 2 ^ 24) :: le_words n' rest
  | _, _ => []
  end.

Definition md5_pad (msg : bytes) : bytes :=
  let n := len msg in
  let zeros := (55 - n) mod 64 in
  msg ++ [byte_of_Z 0x80] ++ repeat x00 (Z.to_nat zeros)
      ++ le64 ((8 * n) mod 2 ^ 64).

Definition md5_round (M : list Z) (st : Z * Z * Z * Z) (i : nat)
  : Z * Z * Z * Z :=
  let '(A, B, C, D) := st in
  let iz := Z.of_nat i in
  let '(F, g) :=
    if iz <? 16 then (Z.lor (Z.land B C) (Z.land (not32 B) D), iz)
    else if iz <? 32
    then (Z.lor (Z.land D B) (Z.land (not32 D) C), (5 * iz + 1) mod 16)
    else if iz <? 48 then (Z.lxor B (Z.lxor C D), (3 * iz + 5) mod 16)
    else (Z.lxor C (Z.lor B (not32 D)), (7 * iz) mod 16) in
  let F' := mask32 (F + A + nth i md5_K 0 + nth (Z.to_nat g) M 0) in
  (D, mask32 (B + rotl32 F' (nth i md5_s 0)), B, C).

Definition md5_chunk (st : Z * Z * Z * Z) (M : list Z) : Z * Z * Z * Z :=
  let '(a0, b0, c0, d0) := st in
  let '(A, B, C, D) := fold_left (md5_round M) (seq 0 64) st in
  (mask32 (a0 + A), mask32 (b0 + B), mask32 (c0 + C), mask32 (d0 + D)).

Fixpoint md5_chunks (count : nat) (l : bytes) (st : Z * Z * Z * Z)
  : Z * Z * Z * Z :=
  match count with
  | O => st
  | S count' => md5_chunks count' (skipn 64 l) (md5_chunk st (le_words 16 l))
  end.

Definition md5_digest (msg : bytes) : bytes :=
  let padded := md5_pad msg in
  let '(a, b, c, d) :=
    md5_chunks (length padded / 64) padded
      (0x67452301, 0xefcdab89, 0x98badcfe, 0x10325476) in
  le32 a ++ le32 b ++ le32 c ++ le32 d.

Definition hex_digit (n : Z) : Z := if n <? 10 then 48 + n else 87 + n.

(** [m.hexdigest()]: a [str] of 32 lowercase hexadecimal digits. *)
Definition md5_hexdigest (msg : bytes) : str :=
  flat_map (fun b => [hex_digit (Z_of_byte b / 16);
                      hex_digit (Z_of_byte b mod 16)]) (md5_digest msg).

(** [s.encode("latin1")]: one byte per code point below 256. *)
Fixpoint latin1_encode (s : str) : result bytes :=
  match s with
  | [] => Ok []
  | c :: s' =>
      if (0 <=? c) && (c <? 256)
      then rest <- latin1_encode s' ;; Ok (byte_of_Z c :: rest)
      else Raise UnicodeEncodeError
  end.

(* ================================================================== *)
(** ** Python [dict]: an association list in insertion order *)

Section Dict.
Context {K V : Type}.
Variable keq : K -> K -> bool.

Fixpoint dict_get (d : list (K * V)) (k : K) : option V :=
  match d with
  | [] => None
  | (k', v) :: d' => if keq k' k then Some v else dict_get d' k
  end.

(** [k in d] *)
Definition dict_mem (d : list (K * V)) (k : K) : bool :=
  match dict_get d k with Some _ => true | None => false end.

(** [d[k] = v]: an existing key keeps its place, a new one goes last. *)
Fixpoint dict_set (d : list (K * V)) (k : K) (v : V) : list (K * V) :=
  match d with
  | [] => [(k, v)]
  | (k', v') :: d' =>
      if keq k' k then (k', v) :: d' else (k', v') :: dict_set d' k v
  end.

(** [del d[k]] on a key that is present. *)
Fixpoint dict_del (d : list (K * V)) (k : K) : list (K * V) :=
  match d with
  | [] => []
  | (k', v') :: d' =>
      if keq k' k then d' else (k', v') :: dict_del d' k
  end.

Definition dict_keys (d : list (K * V)) : list K := map fst d.
End Dict.

(* ================================================================== *)
(** ** [json.dumps] *)

(** JSON-serialisable Python values ([float] is left out). *)
#[warnings="-register-all"]
Inductive json : Type :=
| JNull
| JBool (b : bool)
| JInt (n : Z)
| JStr (s : str)
| JList (l : list json)
| JObj (kv : list (str * json)).

Fixpoint digits_of_uint (u : Decimal.uint) : str :=
  match u with
  | Decimal.Nil => []
  | Decimal.D0 u' => 48 :: digits_of_uint u'
  | Decimal.D1 u' => 49 :: digits_of_uint u'
  | Decimal.D2 u' => 50 :: digits_of_uint u'
  | Decimal.D3 u' => 51 :: digits_of_uint u'
  | Decimal.D4 u' => 52 :: digits_of_uint u'
  | Decimal.D5 u' => 53 :: digits_of_uint u'
  | Decimal.D6 u' => 54 :: digits_of_uint u'
  | Decimal.D7 u' => 55 :: digits_of_uint u'
  | Decimal.D8 u' => 56 :: digits_of_uint u'
  | Decimal.D9 u' => 57 :: digits_of_uint u'
  end.

(** [str(n)] for an [int]. *)
Definition str_of_int (n : Z) : str :=
  match Z.to_int n with
  | Decimal.Pos Decimal.Nil => [48]
  | Decimal.Pos u => digits_of_uint u
  | Decimal.Neg u => 45 :: digits_of_uint u
  end.

Definition hex4 (c : Z) : str :=
  [hex_digit (c / 4096 mod 16); hex_digit (c / 256 mod 16);
   hex_digit (c / 16 mod 16); hex_digit (c mod 16)].

(** The replacement of one character by [json.encoder]'s
    [py_encode_basestring_ascii] ([ensure_ascii=True]). *)
Definition escape_char (c : Z) : str :=
  if c =? 34 then [92; 34]
  else if c =? 92 then s_lit "\\"
  else if c =? 10 then s_lit "\n"
  else if c =? 13 then s_lit "\r"
  else if c =? 9 then s_lit "\t"
  else if c =? 12 then s_lit "\f"
  else if c =? 8 then s_lit "\b"
  else if (32 <=? c) && (c <=? 126) then [c]
  else if c <? 0x10000 then s_lit "\u" ++ hex4 c
  else
    let n := c - 0x10000 in
    s_lit "\u" ++ hex4 (Z.lor 0xd800 (Z.land (Z.shiftr n 10) 0x3ff))
    ++ s_lit "\u" ++ hex4 (Z.lor 0xdc00 (Z.land n 0x3ff)).

Definition dumps_str (s : str) : str :=
  [34] ++ flat_map escape_char s ++ [34].

(** [json.dumps(j)] with the default separators [", "] and [": "]. *)
Fixpoint dumps (j : json) : str :=
  match j with
  | JNull => s_lit "null"
  | JBool true => s_lit "true"
  | JBool false => s_lit "false"
  | JInt n => str_of_int n
  | JStr s => dumps_str s
  | JList l =>
      s_lit "["
      ++ (fix items (l : list json) : str :=
            match l with
            | [] => []
            | [x] => dumps x
            | x :: l' => dumps x ++ s_lit ", " ++ items l'
            end) l
      ++ s_lit "]"
  | JObj kv =>
      s_lit "{"
      ++ (fix items (kv : list (str * json)) : str :=
            match kv with
            | [] => []
            | [(k, v)] => dumps_str k ++ s_lit ": " ++ dumps v
            | (k, v) :: kv' =>
                dumps_str k ++ s_lit ": " ++ dumps v ++ s_lit ", " ++ items kv'
            end) kv
      ++ s_lit "}"
  end.

(* ================================================================== *)
(** ** Module constants and [TuyaMessage] *)

Record TuyaMessage : Type := mkTuyaMessage {
  seqno : Z;
  cmd : Z;
  retcode : Z;
  payload : bytes;
  crc : Z
}.

Definition PROTOCOL_VERSION_BYTES_31 : bytes := b_lit "3.1".
Definition PROTOCOL_VERSION_BYTES_33 : bytes := b_lit "3.3".
Definition PROTOCOL_33_HEADER : bytes :=
  PROTOCOL_VERSION_BYTES_33 ++ repeat x00 12.

(** [MESSAGE_HEADER_FMT = ">4I"], [MESSAGE_RECV_HEADER_FMT = ">5I"],
    [MESSAGE_END_FMT = ">2I"], given by their field counts. *)
Definition MESSAGE_HEADER_FMT : nat := 4.
Definition MESSAGE_RECV_HEADER_FMT : nat := 5.
Definition MESSAGE_END_FMT : nat := 2.

Definition PREFIX_VALUE : Z := 0x000055AA.
Definition SUFFIX_VALUE : Z := 0x0000AA55.

(* ================================================================== *)
(** ** Frame codec *)

Definition pack_message (msg : TuyaMessage) : result bytes :=
  header <- struct_pack [PREFIX_VALUE; seqno msg; cmd msg;
                         len (payload msg) + calcsize MESSAGE_END_FMT] ;;
  let buffer := header ++ payload msg in
  trailer <- struct_pack [crc32 buffer; SUFFIX_VALUE] ;;
  Ok (buffer ++ trailer).

Definition unpack_message (data : bytes) : result TuyaMessage :=
  let header_len := calcsize MESSAGE_RECV_HEADER_FMT in
  let end_len := calcsize MESSAGE_END_FMT in
  hd <- struct_unpack MESSAGE_RECV_HEADER_FMT (slice_to data header_len) ;;
  match hd with
  | [_; seqno; cmd; _; retcode] =>
      let payload := slice data header_len (- end_len) in
      tl <- struct_unpack MESSAGE_END_FMT (slice_from data (- end_len)) ;;
      match tl with
      | [crc; _] => Ok (mkTuyaMessage seqno cmd retcode payload crc)
      | _ => Raise StructError
      end
  | _ => Raise StructError
  end.

(* ================================================================== *)
(** ** [class AESCipher] *)

Module AESCipher.

Record t : Type := mk {
  bs : Z;
  cipher : Cipher
}.

(** [__init__(self, key)] *)
Definition init (key : bytes) : result t :=
  c <- Cipher_AES_ECB key ;;
  Ok (mk 16 c).

Definition _pad (self : t) (s : bytes) : result bytes :=
  let padnum := bs self - len s mod bs self in
  (* chr(padnum).encode() *)
  ch <- utf8_encode [padnum] ;;
  Ok (s ++ bytes_mul padnum ch).

(** [ord(b)] for a [bytes] object. *)
Definition ord (b : bytes) : result Z :=
  match b with
  | [c] => Ok (Z_of_byte c)
  | _ => Raise TypeError
  end.

Definition _unpad (s : bytes) : result bytes :=
  n <- ord (slice_from s (len s - 1)) ;;
  Ok (slice_to s (- n)).

Definition encrypt (self : t) (raw : bytes) (use_base64 : bool)
  : result bytes :=
  padded <- _pad self raw ;;
  crypted_text <- ecb_encrypt (cipher self) padded ;;
  Ok (if use_base64 then b64encode crypted_text else crypted_text).

Definition decrypt (self : t) (enc : bytes) (use_base64 : bool)
  : result str :=
  enc <- (if use_base64 then b64decode enc else Ok enc) ;;
  raw <- ecb_decrypt (cipher self) enc ;;
  unpadded <- _unpad raw ;;
  utf8_decode unpadded.

End AESCipher.

(* ================================================================== *)
(** ** [class MessageDispatcher] *)

(** Attribute access on the [TuyaMessage] named tuple: its fields are
    [seqno cmd retcode payload crc]; any other name raises
    [AttributeError]. *)
Inductive field_value : Type :=
| FInt (n : Z)
| FBytes (b : bytes).

Definition TuyaMessage_getattr (m : TuyaMessage) (name : string)
  : result field_value :=
  if String.eqb name "seqno" then Ok (FInt (seqno m))
  else if String.eqb name "cmd" then Ok (FInt (cmd m))
  else if String.eqb name "retcode" then Ok (FInt (retcode m))
  else if String.eqb name "payload" then Ok (FBytes (payload m))
  else if String.eqb name "crc" then Ok (FInt (crc m))
  else Raise AttributeError.

Module MessageDispatcher.

(** What a value of the [listeners] dict can be: the
    [asyncio.Semaphore] created by [wait_for] (by identity), the
    message stored by [_dispatch], or the [None] stored by [abort]. *)
Inductive slot : Type :=
| Sem (id : nat)
| Msg (m : TuyaMessage)
| PyNone.

(** [semaphores] holds the counter of every semaphore object created
    so far, indexed by identity. *)
Record t : Type := mk {
  buffer : bytes;
  listeners : list (Z * slot);
  last_seqno : Z;
  semaphores : list Z
}.

(** [__init__(self, listener)]; the callback is the section variable
    below. *)
Definition init : t := mk [] [] (-1) [].

Definition set_buffer (self : t) (b : bytes) : t :=
  mk b (listeners self) (last_seqno self) (semaphores self).
Definition set_listeners (self : t) (l : list (Z * slot)) : t :=
  mk (buffer self) l (last_seqno self) (semaphores self).
Definition set_last_seqno (self : t) (n : Z) : t :=
  mk (buffer self) (listeners self) n (semaphores self).
Definition set_semaphores (self : t) (l : list Z) : t :=
  mk (buffer self) (listeners self) (last_seqno self) l.

Definition sem_value (self : t) (id : nat) : Z :=
  nth id (semaphores self) 0.

Fixpoint list_update {A} (l : list A) (i : nat) (f : A -> A) : list A :=
  match l, i with
  | [], _ => []
  | x :: l', O => f x :: l'
  | x :: l', S i' => x :: list_update l' i' f
  end.

(** [asyncio.Semaphore(0)] *)
Definition new_semaphore (self : t) : nat * t :=
  (length (semaphores self),
   set_semaphores self (semaphores self ++ [0])).

(** [v.release()]: only a semaphore has the method. *)
Definition release (v : slot) (self : t) : result unit * t :=
  match v with
  | Sem id =>
      (Ok tt, set_semaphores self
                (list_update (semaphores self) id (fun n => n + 1)))
  | _ => (Raise AttributeError, self)
  end.

(** One iteration of the loop of [abort]. *)
Definition abort_key (key : Z) (self : t) : result unit * t :=
  match dict_get Z.eqb (listeners self) key with
  | None => (Raise KeyError, self)
  | Some sem =>
      let self := set_listeners self
                    (dict_set Z.eqb (listeners self) key PyNone) in
      release sem self
  end.

Fixpoint abort_loop (keys : list Z) (self : t) : result unit * t :=
  match keys with
  | [] => (Ok tt, self)
  | key :: keys' =>
      match abort_key key self with
      | (Ok _, self') => abort_loop keys' self'
      | (Raise e, self') => (Raise e, self')
      end
  end.

Definition abort (self : t) : result unit * t :=
  abort_loop (dict_keys (listeners self)) self.

(** *** The coroutine [wait_for]

    The coroutine runs without interruption from its start to the
    [await] of the semaphore ([wait_for_start]); it continues either
    when the semaphore has been released ([wait_for_resume]) or when
    the timeout expires first ([wait_for_timeout]). *)
Inductive started : Type :=
| Returned (v : slot)       (* finished without suspending *)
| Raised (e : exn)
| Waiting (sem : nat).      (* suspended on [sem.acquire()] *)

Definition wait_for_start (seqno : Z) (self : t) : started * t :=
  if seqno <=? last_seqno self then (Returned PyNone, self)
  else if dict_mem Z.eqb (listeners self) seqno
  then (Raised PlainException, self)
  else
    let '(id, self) := new_semaphore self in
    let self := set_listeners self
                  (dict_set Z.eqb (listeners self) seqno (Sem id)) in
    (Waiting id, self).

(** The pending [acquire()] can complete when the counter is
    positive. *)
Definition can_resume (sem : nat) (self : t) : bool :=
  0 <? sem_value self sem.

(** [acquire()] completes, then [return self.listeners.pop(seqno)].
    [None] when the coroutine is still blocked. *)
Definition wait_for_resume (seqno : Z) (sem : nat) (self : t)
  : option (result slot * t) :=
  if can_resume sem self then
    let self := set_semaphores self
                  (list_update (semaphores self) sem (fun n => n - 1)) in
    match dict_get Z.eqb (listeners self) seqno with
    | None => Some (Raise KeyError, self)
    | Some v =>
        Some (Ok v,
              set_listeners self (dict_del Z.eqb (listeners self) seqno))
    end
  else None.

(** The [except asyncio.TimeoutError] branch. *)
Definition wait_for_timeout (seqno : Z) (self : t) : result slot * t :=
  if dict_mem Z.eqb (listeners self) seqno
  then (Raise TimeoutError,
        set_listeners self (dict_del Z.eqb (listeners self) seqno))
  else (Raise KeyError, self).

Section WithListener.
(** The callback given to [__init__], acting on the state [Env] of
    whoever installed it. *)
Context {Env : Type}.
Variable listener : TuyaMessage -> Env -> result unit * Env.

Definition _dispatch (msg : TuyaMessage) (self : t) (env : Env)
  : result unit * t * Env :=
  let self := set_last_seqno self (Z.max (last_seqno self) (seqno msg)) in
  match dict_get Z.eqb (listeners self) (seqno msg) with
  | Some sem =>
      let self := set_listeners self
                    (dict_set Z.eqb (listeners self) (seqno msg) (Msg msg)) in
      let '(r, self) := release sem self in
      (r, self, env)
  | None =>
      if cmd msg =? 0x09 then (Ok tt, self, env)
      else if cmd msg =? 0x08 then
        let '(r, env) := listener msg env in
        (r, self, env)
      else
        (* the arguments of _LOGGER.debug(...) *)
        (_ <- TuyaMessage_getattr msg "command" ;; Ok tt, self, env)
  end.

(** The [while self.buffer] loop; an iteration that does not leave
    the loop removes at least 16 bytes from the buffer, so
    [length (buffer self)] iterations are enough. *)
Fixpoint add_data_loop (fuel : nat) (self : t) (env : Env)
  : result unit * t * Env :=
  match fuel with
  | O => (Ok tt, self, env)
  | S fuel' =>
      let header_len := calcsize MESSAGE_RECV_HEADER_FMT in
      if len (buffer self) =? 0 then (Ok tt, self, env)
      else if len (buffer self) <? header_len then (Ok tt, self, env)
      else
        match struct_unpack_from MESSAGE_RECV_HEADER_FMT (buffer self) with
        | Ok [_; seqno; cmd; length; retcode] =>
            if len (slice_from (buffer self) (header_len - 4)) <? length
            then (Ok tt, self, env)
            else
              let payload_length :=
                length - 4 - calcsize MESSAGE_END_FMT in
              let payload :=
                slice (buffer self) header_len
                  (header_len + payload_length) in
              match struct_unpack_from MESSAGE_END_FMT
                      (slice (buffer self) (header_len + payload_length)
                         (header_len + length)) with
              | Ok [crc; _] =>
                  let self :=
                    set_buffer self
                      (slice_from (buffer self)
                         (header_len + length - 4)) in
                  match _dispatch
                          (mkTuyaMessage seqno cmd retcode payload crc)
                          self env with
                  | (Ok _, self, env) => add_data_loop fuel' self env
                  | (Raise e, self, env) => (Raise e, self, env)
                  end
              | Ok _ => (Raise StructError, self, env)
              | Raise e => (Raise e, self, env)
              end
        | Ok _ => (Raise StructError, self, env)
        | Raise e => (Raise e, self, env)
        end
  end.

Definition add_data (data : bytes) (self : t) (env : Env)
  : result unit * t * Env :=
  let self := set_buffer self (buffer self ++ data) in
  add_data_loop (length (buffer self)) self env.

End WithListener.

End MessageDispatcher.

(* ================================================================== *)
(** ** [PAYLOAD_DICT] *)

Inductive command_name : Type := SET | STATUS | HEARTBEAT.

Inductive device_type : Type := type_0a | type_0d.

Definition device_type_eqb (a b : device_type) : bool :=
  match a, b with
  | type_0a, type_0a | type_0d, type_0d => true
  | _, _ => false
  end.

Definition command_name_eqb (a b : command_name) : bool :=
  match a, b with
  | SET, SET | STATUS, STATUS | HEARTBEAT, HEARTBEAT => true
  | _, _ => false
  end.

(** One entry: [{"hexByte": ..., "command": {...}}]. *)
Record cmd_data : Type := mk_cmd_data {
  hexByte : Z;
  command : list (str * json)
}.

(** [d["command"]], for use where [command] names a parameter. *)
Definition command_of (d : cmd_data) : list (str * json) := command d.

Record command_table : Type := mk_command_table {
  status_entry : cmd_data;
  set_entry : cmd_data;
  heartbeat_entry : cmd_data
}.

(** The module-level dictionary; it is one object for the whole
    process, and [_generate_payload] writes into its ["command"]
    dictionaries, so it is threaded through the code as a store. *)
Record payload_dict : Type := mk_payload_dict {
  entry_type_0a : command_table;
  entry_type_0d : command_table
}.

Definition empty_str : json := JStr [].

Definition PAYLOAD_DICT : payload_dict :=
  mk_payload_dict
    (mk_command_table
       (mk_cmd_data 0x0A [(s_lit "gwId", empty_str); (s_lit "devId", empty_str)])
       (mk_cmd_data 0x07 [(s_lit "devId", empty_str); (s_lit "uid", empty_str);
                          (s_lit "t", empty_str)])
       (mk_cmd_data 0x09 []))
    (mk_command_table
       (mk_cmd_data 0x0D [(s_lit "devId", empty_str); (s_lit "uid", empty_str);
                          (s_lit "t", empty_str)])
       (mk_cmd_data 0x07 [(s_lit "devId", empty_str); (s_lit "uid", empty_str);
                          (s_lit "t", empty_str)])
       (mk_cmd_data 0x09 [])).

Definition table_get (tb : command_table) (c : command_name) : cmd_data :=
  match c with
  | STATUS => status_entry tb
  | SET => set_entry tb
  | HEARTBEAT => heartbeat_entry tb
  end.

Definition table_set (tb : command_table) (c : command_name) (d : cmd_data)
  : command_table :=
  match c with
  | STATUS => mk_command_table d (set_entry tb) (heartbeat_entry tb)
  | SET => mk_command_table (status_entry tb) d (heartbeat_entry tb)
  | HEARTBEAT => mk_command_table (status_entry tb) (set_entry tb) d
  end.

(** [PAYLOAD_DICT[dev_type][command]] *)
Definition pd_get (g : payload_dict) (dt : device_type) (c : command_name)
  : cmd_data :=
  match dt with
  | type_0a => table_get (entry_type_0a g) c
  | type_0d => table_get (entry_type_0d g) c
  end.

(** The store after the ["command"] dictionary of one entry has been
    mutated into [json_data]. *)
Definition pd_set_command (g : payload_dict) (dt : device_type)
    (c : command_name) (json_data : list (str * json)) : payload_dict :=
  let d := mk_cmd_data (hexByte (pd_get g dt c)) json_data in
  match dt with
  | type_0a => mk_payload_dict (table_set (entry_type_0a g) c d) (entry_type_0d g)
  | type_0d => mk_payload_dict (entry_type_0a g) (table_set (entry_type_0d g) c d)
  end.

(* ================================================================== *)
(** ** [class TuyaProtocol] *)

Module TuyaProtocol.

(** [self.version]: the code only asks whether it equals [3.3]. *)
Inductive protocol_version : Type := v3_1 | v3_3.

Definition is_v3_3 (v : protocol_version) : bool :=
  match v with v3_3 => true | v3_1 => false end.

(** [transport] is [None] or the open transport, given by the frames
    written to it so far; [heartbeater] is [None], or whether the
    heartbeat task is still running; [status_calls] records the
    arguments with which the [status_listener] callback was called
    (the callback belongs to the caller of the module and is taken
    to return). *)
Record t : Type := mk {
  id : str;
  local_key : bytes;
  version : protocol_version;
  dev_type : device_type;
  dps_to_request : list (str * json);
  cipher : AESCipher.t;
  seqno : Z;
  transport : option (list bytes);
  dispatcher : MessageDispatcher.t;
  heartbeater : option bool;
  status_calls : list (option json)
}.

Definition set_dev_type (self : t) (d : device_type) : t :=
  mk (id self) (local_key self) (version self) d (dps_to_request self)
     (cipher self) (seqno self) (transport self) (dispatcher self)
     (heartbeater self) (status_calls self).
Definition set_dps_to_request (self : t) (d : list (str * json)) : t :=
  mk (id self) (local_key self) (version self) (dev_type self) d
     (cipher self) (seqno self) (transport self) (dispatcher self)
     (heartbeater self) (status_calls self).
Definition set_seqno (self : t) (n : Z) : t :=
  mk (id self) (local_key self) (version self) (dev_type self)
     (dps_to_request self) (cipher self) n (transport self)
     (dispatcher self) (heartbeater self) (status_calls self).
Definition set_transport (self : t) (tr : option (list bytes)) : t :=
  mk (id self) (local_key self) (version self) (dev_type self)
     (dps_to_request self) (cipher self) (seqno self) tr
     (dispatcher self) (heartbeater self) (status_calls self).
Definition set_dispatcher (self : t) (d : MessageDispatcher.t) : t :=
  mk (id self) (local_key self) (version self) (dev_type self)
     (dps_to_request self) (cipher self) (seqno self) (transport self)
     d (heartbeater self) (status_calls self).
Definition set_heartbeater (self : t) (h : option bool) : t :=
  mk (id self) (local_key self) (version self) (dev_type self)
     (dps_to_request self) (cipher self) (seqno self) (transport self)
     (dispatcher self) h (status_calls self).
Definition set_status_calls (self : t) (l : list (option json)) : t :=
  mk (id self) (local_key self) (version self) (dev_type self)
     (dps_to_request self) (cipher self) (seqno self) (transport self)
     (dispatcher self) (heartbeater self) l.

(** [__init__(self, dev_id, local_key, protocol_version, ...)] *)
Definition init (dev_id : str) (key : str) (protocol_version : protocol_version)
  : result t :=
  key <- latin1_encode key ;;
  c <- AESCipher.init key ;;
  Ok (mk dev_id key protocol_version type_0a [] c 0 None
         MessageDispatcher.init None []).

(** What a call of [exchange] can hand to its caller: [None], a
    decoded payload, or the coroutine object made by calling
    [self.exchange(command, dps)] without awaiting it. *)
Inductive value : Type :=
| VNone
| VJson (j : json)
| VCoroutine (command : command_name) (dps : option json).

Definition value_of_payload (p : option json) : value :=
  match p with
  | None => VNone
  | Some j => VJson j
  end.

(** [self.transport.write(data)] *)
Definition transport_write (data : bytes) (self : t) : result unit * t :=
  match transport self with
  | Some written => (Ok tt, set_transport self (Some (written ++ [data])))
  | None => (Raise AttributeError, self)
  end.

Definition set_if_present (d : list (str * json)) (k : string) (v : json)
  : list (str * json) :=
  if dict_mem str_eqb d (s_lit k) then dict_set str_eqb d (s_lit k) v else d.

(** The bytes produced from the JSON text, per protocol version. *)
Definition wrap_payload (self : t) (command : command_name)
    (command_hb : Z) (payload : bytes) : result bytes :=
  if is_v3_3 (version self) then
    payload <- AESCipher.encrypt (cipher self) payload false ;;
    if negb (command_hb =? 0x0A)
    then Ok (PROTOCOL_33_HEADER ++ payload)
    else Ok payload
  else if command_name_eqb command SET then
    payload <- AESCipher.encrypt (cipher self) payload true ;;
    let preMd5String :=
      b_lit "data=" ++ payload ++ b_lit "||lpv="
      ++ PROTOCOL_VERSION_BYTES_31 ++ b_lit "||" ++ local_key self in
    let hexdigest := md5_hexdigest preMd5String in
    sig <- latin1_encode (slice_to (slice_from hexdigest 8) 16) ;;
    Ok (PROTOCOL_VERSION_BYTES_31 ++ sig ++ payload)
  else Ok payload.

(** [now] is the value of [int(time.time())] at the call; [g] is the
    shared [PAYLOAD_DICT]. *)
Definition _generate_payload (now : Z) (command : command_name)
    (data : option json) (self : t) (g : payload_dict)
  : result bytes * t * payload_dict :=
  let cmd_data := pd_get g (dev_type self) command in
  let json_data := command_of cmd_data in
  let command_hb := hexByte cmd_data in
  let json_data := set_if_present json_data "gwId" (JStr (id self)) in
  let json_data := set_if_present json_data "devId" (JStr (id self)) in
  let json_data := set_if_present json_data "uid" (JStr (id self)) in
  let json_data := set_if_present json_data "t" (JStr (str_of_int now)) in
  let json_data :=
    match data with
    | Some d => dict_set str_eqb json_data (s_lit "dps") d
    | None => json_data
    end in
  let json_data :=
    if command_hb =? 0x0D
    then dict_set str_eqb json_data (s_lit "dps") (JObj (dps_to_request self))
    else json_data in
  let g := pd_set_command g (dev_type self) command json_data in
  match
    (payload <- utf8_encode (remove_spaces (dumps (JObj json_data))) ;;
     wrap_payload self command command_hb payload)
  with
  | Raise e => (Raise e, self, g)
  | Ok payload =>
      let msg := mkTuyaMessage (seqno self) command_hb 0 payload 0 in
      let self := set_seqno self (seqno self + 1) in
      (pack_message msg, self, g)
  end.

(** [add_dps_to_request(dps_index)], for an [int] and for an iterable
    of [int]s. *)
Definition add_dps_to_request (dps_index : Z) (self : t) : t :=
  set_dps_to_request self
    (dict_set str_eqb (dps_to_request self) (str_of_int dps_index) JNull).

Definition add_dps_to_request_many (dps_index : list Z) (self : t) : t :=
  fold_left (fun self index => add_dps_to_request index self) dps_index self.

Section WithJson.
(** [json.loads] *)
Variable json_loads : str -> result json.

Definition _decode_payload (payload : bytes) (self : t)
  : result (option json) * t :=
  let finish (text : result str) (self : t) :=
    match text with
    | Raise e => (Raise e, self)
    | Ok text => (j <- json_loads text ;; Ok (Some j), self)
    end in
  if len payload =? 0 then finish (Ok (s_lit "{}")) self
  else if startswith PROTOCOL_VERSION_BYTES_31 payload then
    let payload := slice_from payload (len PROTOCOL_VERSION_BYTES_31) in
    finish (AESCipher.decrypt (cipher self) (slice_from payload 16) true)
           self
  else if is_v3_3 (version self) then
    let payload :=
      if negb (device_type_eqb (dev_type self) type_0a)
         || startswith PROTOCOL_VERSION_BYTES_33 payload
      then slice_from payload (len PROTOCOL_33_HEADER)
      else payload in
    match AESCipher.decrypt (cipher self) payload false with
    | Raise e => (Raise e, self)
    | Ok text =>
        if str_contains (s_lit "data unvalid") text
        then (Ok None, set_dev_type self type_0d)
        else finish (Ok text) self
    end
  else if negb (startswith (b_lit "{") payload)
  then (Raise PlainException, self)
  else finish (utf8_decode payload) self.

(** The callback installed by [_setup_dispatcher]. *)
Definition _status_update (msg : TuyaMessage) (self : t)
  : result unit * t :=
  match _decode_payload (payload msg) self with
  | (Raise e, self) => (Raise e, self)
  | (Ok decoded, self) =>
      (Ok tt, set_status_calls self (status_calls self ++ [decoded]))
  end.

(** [data_received(self, data)] *)
Definition data_received (data : bytes) (self : t) : result unit * t :=
  let '(r, d, self) :=
    MessageDispatcher.add_data _status_update data (dispatcher self) self in
  (r, set_dispatcher self d).

(** *** The coroutine [exchange]

    It runs from its start to the [await] inside
    [dispatcher.wait_for] ([exchange_start]) and, if it was
    suspended there, continues when [wait_for] does
    ([exchange_resume], [exchange_timeout]). *)
Record suspended : Type := mk_suspended {
  s_command : command_name;
  s_dps : option json;
  s_dev_type : device_type;   (* the local variable [dev_type] *)
  s_seqno : Z;                (* the argument given to [wait_for] *)
  s_sem : nat
}.

Inductive started : Type :=
| Returned (v : value)
| Raised (e : exn)
| Waiting (k : suspended).

(** From the return of [wait_for] to the end of [exchange]. *)
Definition exchange_finish (command : command_name) (dps : option json)
    (dev_type0 : device_type) (msg : MessageDispatcher.slot) (self : t)
  : result value * t :=
  match msg with
  | MessageDispatcher.PyNone => (Ok VNone, self)
  | MessageDispatcher.Sem _ => (Raise AttributeError, self)
  | MessageDispatcher.Msg m =>
      match _decode_payload (payload m) self with
      | (Raise e, self) => (Raise e, self)
      | (Ok decoded, self) =>
          if negb (device_type_eqb dev_type0 (dev_type self))
          then (* return self.exchange(command, dps) *)
            (Ok (VCoroutine command dps), self)
          else (Ok (value_of_payload decoded), self)
      end
  end.

Definition exchange_start (now : Z) (command : command_name)
    (dps : option json) (self : t) (g : payload_dict)
  : started * t * payload_dict :=
  match _generate_payload now command dps self g with
  | (Raise e, self, g) => (Raised e, self, g)
  | (Ok payload, self, g) =>
      let dev_type0 := dev_type self in
      match transport_write payload self with
      | (Raise e, self) => (Raised e, self, g)
      | (Ok _, self) =>
          let wanted := seqno self - 1 in
          let '(w, d) :=
            MessageDispatcher.wait_for_start wanted (dispatcher self) in
          let self := set_dispatcher self d in
          match w with
          | MessageDispatcher.Raised e => (Raised e, self, g)
          | MessageDispatcher.Waiting sem =>
              (Waiting (mk_suspended command dps dev_type0 wanted sem),
               self, g)
          | MessageDispatcher.Returned msg =>
              match exchange_finish command dps dev_type0 msg self with
              | (Ok v, self) => (Returned v, self, g)
              | (Raise e, self) => (Raised e, self, g)
              end
          end
      end
  end.

Definition exchange_resume (k : suspended) (self : t)
  : option (result value * t) :=
  match MessageDispatcher.wait_for_resume (s_seqno k) (s_sem k)
          (dispatcher self) with
  | None => None
  | Some (Raise e, d) => Some (Raise e, set_dispatcher self d)
  | Some (Ok msg, d) =>
      Some (exchange_finish (s_command k) (s_dps k) (s_dev_type k) msg
              (set_dispatcher self d))
  end.

(** [status()] is [await self.exchange(STATUS)], and
    [set_dps(value, dps_index)] is
    [await self.exchange(SET, {str(dps_index): value})]: they start
    as [exchange] does and hand its result on. *)
Definition status_start (now : Z) (self : t) (g : payload_dict)
  : started * t * payload_dict :=
  exchange_start now STATUS None self g.

Definition set_dps_start (now : Z) (value : json) (dps_index : Z)
    (self : t) (g : payload_dict) : started * t * payload_dict :=
  exchange_start now SET
    (Some (JObj [(str_of_int dps_index, value)])) self g.

Definition exchange_timeout (k : suspended) (self : t)
  : result value * t :=
  let '(r, d) :=
    MessageDispatcher.wait_for_timeout (s_seqno k) (dispatcher self) in
  (_ <- r ;; Ok VNone, set_dispatcher self d).

End WithJson.

(** [heartbeat(self)] *)
Definition heartbeat (now : Z) (self : t) (g : payload_dict)
  : result unit * t * payload_dict :=
  match _generate_payload now HEARTBEAT None self g with
  | (Raise e, self, g) => (Raise e, self, g)
  | (Ok payload, self, g) =>
      let '(r, self) := transport_write payload self in (r, self, g)
  end.

(** [connection_made(self, transport)] *)
Definition connection_made (self : t) : t :=
  set_heartbeater (set_transport self (Some [])) (Some true).

(** [close(self)] *)
Definition close (self : t) : result unit * t :=
  match transport self with
  | None => (Ok tt, self)
  | Some _ =>
      match MessageDispatcher.abort (dispatcher self) with
      | (Raise e, d) => (Raise e, set_dispatcher self d)
      | (Ok _, d) =>
          let self := set_dispatcher self d in
          match heartbeater self with
          | None => (Raise AttributeError, self)
          | Some _ =>
              let self := set_heartbeater self (Some false) in
              (Ok tt, set_transport self None)
          end
      end
  end.

(** [connection_lost(self, exc)] *)
Definition connection_lost (self : t) : result unit * t := close self.

End TuyaProtocol.

(* ================================================================== *)
(** ** Runs and wire layouts used to state the properties *)

(** The pad count of [_pad] for the block size 16. *)
Definition padnum_of (s : bytes) : Z := 16 - len s mod 16.

(** A frame as the device sends it: the receive header has a return
    code between the length and the payload, and the length counts the
    return code, the payload and the trailer. *)
Definition recv_frame (m : TuyaMessage) : bytes :=
  flat_map be32 [PREFIX_VALUE; seqno m; cmd m; len (payload m) + 12; retcode m]
  ++ payload m
  ++ flat_map be32 [crc m; SUFFIX_VALUE].

(** The fields of a frame fit their 32-bit slots. *)
Definition frame_ok (m : TuyaMessage) : Prop :=
  0 <= seqno m < 2 ^ 32 /\ 0 <= cmd m < 2 ^ 32 /\
  0 <= retcode m < 2 ^ 32 /\ 0 <= crc m < 2 ^ 32 /\
  len (payload m) + 12 < 2 ^ 32.

(** What one iteration of the loop of [add_data] takes from the
    buffer: nothing while the frame at its head is incomplete. *)
Definition next_frame (b : bytes) : option (TuyaMessage * bytes) :=
  if len b <? 20 then None
  else
    match unpack_words 5 b with
    | Some [_; seqno; cmd; length; retcode] =>
        if len b - 16 <? length then None
        else
          match unpack_words 2 (skipn (Z.to_nat (8 + length)) b) with
          | Some [crc; _] =>
              Some (mkTuyaMessage seqno cmd retcode
                      (firstn (Z.to_nat (length - 12)) (skipn 20 b)) crc,
                    skipn (Z.to_nat (16 + length)) b)
          | _ => None
          end
    | _ => None
    end.

Section Runs.
Context {Env : Type}.
Variable listener : TuyaMessage -> Env -> result unit * Env.

(** [_dispatch] on each message in turn, up to the first exception. *)
Fixpoint dispatch_all (ms : list TuyaMessage) (self : MessageDispatcher.t)
    (env : Env) : result unit * MessageDispatcher.t * Env :=
  match ms with
  | [] => (Ok tt, self, env)
  | m :: ms' =>
      match MessageDispatcher._dispatch listener m self env with
      | (Ok _, self, env) => dispatch_all ms' self env
      | (Raise e, self, env) => (Raise e, self, env)
      end
  end.

(** What follows the extraction of a frame in the loop of
    [add_data]: the next iteration [k], unless [_dispatch] raised. *)
Definition after_dispatch
    (k : MessageDispatcher.t -> Env -> result unit * MessageDispatcher.t * Env)
    (r : result unit * MessageDispatcher.t * Env)
  : result unit * MessageDispatcher.t * Env :=
  match r with
  | (Ok _, self, env) => k self env
  | (Raise e, self, env) => (Raise e, self, env)
  end.

(** The loop of [add_data] with the number of iterations [add_data]
    gives it. *)
Definition run (self : MessageDispatcher.t) (env : Env)
  : result unit * MessageDispatcher.t * Env :=
  MessageDispatcher.add_data_loop listener
    (length (MessageDispatcher.buffer self)) self env.

(** [add_data] on each chunk in turn, up to the first exception. *)
Fixpoint feed (chunks : list bytes) (self : MessageDispatcher.t)
    (env : Env) : result unit * MessageDispatcher.t * Env :=
  match chunks with
  | [] => (Ok tt, self, env)
  | c :: chunks' =>
      match MessageDispatcher.add_data listener c self env with
      | (Ok _, self, env) => feed chunks' self env
      | (Raise e, self, env) => (Raise e, self, env)
      end
  end.
End Runs.

(** A suspended [wait_for]: its sequence number and its semaphore. *)
Definition waiter : Type := Z * nat.

(** The entry of [listeners] of a waiter, before and after [abort]. *)
Definition to_sem (w : waiter) : Z * MessageDispatcher.slot :=
  (fst w, MessageDispatcher.Sem (snd w)).
Definition to_none (w : waiter) : Z * MessageDispatcher.slot :=
  (fst w, MessageDispatcher.PyNone).

(** Every semaphore of [ids] released once. *)
Definition release_all (ids : list nat) (sems : list Z) : list Z :=
  fold_left (fun l id => MessageDispatcher.list_update l id (fun n => n + 1))
    ids sems.

(** The dispatcher holds exactly the waiters [ws], all blocked. *)
Definition outstanding (ws : list waiter) (self : MessageDispatcher.t)
  : Prop :=
  MessageDispatcher.listeners self
  = map (fun w : waiter => (fst w, MessageDispatcher.Sem (snd w))) ws /\
  NoDup (map fst ws) /\
  NoDup (map snd ws) /\
  Forall (fun w : waiter =>
            (snd w < length (MessageDispatcher.semaphores self))%nat /\
            MessageDispatcher.sem_value self (snd w) = 0) ws.

(** The suspended coroutines continue one after the other. *)
Fixpoint resume_all (ws : list waiter) (self : MessageDispatcher.t)
  : option (list (result MessageDispatcher.slot) * MessageDispatcher.t) :=
  match ws with
  | [] => Some ([], self)
  | (seqno, sem) :: ws' =>
      match MessageDispatcher.wait_for_resume seqno sem self with
      | None => None
      | Some (r, self) =>
          match resume_all ws' self with
          | None => None
          | Some (rs, self) => Some (r :: rs, self)
          end
      end
  end.

(** [wait_for] started for each sequence number in turn. *)
Fixpoint register_all (seqnos : list Z) (self : MessageDispatcher.t)
  : list MessageDispatcher.started * MessageDispatcher.t :=
  match seqnos with
  | [] => ([], self)
  | s :: seqnos' =>
      let '(w, self) := MessageDispatcher.wait_for_start s self in
      let '(ws, self) := register_all seqnos' self in
      (w :: ws, self)
  end.

(** The dictionary [_generate_payload] leaves in the entry it used. *)
Definition json_data_of (now : Z) (command : command_name)
    (data : option json) (self : TuyaProtocol.t) (g : payload_dict)
  : list (str * json) :=
  let cmd_data := pd_get g (TuyaProtocol.dev_type self) command in
  let json_data := command_of cmd_data in
  let json_data :=
    TuyaProtocol.set_if_present json_data "gwId" (JStr (TuyaProtocol.id self)) in
  let json_data :=
    TuyaProtocol.set_if_present json_data "devId" (JStr (TuyaProtocol.id self)) in
  let json_data :=
    TuyaProtocol.set_if_present json_data "uid" (JStr (TuyaProtocol.id self)) in
  let json_data :=
    TuyaProtocol.set_if_present json_data "t" (JStr (str_of_int now)) in
  let json_data :=
    match data with
    | Some d => dict_set str_eqb json_data (s_lit "dps") d
    | None => json_data
    end in
  if hexByte cmd_data =? 0x0D
  then dict_set str_eqb json_data (s_lit "dps")
         (JObj (TuyaProtocol.dps_to_request self))
  else json_data.

(** The SET template of device type [dt] holds [d] under ["dps"]. *)
Definition holds_dps (g : payload_dict) (dt : device_type) (d : json) : Prop :=
  hexByte (pd_get g dt SET) = 0x07 /\
  dict_get str_eqb (command (pd_get g dt SET)) (s_lit "dps") = Some d.

(** A call of [_generate_payload]: who calls, when, and with what. *)
Record call : Type := mk_call {
  call_self : TuyaProtocol.t;
  call_now : Z;
  call_command : command_name;
  call_data : option json
}.

(** The shared store after a series of calls, from any sessions. *)
Definition run_calls (calls : list call) (g : payload_dict) : payload_dict :=
  fold_left
    (fun g c =>
       snd (TuyaProtocol._generate_payload (call_now c) (call_command c)
              (call_data c) (call_self c) g))
    calls g.

(** The command field of a frame, as the receiving side reads it. *)
Definition frame_cmd (frame : bytes) : option Z :=
  match unpack_words 4 frame with
  | Some [_; _; cmd; _] => Some cmd
  | _ => None
  end.

(** A session on which the statements are tried: the device id and the
    local key are the placeholders of the documentation, the transport
    is open. *)
Definition demo_id : str := s_lit "01234567891234567890".
Definition demo_key : str := s_lit "0123456789abcdef".

Definition demo_session (v : TuyaProtocol.protocol_version)
    (dt : device_type) : TuyaProtocol.t :=
  TuyaProtocol.mk demo_id (b_lit "0123456789abcdef") v dt []
    (AESCipher.mk 16 (key_expansion (b_lit "0123456789abcdef")))
    0 (Some []) MessageDispatcher.init (Some true) [].

(* ================================================================== *)
(** ** Further wire layouts and runs *)

(** The sequence-number field of a frame, as the receiving side reads
    it. *)
Definition frame_seqno (frame : bytes) : option Z :=
  match unpack_words 4 frame with
  | Some [_; seqno; _; _] => Some seqno
  | _ => None
  end.

(** A received frame with any first word, last word and checksum (the
    checksum is the [crc] field of the message). *)
Definition wire_frame (first last : Z) (m : TuyaMessage) : bytes :=
  flat_map be32 [first; seqno m; cmd m; len (payload m) + 12; retcode m]
  ++ payload m
  ++ flat_map be32 [crc m; last].

(** The [str] of an ASCII literal in which an apostrophe stands for
    the double quote, to write JSON texts. *)
Definition q_lit (s : string) : str :=
  map (fun c => if c =? 39 then 34 else c) (s_lit s).

(* ================================================================== *)
(** ** The calls a session receives *)

(** The entry points of [TuyaProtocol], as the event loop and the
    callers of the module invoke them: the transport callbacks, the
    methods, and the continuation of an [exchange] suspended in
    [wait_for] (when its semaphore is released, or at its timeout). *)
Inductive event : Type :=
| ConnectionMade
| DataReceived (data : bytes)
| ConnectionLost
| Close
| Heartbeat (now : Z)
| ExchangeStart (now : Z) (command : command_name) (dps : option json)
| ExchangeResume (k : TuyaProtocol.suspended)
| ExchangeTimeout (k : TuyaProtocol.suspended)
| AddDpsToRequest (dps_index : Z)
| AddDpsToRequestMany (dps_index : list Z).

Section Events.
Variable json_loads : str -> result json.

(** The session and the shared [PAYLOAD_DICT] after one call,
    whether the call returned or raised. *)
Definition step (e : event) (st : TuyaProtocol.t * payload_dict)
  : TuyaProtocol.t * payload_dict :=
  let '(self, g) := st in
  match e with
  | ConnectionMade => (TuyaProtocol.connection_made self, g)
  | DataReceived data =>
      (snd (TuyaProtocol.data_received json_loads data self), g)
  | ConnectionLost => (snd (TuyaProtocol.connection_lost self), g)
  | Close => (snd (TuyaProtocol.close self), g)
  | Heartbeat now =>
      let '(_, self, g) := TuyaProtocol.heartbeat now self g in (self, g)
  | ExchangeStart now command dps =>
      let '(_, self, g) :=
        TuyaProtocol.exchange_start json_loads now command dps self g in
      (self, g)
  | ExchangeResume k =>
      match TuyaProtocol.exchange_resume json_loads k self with
      | Some (_, self) => (self, g)
      | None => (self, g)
      end
  | ExchangeTimeout k =>
      (snd (TuyaProtocol.exchange_timeout k self), g)
  | AddDpsToRequest i => (TuyaProtocol.add_dps_to_request i self, g)
  | AddDpsToRequestMany l => (TuyaProtocol.add_dps_to_request_many l self, g)
  end.

Definition run_events (es : list event) (st : TuyaProtocol.t * payload_dict)
  : TuyaProtocol.t * payload_dict :=
  fold_left (fun st e => step e st) es st.
End Events.

(** What a session keeps from one state to a later one. *)
Definition evolves (a b : TuyaProtocol.t) : Prop :=
  TuyaProtocol.id b = TuyaProtocol.id a /\
  TuyaProtocol.local_key b = TuyaProtocol.local_key a /\
  TuyaProtocol.version b = TuyaProtocol.version a /\
  TuyaProtocol.cipher b = TuyaProtocol.cipher a /\
  TuyaProtocol.seqno a <= TuyaProtocol.seqno b /\
  (TuyaProtocol.dev_type a = type_0d -> TuyaProtocol.dev_type b = type_0d) /\
  MessageDispatcher.last_seqno (TuyaProtocol.dispatcher a)
  <= MessageDispatcher.last_seqno (TuyaProtocol.dispatcher b).

(* ================================================================== *)
(** ** [TuyaProtocol.detect_available_dps] *)

(** [range(lo, hi)] *)
Definition py_range (lo hi : Z) : list Z :=
  map (fun i => lo + Z.of_nat i) (seq 0 (Z.to_nat (hi - lo))).

(** Keys of a [dict]: [list] and [dict] values are not hashable. *)
Definition hashable (j : json) : bool :=
  match j with
  | JList _ | JObj _ => false
  | _ => true
  end.

(** [a == b] between hashable JSON values: [True == 1] and
    [False == 0]. *)
Definition key_eqb (a b : json) : bool :=
  match a, b with
  | JNull, JNull => true
  | JStr s, JStr t => str_eqb s t
  | JInt n, JInt m => n =? m
  | JBool x, JBool y => Bool.eqb x y
  | JInt n, JBool y | JBool y, JInt n => n =? (if y then 1 else 0)
  | _, _ => false
  end.

(** [data["dps"]], for what [status()] can return. *)
Definition getitem_dps (data : TuyaProtocol.value) : result json :=
  match data with
  | TuyaProtocol.VJson (JObj kv) =>
      match dict_get str_eqb kv (s_lit "dps") with
      | Some v => Ok v
      | None => Raise KeyError
      end
  | _ => Raise TypeError
  end.

(** One element of the sequence given to [dict.update]: it must be a
    sequence of two items, the first one hashable. *)
Definition update_item (item : json) : result (json * json) :=
  match item with
  | JList [k; v] => if hashable k then Ok (k, v) else Raise TypeError
  | JList _ => Raise ValueError
  | JStr [c1; c2] => Ok (JStr [c1], JStr [c2])
  | JStr _ => Raise ValueError
  | JObj [(k1, _); (k2, _)] => Ok (JStr k1, JStr k2)
  | JObj _ => Raise ValueError
  | JNull | JBool _ | JInt _ => Raise TypeError
  end.

Fixpoint update_items (d : list (json * json)) (items : list json)
  : result unit * list (json * json) :=
  match items with
  | [] => (Ok tt, d)
  | item :: items' =>
      match update_item item with
      | Ok (k, v) => update_items (dict_set key_eqb d k v) items'
      | Raise e => (Raise e, d)
      end
  end.

(** [d.update(other)]; what was stored before an exception stays. *)
Definition dict_update (d : list (json * json)) (other : json)
  : result unit * list (json * json) :=
  match other with
  | JObj kv =>
      (Ok tt, fold_left (fun d kv => dict_set key_eqb d (JStr (fst kv)) (snd kv))
                kv d)
  | JList items => update_items d items
  | JStr [] => (Ok tt, d)
  | JStr _ => (Raise ValueError, d)
  | JNull | JBool _ | JInt _ => (Raise TypeError, d)
  end.

Module Detect.

(** The local variable [ranges], each range with the reading of
    [time.time()] of the [status()] call of its iteration. *)
Definition ranges : list (Z * Z) := [(2, 11); (11, 21); (21, 31); (100, 111)].

Definition schedule (t1 t2 t3 t4 : Z) : list (Z * (Z * Z)) :=
  combine [t1; t2; t3; t4] ranges.

(** The coroutine suspended in [await self.status()]. *)
Record suspended : Type := mk_suspended {
  s_exchange : TuyaProtocol.suspended;
  s_detected : list (json * json);        (* [detected_dps] *)
  s_rest : list (Z * (Z * Z))             (* the ranges still to come *)
}.

Inductive started : Type :=
| Returned (detected_dps : list (json * json))
| Raised (e : exn)
| Waiting (k : suspended).

(** The head of the loop body: what is requested in one iteration. *)
Definition request (dps_range : Z * Z) (self : TuyaProtocol.t)
  : TuyaProtocol.t :=
  let self := TuyaProtocol.set_dps_to_request self [(s_lit "1", JNull)] in
  TuyaProtocol.add_dps_to_request_many
    (py_range (fst dps_range) (snd dps_range)) self.

(** [detected_dps.update(data["dps"])], as the new value of the
    local variable. *)
Definition merge (data : TuyaProtocol.value)
    (detected_dps : list (json * json)) : result (list (json * json)) :=
  dps <- getitem_dps data ;;
  match dict_update detected_dps dps with
  | (Ok _, detected_dps) => Ok detected_dps
  | (Raise e, _) => Raise e
  end.

Section WithJson.
Variable json_loads : str -> result json.

(** The loop from the top of an iteration. *)
Fixpoint loop (todo : list (Z * (Z * Z))) (detected_dps : list (json * json))
    (self : TuyaProtocol.t) (g : payload_dict)
  : started * TuyaProtocol.t * payload_dict :=
  match todo with
  | [] => (Returned detected_dps, self, g)
  | (now, dps_range) :: rest =>
      let self := request dps_range self in
      match TuyaProtocol.status_start json_loads now self g with
      | (TuyaProtocol.Raised e, self, g) => (Raised e, self, g)
      | (TuyaProtocol.Waiting k, self, g) =>
          (Waiting (mk_suspended k detected_dps rest), self, g)
      | (TuyaProtocol.Returned data, self, g) =>
          match merge data detected_dps with
          | Raise e => (Raised e, self, g)
          | Ok detected_dps =>
              if device_type_eqb (TuyaProtocol.dev_type self) type_0a
              then (Returned detected_dps, self, g)
              else loop rest detected_dps self g
          end
      end
  end.

(** The loop from the return of [await self.status()]. *)
Definition after_status (data : TuyaProtocol.value)
    (rest : list (Z * (Z * Z))) (detected_dps : list (json * json))
    (self : TuyaProtocol.t) (g : payload_dict)
  : started * TuyaProtocol.t * payload_dict :=
  match merge data detected_dps with
  | Raise e => (Raised e, self, g)
  | Ok detected_dps =>
      if device_type_eqb (TuyaProtocol.dev_type self) type_0a
      then (Returned detected_dps, self, g)
      else loop rest detected_dps self g
  end.

(** [detect_available_dps()] from its start to its first [await]
    that suspends, or to its end. *)
Definition detect_available_dps_start (t1 t2 t3 t4 : Z)
    (self : TuyaProtocol.t) (g : payload_dict)
  : started * TuyaProtocol.t * payload_dict :=
  loop (schedule t1 t2 t3 t4) [] self g.

(** The suspended coroutine continues when its [exchange] does. *)
Definition detect_available_dps_resume (k : suspended)
    (self : TuyaProtocol.t) (g : payload_dict)
  : option (started * TuyaProtocol.t * payload_dict) :=
  match TuyaProtocol.exchange_resume json_loads (s_exchange k) self with
  | None => None
  | Some (Raise e, self) => Some (Raised e, self, g)
  | Some (Ok data, self) =>
      Some (after_status data (s_rest k) (s_detected k) self g)
  end.

Definition detect_available_dps_timeout (k : suspended)
    (self : TuyaProtocol.t) (g : payload_dict)
  : started * TuyaProtocol.t * payload_dict :=
  match TuyaProtocol.exchange_timeout (s_exchange k) self with
  | (Raise e, self) => (Raised e, self, g)
  | (Ok data, self) => after_status data (s_rest k) (s_detected k) self g
  end.
End WithJson.

End Detect.

(* ================================================================== *)
(** ** [common.py]: [class TuyaDevice]

    Source: [custom_components/localtuya/common.py]. *)

Module TuyaDevice.

Section WithInterface.
(** Everything the two awaited calls of the [try] block of
    [set_dps] act on (the device object, its connection, the
    network) is the state [World]; [attempt] is
    [await self.connect()] followed by
    [await self._interface.set_dps(state, dps_index)], with the
    exception the block is left with, if any.  [CONF_HOST] is the
    key imported from [homeassistant.const]. *)
Context {World : Type}.
Variable CONF_HOST : str.
Variable attempt : World -> result unit * World.

(** [set_dps]: the [for i in range(5)] loop.  [printed] collects
    the arguments given to [format] for each [print]: the host and
    the exception. *)
Fixpoint set_dps_loop (indices : list Z) (config_entry : list (str * json))
    (world : World) (printed : list (json * exn))
  : result unit * World * list (json * exn) :=
  match indices with
  | [] => (Ok tt, world, printed)
  | i :: indices' =>
      match attempt world with
      | (Ok _, world) => (Ok tt, world, printed)
      | (Raise e, world) =>
          (* self._config_entry[CONF_HOST] *)
          match dict_get str_eqb config_entry CONF_HOST with
          | None => (Raise KeyError, world, printed)
          | Some host =>
              let printed := printed ++ [(host, e)] in
              if i + 1 =? 3 then (Ok tt, world, printed)
              else set_dps_loop indices' config_entry world printed
          end
      end
  end.

Definition set_dps (config_entry : list (str * json)) (world : World)
  : result unit * World * list (json * exn) :=
  set_dps_loop (py_range 0 5) config_entry world [].
End WithInterface.

End TuyaDevice.

(* ================================================================== *)
(** * Proofs *)

(* ================================================================== *)
(** * The library primitives on their published test vectors *)

(** The check value of CRC-32. *)
Example crc32_check : crc32 (b_lit "123456789") = 0xCBF43926.
Proof. vm_compute. reflexivity. Qed.

(** FIPS-197, appendix C: the example vectors for the three key
    sizes. *)
Example aes128_fips197 :
  (c <- Cipher_AES_ECB (map byte_of_Z (map Z.of_nat (seq 0 16))) ;;
   ecb_encrypt c (map byte_of_Z
     [0x00; 0x11; 0x22; 0x33; 0x44; 0x55; 0x66; 0x77;
      0x88; 0x99; 0xaa; 0xbb; 0xcc; 0xdd; 0xee; 0xff]))
  = Ok (map byte_of_Z
     [0x69; 0xc4; 0xe0; 0xd8; 0x6a; 0x7b; 0x04; 0x30;
      0xd8; 0xcd; 0xb7; 0x80; 0x70; 0xb4; 0xc5; 0x5a]).
Proof. vm_compute. reflexivity. Qed.

Example aes192_fips197 :
  (c <- Cipher_AES_ECB (map byte_of_Z (map Z.of_nat (seq 0 24))) ;;
   ecb_encrypt c (map byte_of_Z
     [0x00; 0x11; 0x22; 0x33; 0x44; 0x55; 0x66; 0x77;
      0x88; 0x99; 0xaa; 0xbb; 0xcc; 0xdd; 0xee; 0xff]))
  = Ok (map byte_of_Z
     [0xdd; 0xa9; 0x7c; 0xa4; 0x86; 0x4c; 0xdf; 0xe0;
      0x6e; 0xaf; 0x70; 0xa0; 0xec; 0x0d; 0x71; 0x91]).
Proof. vm_compute. reflexivity. Qed.

Example aes256_fips197 :
  (c <- Cipher_AES_ECB (map byte_of_Z (map Z.of_nat (seq 0 32))) ;;
   ecb_encrypt c (map byte_of_Z
     [0x00; 0x11; 0x22; 0x33; 0x44; 0x55; 0x66; 0x77;
      0x88; 0x99; 0xaa; 0xbb; 0xcc; 0xdd; 0xee; 0xff]))
  = Ok (map byte_of_Z
     [0x8e; 0xa2; 0xb7; 0xca; 0x51; 0x67; 0x45; 0xbf;
      0xea; 0xfc; 0x49; 0x90; 0x4b; 0x49; 0x60; 0x89]).
Proof. vm_compute. reflexivity. Qed.

(** RFC 1321, appendix A.5. *)
Example md5_empty :
  md5_hexdigest [] = s_lit "d41d8cd98f00b204e9800998ecf8427e".
Proof. vm_compute. reflexivity. Qed.

Example md5_abc :
  md5_hexdigest (b_lit "abc") = s_lit "900150983cd24fb0d6963f7d28e17f72".
Proof. vm_compute. reflexivity. Qed.

Example md5_digits :
  md5_hexdigest
    (b_lit "12345678901234567890123456789012345678901234567890123456789012345678901234567890")
  = s_lit "57edf4a22be3c955ac49da2e2107b67a".
Proof. vm_compute. reflexivity. Qed.

(** RFC 4648, section 10. *)
Example b64encode_foobar :
  map b64encode [[]; b_lit "f"; b_lit "fo"; b_lit "foo"; b_lit "foob";
                 b_lit "fooba"; b_lit "foobar"]
  = [[]; b_lit "Zg=="; b_lit "Zm8="; b_lit "Zm9v"; b_lit "Zm9vYg==";
     b_lit "Zm9vYmE="; b_lit "Zm9vYmFy"].
Proof. vm_compute. reflexivity. Qed.

(** [b64decode] skips what is not in the alphabet, stops at a complete
    pad sequence and rejects a truncated text. *)
Example b64decode_lenient :
  map b64decode [b_lit "aGVsbG8=garbage"; b_lit "aGV sbG8"; b_lit "aGVsb=G8=";
                 b_lit "aGVsb"]
  = [Ok (b_lit "hello"); Raise BinasciiError; Ok (b_lit "hello");
     Raise BinasciiError].
Proof. vm_compute. reflexivity. Qed.

(** [json.dumps], with single quotes standing for double quotes in the
    expected text. *)
Example dumps_sample :
  dumps (JObj [(s_lit "devId", JStr (s_lit "a b"));
               (s_lit "dps", JObj [(s_lit "1", JBool true);
                                   (s_lit "2", JInt (-105));
                                   (s_lit "3", JNull);
                                   (s_lit "4", JList [JInt 0; JStr [233; 10]])])])
  = map (fun c => if c =? 39 then 34 else c)
      (s_lit "{'devId': 'a b', 'dps': {'1': true, '2': -105, '3': null, '4': [0, '\u00e9\n']}}").
Proof. vm_compute. reflexivity. Qed.

(** The STATUS frame of a type-A session of protocol 3.1, as the
    Python module builds it: clear JSON with the spaces removed. *)
Example status_frame_v31 :
  fst (fst (TuyaProtocol._generate_payload 1604492800 STATUS None
              (demo_session TuyaProtocol.v3_1 type_0a) PAYLOAD_DICT))
  = Ok (be32 0x55AA ++ be32 0 ++ be32 0x0A ++ be32 70
        ++ map (fun c => byte_of_Z (if c =? 39 then 34 else c))
             (s_lit "{'gwId':'01234567891234567890','devId':'01234567891234567890'}")
        ++ be32 0x7D426287 ++ be32 0xAA55).
Proof. vm_compute. reflexivity. Qed.

(** The SET frames of [set_dps(True, 1)] for both protocol versions,
    against frames built with the Python standard library and the AES
    of OpenSSL. *)
Example set_frame_v31 :
  fst (fst (TuyaProtocol._generate_payload 1604492800 SET
              (Some (JObj [(s_lit "1", JBool true)]))
              (demo_session TuyaProtocol.v3_1 type_0a) PAYLOAD_DICT))
  = Ok (map byte_of_Z
      [0; 0; 85; 170; 0; 0; 0; 0; 0; 0; 0; 7; 0; 0; 0; 155; 51; 46; 49;
       101; 54; 99; 54; 53; 98; 49; 102; 54; 54; 57; 55; 56; 54; 101;
       102; 81; 121; 100; 104; 101; 106; 74; 73; 116; 80; 111; 53; 122;
       52; 83; 121; 112; 106; 78; 80; 119; 116; 86; 108; 68; 53; 74;
       86; 49; 52; 120; 112; 78; 84; 85; 119; 107; 66; 50; 97; 109;
       115; 72; 116; 103; 74; 82; 86; 109; 83; 121; 79; 49; 103; 119;
       120; 97; 110; 66; 88; 120; 106; 75; 108; 85; 87; 103; 86; 106;
       112; 100; 115; 103; 108; 48; 70; 53; 84; 99; 99; 84; 104; 89;
       87; 121; 48; 56; 117; 90; 57; 65; 70; 98; 121; 114; 82; 119; 71;
       54; 99; 51; 119; 80; 122; 47; 47; 120; 99; 107; 98; 108; 78; 82;
       100; 84; 109; 98; 108; 73; 117; 107; 56; 43; 77; 83; 114; 72;
       43; 75; 102; 117; 113; 0; 0; 170; 85]).
Proof. vm_compute. reflexivity. Qed.

Example set_frame_v33 :
  fst (fst (TuyaProtocol._generate_payload 1604492800 SET
              (Some (JObj [(s_lit "1", JBool true)]))
              (demo_session TuyaProtocol.v3_3 type_0a) PAYLOAD_DICT))
  = Ok (map byte_of_Z
      [0; 0; 85; 170; 0; 0; 0; 0; 0; 0; 0; 7; 0; 0; 0; 119; 51; 46; 51;
       0; 0; 0; 0; 0; 0; 0; 0; 0; 0; 0; 0; 67; 39; 97; 122; 50; 72;
       180; 250; 57; 207; 132; 178; 166; 51; 79; 194; 213; 101; 15;
       146; 85; 215; 140; 105; 53; 53; 48; 144; 29; 154; 154; 193; 237;
       128; 148; 85; 153; 44; 142; 214; 12; 49; 106; 112; 87; 198; 50;
       165; 81; 104; 21; 142; 151; 108; 130; 93; 5; 229; 55; 28; 78;
       22; 22; 203; 79; 46; 103; 208; 5; 111; 42; 209; 192; 110; 156;
       223; 3; 243; 255; 252; 92; 145; 185; 77; 69; 212; 230; 110; 82;
       46; 147; 207; 140; 74; 177; 254; 220; 129; 79; 11; 0; 0; 170; 85]).
Proof. vm_compute. reflexivity. Qed.

(* ================================================================== *)
(** * Bytes and their values *)

Lemma Z_of_byte_range (b : byte) : 0 <= Z_of_byte b < 256.
Proof.
  unfold Z_of_byte. pose proof (Byte.to_N_bounded b). lia.
Qed.

Lemma byte_of_Z_of_byte (b : byte) : byte_of_Z (Z_of_byte b) = b.
Proof.
  unfold byte_of_Z. pose proof (Z_of_byte_range b) as Hr.
  rewrite Z.mod_small by lia. unfold Z_of_byte.
  rewrite N2Z.id, Byte.of_to_N. reflexivity.
Qed.

Lemma Z_of_byte_of_Z (z : Z) : Z_of_byte (byte_of_Z z) = z mod 256.
Proof.
  unfold byte_of_Z, Z_of_byte.
  pose proof (Z.mod_pos_bound z 256 ltac:(lia)) as Hr.
  destruct (Byte.of_N (Z.to_N (z mod 256))) as [b|] eqn:E.
  - apply Byte.to_of_N in E. rewrite E. lia.
  - apply Byte.of_N_None_iff in E. lia.
Qed.

Lemma Z_of_byte_of_Z_small (z : Z) :
  0 <= z < 256 -> Z_of_byte (byte_of_Z z) = z.
Proof. intros. rewrite Z_of_byte_of_Z. apply Z.mod_small. lia. Qed.

Lemma Z_of_byte_inj (a b : byte) : Z_of_byte a = Z_of_byte b -> a = b.
Proof.
  intros H. rewrite <- (byte_of_Z_of_byte a), <- (byte_of_Z_of_byte b).
  now rewrite H.
Qed.

Lemma byte_eqb_refl (b : byte) : Byte.eqb b b = true.
Proof. now apply Byte.byte_dec_lb. Qed.

Lemma byte_eqb_eq (a b : byte) : Byte.eqb a b = true <-> a = b.
Proof. split; [apply Byte.byte_dec_bl | apply Byte.byte_dec_lb]. Qed.

Lemma byte_eqb_neq (a b : byte) : a <> b -> Byte.eqb a b = false.
Proof.
  intros H. destruct (Byte.eqb a b) eqn:E; [|reflexivity].
  apply byte_eqb_eq in E. contradiction.
Qed.

(* ================================================================== *)
(** * Lengths and slices *)

Lemma len_nonneg {A} (l : list A) : 0 <= len l.
Proof. unfold len. lia. Qed.

Lemma len_app {A} (a b : list A) : len (a ++ b) = len a + len b.
Proof. unfold len. rewrite length_app. lia. Qed.

Lemma len_nil {A} : len (@nil A) = 0.
Proof. reflexivity. Qed.

Lemma len_cons {A} (x : A) (l : list A) : len (x :: l) = 1 + len l.
Proof. unfold len. simpl length. lia. Qed.

Lemma len_zero_nil {A} (l : list A) : len l = 0 -> l = [].
Proof. destruct l; [reflexivity|]. rewrite len_cons. pose proof (len_nonneg l). lia. Qed.

Lemma slice_from_spec {A} (l : list A) (i : Z) :
  0 <= i -> slice_from l i = skipn (Z.to_nat i) l.
Proof.
  intros Hi. unfold slice_from, py_slice, clamp_index.
  destruct (i <? 0) eqn:E; [lia|].
  destruct (Z.min_spec i (Z.of_nat (length l))) as [[H1 H2]|[H1 H2]]; rewrite H2.
  - rewrite firstn_all2; [reflexivity|]. rewrite length_skipn. lia.
  - rewrite Nat2Z.id, skipn_all. simpl. rewrite firstn_nil.
    symmetry. apply skipn_all2. lia.
Qed.

Lemma slice_to_spec {A} (l : list A) (j : Z) :
  0 <= j -> slice_to l j = firstn (Z.to_nat j) l.
Proof.
  intros Hj. unfold slice_to, py_slice, clamp_index.
  destruct (j <? 0) eqn:E; [lia|]. simpl skipn. rewrite Z.sub_0_r.
  destruct (Z.min_spec j (Z.of_nat (length l))) as [[H1 H2]|[H1 H2]]; rewrite H2.
  - reflexivity.
  - rewrite Nat2Z.id, firstn_all. symmetry. apply firstn_all2. lia.
Qed.

Lemma slice_spec {A} (l : list A) (i j : Z) :
  0 <= i -> 0 <= j ->
  slice l i j = firstn (Z.to_nat j - Z.to_nat i) (skipn (Z.to_nat i) l).
Proof.
  intros Hi Hj. unfold slice, py_slice, clamp_index.
  destruct (i <? 0) eqn:E1; [lia|]. destruct (j <? 0) eqn:E2; [lia|].
  set (n := Z.of_nat (length l)).
  destruct (Z.min_spec i n) as [[H1 H2]|[H1 H2]]; rewrite H2;
  destruct (Z.min_spec j n) as [[H3 H4]|[H3 H4]]; rewrite H4.
  - f_equal. lia.
  - rewrite !firstn_all2; try reflexivity; rewrite length_skipn; lia.
  - unfold n. rewrite Nat2Z.id, skipn_all, firstn_nil.
    rewrite skipn_all2 by lia. now rewrite firstn_nil.
  - unfold n. rewrite Nat2Z.id, skipn_all, firstn_nil.
    rewrite skipn_all2 by lia. now rewrite firstn_nil.
Qed.

(** [l[:-n]] drops the last [n] elements when [0 < n]. *)
Lemma slice_to_neg {A} (l : list A) (n : Z) :
  0 < n -> slice_to l (- n) = firstn (length l - Z.to_nat n) l.
Proof.
  intros Hn. unfold slice_to, py_slice, clamp_index.
  destruct (- n <? 0) eqn:E; [|lia]. simpl skipn. rewrite Z.sub_0_r.
  f_equal. lia.
Qed.

Lemma slice_from_neg {A} (l : list A) (n : Z) :
  0 < n -> slice_from l (- n) = skipn (length l - Z.to_nat n) l.
Proof.
  intros Hn. unfold slice_from, py_slice, clamp_index.
  destruct (- n <? 0) eqn:E; [|lia].
  rewrite firstn_all2.
  - f_equal. lia.
  - rewrite length_skipn. lia.
Qed.

Lemma slice_neg_stop {A} (l : list A) (i n : Z) :
  0 <= i -> 0 < n ->
  slice l i (- n)
  = firstn (length l - Z.to_nat n - Z.to_nat i) (skipn (Z.to_nat i) l).
Proof.
  intros Hi Hn. unfold slice, py_slice, clamp_index.
  destruct (- n <? 0) eqn:E; [|lia]. destruct (i <? 0) eqn:E1; [lia|].
  set (m := Z.of_nat (length l)).
  destruct (Z.min_spec i m) as [[H1 H2]|[H1 H2]]; rewrite H2.
  - f_equal. lia.
  - unfold m. rewrite Nat2Z.id, skipn_all, firstn_nil.
    rewrite skipn_all2 by lia. now rewrite firstn_nil.
Qed.

(* ================================================================== *)
(** * [struct] *)

Lemma of_be32_be32 (v : Z) :
  0 <= v < 2 ^ 32 ->
  of_be32 (byte_of_Z (v / 2 ^ 24)) (byte_of_Z (v / 2 ^ 16))
          (byte_of_Z (v / 2 ^ 8)) (byte_of_Z v) = v.
Proof.
  intros Hv. unfold of_be32. rewrite !Z_of_byte_of_Z.
  change (2 ^ 24) with 16777216. change (2 ^ 16) with 65536.
  change (2 ^ 8) with 256. change (2 ^ 32) with 4294967296 in Hv.
  Z.div_mod_to_equations. lia.
Qed.

Lemma uint32_ok_iff (v : Z) : uint32_ok v = true <-> 0 <= v < 2 ^ 32.
Proof. unfold uint32_ok. rewrite andb_true_iff, Z.leb_le, Z.ltb_lt. tauto. Qed.

Lemma length_be32 (v : Z) : length (be32 v) = 4%nat.
Proof. reflexivity. Qed.

Lemma struct_pack_ok (vs : list Z) :
  Forall (fun v => 0 <= v < 2 ^ 32) vs ->
  struct_pack vs = Ok (flat_map be32 vs).
Proof.
  induction 1 as [|v vs Hv _ IH]; [reflexivity|].
  simpl struct_pack. apply uint32_ok_iff in Hv. rewrite Hv, IH. reflexivity.
Qed.

Lemma struct_pack_inv (vs : list Z) (b : bytes) :
  struct_pack vs = Ok b ->
  Forall (fun v => 0 <= v < 2 ^ 32) vs /\ b = flat_map be32 vs.
Proof.
  revert b. induction vs as [|v vs IH]; intros b H.
  - inversion H. split; constructor.
  - simpl in H. destruct (uint32_ok v) eqn:E; [|discriminate].
    destruct (struct_pack vs) as [r|] eqn:E'; [|discriminate].
    simpl in H. inversion H; subst. destruct (IH _ eq_refl) as [H1 H2].
    apply uint32_ok_iff in E. split; [constructor; assumption|].
    simpl. now rewrite H2.
Qed.

Lemma unpack_words_flat_map (vs : list Z) (rest : bytes) :
  Forall (fun v => 0 <= v < 2 ^ 32) vs ->
  unpack_words (length vs) (flat_map be32 vs ++ rest) = Some vs.
Proof.
  induction 1 as [|v vs Hv _ IH]; [reflexivity|].
  cbn [length flat_map]. unfold be32 at 1. cbn [app unpack_words].
  rewrite IH, of_be32_be32 by assumption. reflexivity.
Qed.

Lemma of_be32_range (a b c d : byte) : 0 <= of_be32 a b c d < 2 ^ 32.
Proof.
  unfold of_be32.
  pose proof (Z_of_byte_range a). pose proof (Z_of_byte_range b).
  pose proof (Z_of_byte_range c). pose proof (Z_of_byte_range d).
  change (2 ^ 24) with 16777216. change (2 ^ 16) with 65536.
  change (2 ^ 8) with 256. change (2 ^ 32) with 4294967296. lia.
Qed.

Lemma unpack_words_length (n : nat) (data : bytes) :
  (4 * n <= length data)%nat ->
  exists vs, unpack_words n data = Some vs /\ length vs = n.
Proof.
  revert data. induction n as [|n IH]; intros data H.
  - exists []. split; reflexivity.
  - destruct data as [|b3 [|b2 [|b1 [|b0 rest]]]]; simpl in H; try lia.
    destruct (IH rest) as [vs [E L]]; [simpl in H; lia|].
    exists (of_be32 b3 b2 b1 b0 :: vs). simpl. rewrite E. simpl.
    split; [reflexivity | now rewrite L].
Qed.

(* ================================================================== *)
(** * Exclusive or on bounded integers *)

Lemma Z_lxor_range (n a b : Z) :
  0 <= n -> 0 <= a < 2 ^ n -> 0 <= b < 2 ^ n -> 0 <= Z.lxor a b < 2 ^ n.
Proof.
  intros Hn Ha Hb.
  assert (H0 : 0 <= Z.lxor a b) by (apply Z.lxor_nonneg; lia).
  split; [exact H0|].
  destruct (Z.eq_dec (Z.lxor a b) 0) as [E|E].
  { rewrite E. apply Z.pow_pos_nonneg; lia. }
  apply Z.log2_lt_pow2; [lia|].
  pose proof (Z.log2_lxor a b ltac:(lia) ltac:(lia)) as Hl.
  assert (Hn0 : 0 < n).
  { destruct (Z.eq_dec n 0) as [->|]; [|lia].
    change (2 ^ 0) with 1 in *. assert (a = 0) by lia. assert (b = 0) by lia.
    subst. now rewrite Z.lxor_0_l in E. }
  assert (Hlog : forall x, 0 <= x < 2 ^ n -> Z.log2 x < n).
  { intros x Hx. destruct (Z.eq_dec x 0) as [->|]; [exact Hn0|].
    apply Z.log2_lt_pow2; lia. }
  pose proof (Hlog a Ha). pose proof (Hlog b Hb). lia.
Qed.

Lemma crc_shift_range (c : Z) :
  0 <= c < 2 ^ 32 -> 0 <= crc_shift c < 2 ^ 32.
Proof.
  intros Hc. unfold crc_shift.
  assert (Hs : 0 <= Z.shiftr c 1 < 2 ^ 32).
  { rewrite Z.shiftr_div_pow2 by lia. change (2 ^ 1) with 2.
    change (2 ^ 32) with 4294967296 in *. Z.div_mod_to_equations. lia. }
  destruct (Z.testbit c 0); [|exact Hs].
  apply Z_lxor_range; [lia | exact Hs | ].
  change (2 ^ 32) with 4294967296. lia.
Qed.

Lemma crc_byte_range (c : Z) (b : byte) :
  0 <= c < 2 ^ 32 -> 0 <= crc_byte c b < 2 ^ 32.
Proof.
  intros Hc. unfold crc_byte.
  assert (H : 0 <= Z.lxor c (Z_of_byte b) < 2 ^ 32).
  { apply Z_lxor_range; [lia | exact Hc |].
    pose proof (Z_of_byte_range b). change (2 ^ 32) with 4294967296. lia. }
  revert H. generalize (Z.lxor c (Z_of_byte b)) as x.
  generalize 8%nat as n. induction n as [|n IH]; intros x Hx; [exact Hx|].
  simpl. apply crc_shift_range. now apply IH.
Qed.

Lemma crc32_range (data : bytes) : 0 <= crc32 data < 2 ^ 32.
Proof.
  unfold crc32. apply Z_lxor_range; [lia | | change (2 ^ 32) with 4294967296; lia].
  assert (H : 0 <= 0xFFFFFFFF < 2 ^ 32) by (change (2 ^ 32) with 4294967296; lia).
  revert H. generalize 0xFFFFFFFF as c.
  induction data as [|b data IH]; intros c Hc; [exact Hc|].
  simpl. apply IH. now apply crc_byte_range.
Qed.

(* ================================================================== *)
(** * Frame codec *)

Lemma unpack_words_app (vs : list Z) (k : nat) (rest : bytes) :
  Forall (fun v => 0 <= v < 2 ^ 32) vs ->
  unpack_words (length vs + k) (flat_map be32 vs ++ rest)
  = option_map (app vs) (unpack_words k rest).
Proof.
  induction 1 as [|v vs Hv _ IH].
  - simpl. destruct (unpack_words k rest); reflexivity.
  - cbn [length flat_map Nat.add]. unfold be32 at 1. cbn [app unpack_words].
    rewrite IH, of_be32_be32 by assumption.
    destruct (unpack_words k rest); reflexivity.
Qed.

Lemma length_flat_map_be32 (vs : list Z) :
  length (flat_map be32 vs) = (4 * length vs)%nat.
Proof. induction vs as [|v vs IH]; simpl; [reflexivity|]. rewrite IH. lia. Qed.

(** The bytes [pack_message] produces, when it produces any. *)
Lemma pack_message_inv (m : TuyaMessage) (data : bytes) :
  pack_message m = Ok data ->
  let header := flat_map be32 [PREFIX_VALUE; seqno m; cmd m; len (payload m) + 8] in
  Forall (fun v => 0 <= v < 2 ^ 32)
    [PREFIX_VALUE; seqno m; cmd m; len (payload m) + 8] /\
  0 <= crc32 (header ++ payload m) < 2 ^ 32 /\
  data = header ++ payload m
         ++ flat_map be32 [crc32 (header ++ payload m); SUFFIX_VALUE].
Proof.
  unfold pack_message. intros H.
  change (calcsize MESSAGE_END_FMT) with 8 in H.
  destruct (struct_pack [PREFIX_VALUE; seqno m; cmd m; len (payload m) + 8])
    as [hd|] eqn:E1; [|discriminate].
  cbn [bind] in H.
  destruct (struct_pack [crc32 (hd ++ payload m); SUFFIX_VALUE])
    as [tl|] eqn:E2; [|discriminate].
  cbn [bind] in H. inversion H; subst data; clear H.
  apply struct_pack_inv in E1. destruct E1 as [F1 ->].
  apply struct_pack_inv in E2. destruct E2 as [F2 ->].
  cbv zeta. split; [exact F1|]. split.
  - now apply Forall_inv in F2.
  - now rewrite <- app_assoc.
Qed.

(** [pack_message] raises nothing when the fields fit. *)
Lemma pack_message_ok (m : TuyaMessage) :
  0 <= seqno m < 2 ^ 32 -> 0 <= cmd m < 2 ^ 32 ->
  len (payload m) + 8 < 2 ^ 32 ->
  exists data, pack_message m = Ok data.
Proof.
  intros Hs Hc Hl. unfold pack_message.
  change (calcsize MESSAGE_END_FMT) with 8.
  pose proof (len_nonneg (payload m)).
  rewrite struct_pack_ok.
  2:{ repeat constructor; try lia; unfold PREFIX_VALUE; lia. }
  cbn [bind]. rewrite struct_pack_ok.
  2:{ constructor; [apply crc32_range|]. constructor; [unfold SUFFIX_VALUE; lia|constructor]. }
  eexists. reflexivity.
Qed.

(** C2 (as amended) : [unpack_message (pack_message m)] reproduces
    the sequence number and the command of [m]; its payload is the
    payload of [m] without its first four bytes, because
    [unpack_message] reads the five-field receive header where
    [pack_message] wrote the four-field send header.  The payload is
    reproduced exactly only when it is empty. *)
Theorem unpack_pack_message (m : TuyaMessage) (data : bytes) :
  pack_message m = Ok data ->
  exists m',
    unpack_message data = Ok m' /\
    seqno m' = seqno m /\
    cmd m' = cmd m /\
    payload m' = skipn 4 (payload m) /\
    (payload m' = payload m <-> payload m = []).
Proof.
  intros H. apply pack_message_inv in H. cbv zeta in H.
  destruct H as (Fhd & Hcrc & ->).
  set (ws := [PREFIX_VALUE; seqno m; cmd m; len (payload m) + 8]) in *.
  set (hd := flat_map be32 ws).
  set (tl := flat_map be32 [crc32 (hd ++ payload m); SUFFIX_VALUE]).
  set (p := payload m).
  assert (Lhd : length hd = 16%nat) by reflexivity.
  assert (Ltl : length tl = 8%nat) by reflexivity.
  assert (Ftl : Forall (fun v => 0 <= v < 2 ^ 32)
                  [crc32 (hd ++ payload m); SUFFIX_VALUE]).
  { repeat constructor; try tauto; unfold SUFFIX_VALUE; lia. }
  unfold unpack_message.
  change (calcsize MESSAGE_RECV_HEADER_FMT) with 20.
  change (calcsize MESSAGE_END_FMT) with 8.
  (* the receive header: the send header and four more bytes *)
  rewrite slice_to_spec by lia. change (Z.to_nat 20) with 20%nat.
  rewrite firstn_app, Lhd. change (20 - 16)%nat with 4%nat.
  rewrite (firstn_all2 (n:=20) hd) by lia.
  assert (L4 : length (firstn 4 (p ++ tl)) = 4%nat).
  { rewrite length_firstn, length_app. lia. }
  unfold struct_unpack at 1.
  replace (len (hd ++ firstn 4 (p ++ tl)) =? calcsize MESSAGE_RECV_HEADER_FMT)
    with true.
  2:{ symmetry. apply Z.eqb_eq. unfold len. rewrite length_app, Lhd, L4.
      reflexivity. }
  change MESSAGE_RECV_HEADER_FMT with (length ws + 1)%nat.
  unfold hd. rewrite unpack_words_app by assumption.
  destruct (unpack_words_length 1 (firstn 4 (p ++ tl)) ltac:(lia))
    as (rc & Erc & Lrc).
  rewrite Erc. destruct rc as [|rc [|? ?]]; try discriminate.
  cbn [option_map app ws bind].
  (* the trailer *)
  rewrite slice_from_neg by lia. change (Z.to_nat 8) with 8%nat.
  fold hd.
  replace (skipn (length (hd ++ p ++ tl) - 8) (hd ++ p ++ tl)) with tl.
  2:{ rewrite app_assoc. rewrite skipn_app.
      replace (length ((hd ++ p) ++ tl) - 8)%nat with (length (hd ++ p)).
      2:{ rewrite !length_app. lia. }
      rewrite skipn_all, Nat.sub_diag. reflexivity. }
  unfold struct_unpack.
  change (len tl =? calcsize MESSAGE_END_FMT) with true. cbv iota.
  change MESSAGE_END_FMT with (length [crc32 (hd ++ payload m); SUFFIX_VALUE] + 0)%nat.
  unfold tl at 1. rewrite <- (app_nil_r (flat_map be32 _)).
  rewrite unpack_words_app by assumption.
  cbn [unpack_words option_map app bind].
  eexists. split; [reflexivity|]. cbn [seqno cmd payload].
  split; [reflexivity|]. split; [reflexivity|].
  (* the payload slice *)
  assert (Hp : slice (hd ++ p ++ tl) 20 (Z.opp 8) = skipn 4 p).
  { rewrite slice_neg_stop by lia.
    change (Z.to_nat 8) with 8%nat. change (Z.to_nat 20) with 20%nat.
    rewrite skipn_app, Lhd. rewrite (skipn_all2 (n:=20) hd) by lia.
    change (20 - 16)%nat with 4%nat. cbn [app].
    rewrite skipn_app, firstn_app, length_skipn, !length_app, Lhd, Ltl.
    replace (16 + (length p + 8) - 8 - 20 - (length p - 4))%nat with 0%nat by lia.
    rewrite firstn_O, app_nil_r. apply firstn_all2.
    rewrite length_skipn. lia. }
  rewrite Hp. split; [reflexivity|].
  split.
  - intros E. apply (f_equal (@length byte)) in E.
    rewrite length_skipn in E. destruct p; [reflexivity|simpl in E; lia].
  - intros ->. reflexivity.
Qed.

(** The theorem at a concrete message. *)
Lemma unpack_pack_message_witness :
  let m := mkTuyaMessage 1 7 0 (b_lit "hello") 0 in
  let data := map byte_of_Z
         [0; 0; 85; 170; 0; 0; 0; 1; 0; 0; 0; 7; 0; 0; 0; 13;
          104; 101; 108; 108; 111; 243; 19; 188; 103; 0; 0; 170; 85] in
  pack_message m = Ok data /\
  exists m',
    unpack_message data = Ok m' /\
    seqno m' = seqno m /\ cmd m' = cmd m /\
    payload m' = skipn 4 (payload m) /\
    (payload m' = payload m <-> payload m = []).
Proof.
  intros m data.
  assert (H : pack_message m = Ok data) by (vm_compute; reflexivity).
  split; [exact H | exact (unpack_pack_message m data H)].
Defined.

(** C2, as stated, fails: the payload [b"hello"] comes back as [b"o"],
    and its first four bytes are read as the return code. *)
Lemma unpack_pack_message_counterexample :
  let m := mkTuyaMessage 1 7 0 (b_lit "hello") 0 in
  (data <- pack_message m ;; unpack_message data)
  = Ok (mkTuyaMessage 1 7 0x68656c6c (b_lit "o") 0xf313bc67)
  /\ b_lit "o" <> payload m.
Proof. split; [vm_compute; reflexivity | discriminate]. Qed.

(** What [unpack_message] does invert is the layout of the frames the
    device sends, with the return code in the header. *)
Lemma unpack_message_recv_frame (m : TuyaMessage) :
  frame_ok m -> unpack_message (recv_frame m) = Ok m.
Proof.
  intros (Hs & Hc & Hr & Hcrc & Hl).
  pose proof (len_nonneg (payload m)) as Hp.
  pose (hd := [PREFIX_VALUE; seqno m; cmd m; len (payload m) + 12; retcode m]).
  pose (tl := [crc m; SUFFIX_VALUE]).
  assert (Fhd : Forall (fun v => 0 <= v < 2 ^ 32) hd).
  { repeat constructor; try lia; unfold PREFIX_VALUE; lia. }
  assert (Ftl : Forall (fun v => 0 <= v < 2 ^ 32) tl).
  { repeat constructor; try lia; unfold SUFFIX_VALUE; lia. }
  assert (Lhd : length (flat_map be32 hd) = 20%nat) by reflexivity.
  assert (Ltl : length (flat_map be32 tl) = 8%nat) by reflexivity.
  assert (Eframe : recv_frame m
                   = flat_map be32 hd ++ payload m ++ flat_map be32 tl)
    by reflexivity.
  assert (Ehead : slice_to (recv_frame m) 20 = flat_map be32 hd).
  { rewrite slice_to_spec by lia. change (Z.to_nat 20) with 20%nat.
    rewrite Eframe, firstn_app, Lhd, Nat.sub_diag, firstn_O, app_nil_r.
    apply firstn_all2. lia. }
  assert (Etail : slice_from (recv_frame m) (- (8)) = flat_map be32 tl).
  { rewrite slice_from_neg by lia. change (Z.to_nat 8) with 8%nat.
    rewrite Eframe, app_assoc.
    replace (length ((flat_map be32 hd ++ payload m) ++ flat_map be32 tl) - 8)%nat
      with (length (flat_map be32 hd ++ payload m))
      by (rewrite !length_app, Ltl; lia).
    now rewrite skipn_app, skipn_all, Nat.sub_diag. }
  assert (Epay : slice (recv_frame m) 20 (- (8)) = payload m).
  { rewrite slice_neg_stop by lia.
    change (Z.to_nat 8) with 8%nat. change (Z.to_nat 20) with 20%nat.
    rewrite Eframe, skipn_app, Lhd. rewrite skipn_all2 by lia.
    cbn [app Nat.sub skipn]. rewrite !length_app, Lhd, Ltl.
    replace (20 + (length (payload m) + 8) - 8 - 20)%nat
      with (length (payload m)) by lia.
    now rewrite firstn_app, firstn_all, Nat.sub_diag, firstn_O, app_nil_r. }
  unfold unpack_message.
  change (calcsize MESSAGE_RECV_HEADER_FMT) with 20.
  change (calcsize MESSAGE_END_FMT) with 8.
  rewrite Ehead, Etail, Epay. unfold struct_unpack.
  change (len (flat_map be32 hd) =? calcsize MESSAGE_RECV_HEADER_FMT) with true.
  change (len (flat_map be32 tl) =? calcsize MESSAGE_END_FMT) with true.
  cbv iota.
  rewrite <- (app_nil_r (flat_map be32 hd)), <- (app_nil_r (flat_map be32 tl)).
  change MESSAGE_RECV_HEADER_FMT with (length hd).
  change MESSAGE_END_FMT with (length tl).
  rewrite !unpack_words_flat_map by assumption.
  unfold hd, tl. cbn [bind]. destruct m; reflexivity.
Qed.

(* ================================================================== *)
(** * base64: decoding undoes encoding *)

Lemma b64_index_char (n : Z) :
  0 <= n < 64 -> b64_index (b64_char n) = Some n.
Proof.
  intros Hn. unfold b64_char, b64_index.
  destruct (n <? 26) eqn:E1; [|destruct (n <? 52) eqn:E2;
    [|destruct (n <? 62) eqn:E3; [|destruct (n =? 62) eqn:E4]]];
    rewrite Z_of_byte_of_Z_small by lia;
    repeat match goal with
           | |- context [if ?c then _ else _] =>
               let E := fresh in destruct c eqn:E; try lia
           end;
    f_equal; lia.
Qed.

Lemma b64_char_not_pad (n : Z) :
  0 <= n < 64 -> Byte.eqb (b64_char n) BASE64_PAD = false.
Proof.
  intros Hn. apply byte_eqb_neq. intros E.
  apply (f_equal Z_of_byte) in E. unfold BASE64_PAD, b64_char in E.
  destruct (n <? 26) eqn:E1; [|destruct (n <? 52) eqn:E2;
    [|destruct (n <? 62) eqn:E3; [|destruct (n =? 62) eqn:E4]]];
    rewrite !Z_of_byte_of_Z_small in E by lia; lia.
Qed.

Lemma pad_is_pad : Byte.eqb BASE64_PAD BASE64_PAD = true.
Proof. apply byte_eqb_refl. Qed.

(** One alphabet character read by the decoder, by position in the
    group of four. *)
Lemma a2b_loop_char0 (n lc p : Z) (out input : bytes) :
  0 <= n < 64 ->
  a2b_loop (b64_char n :: input) (mkB64 0 lc p out)
  = a2b_loop input (mkB64 1 n 0 out).
Proof.
  intros Hn. cbn [a2b_loop].
  now rewrite b64_char_not_pad, b64_index_char by assumption.
Qed.

Lemma a2b_loop_char1 (n lc p : Z) (out input : bytes) :
  0 <= n < 64 ->
  a2b_loop (b64_char n :: input) (mkB64 1 lc p out)
  = a2b_loop input (mkB64 2 (n mod 16) 0 (byte_of_Z (lc * 4 + n / 16) :: out)).
Proof.
  intros Hn. cbn [a2b_loop].
  now rewrite b64_char_not_pad, b64_index_char by assumption.
Qed.

Lemma a2b_loop_char2 (n lc p : Z) (out input : bytes) :
  0 <= n < 64 ->
  a2b_loop (b64_char n :: input) (mkB64 2 lc p out)
  = a2b_loop input (mkB64 3 (n mod 4) 0 (byte_of_Z (lc * 16 + n / 4) :: out)).
Proof.
  intros Hn. cbn [a2b_loop].
  now rewrite b64_char_not_pad, b64_index_char by assumption.
Qed.

Lemma a2b_loop_char3 (n lc p : Z) (out input : bytes) :
  0 <= n < 64 ->
  a2b_loop (b64_char n :: input) (mkB64 3 lc p out)
  = a2b_loop input (mkB64 0 0 0 (byte_of_Z (lc * 64 + n) :: out)).
Proof.
  intros Hn. cbn [a2b_loop].
  now rewrite b64_char_not_pad, b64_index_char by assumption.
Qed.

(** The pad characters that end an encoded text. *)
Lemma a2b_loop_pad_first (lc : Z) (out input : bytes) :
  a2b_loop (BASE64_PAD :: input) (mkB64 2 lc 0 out)
  = a2b_loop input (mkB64 2 lc 1 out).
Proof. cbn [a2b_loop]. now rewrite pad_is_pad. Qed.

Lemma a2b_loop_pad_second (lc : Z) (out input : bytes) :
  a2b_loop (BASE64_PAD :: input) (mkB64 2 lc 1 out) = Ok (rev out).
Proof. cbn [a2b_loop]. now rewrite pad_is_pad. Qed.

Lemma a2b_loop_pad_single (lc : Z) (out input : bytes) :
  a2b_loop (BASE64_PAD :: input) (mkB64 3 lc 0 out) = Ok (rev out).
Proof. cbn [a2b_loop]. now rewrite pad_is_pad. Qed.

Lemma a2b_loop_b64encode (s : bytes) :
  forall out, a2b_loop (b64encode s) (mkB64 0 0 0 out) = Ok (rev out ++ s).
Proof.
  remember (length s) as n eqn:Hn. revert s Hn.
  induction n as [n IH] using lt_wf_ind. intros s Hn out.
  destruct s as [|a [|b [|c rest]]].
  - cbn. now rewrite app_nil_r.
  - pose proof (Z_of_byte_range a) as Ha.
    cbn [b64encode].
    rewrite a2b_loop_char0 by (Z.div_mod_to_equations; lia).
    rewrite a2b_loop_char1 by (Z.div_mod_to_equations; lia).
    rewrite a2b_loop_pad_first, a2b_loop_pad_second.
    replace (Z_of_byte a / 4 * 4 + Z_of_byte a mod 4 * 16 / 16)
      with (Z_of_byte a) by (Z.div_mod_to_equations; lia).
    rewrite byte_of_Z_of_byte. reflexivity.
  - pose proof (Z_of_byte_range a) as Ha. pose proof (Z_of_byte_range b) as Hb.
    cbn [b64encode].
    rewrite a2b_loop_char0 by (Z.div_mod_to_equations; lia).
    rewrite a2b_loop_char1 by (Z.div_mod_to_equations; lia).
    rewrite a2b_loop_char2 by (Z.div_mod_to_equations; lia).
    rewrite a2b_loop_pad_single.
    replace (Z_of_byte a / 4 * 4 + (Z_of_byte a mod 4 * 16 + Z_of_byte b / 16) / 16)
      with (Z_of_byte a) by (Z.div_mod_to_equations; lia).
    replace ((Z_of_byte a mod 4 * 16 + Z_of_byte b / 16) mod 16 * 16
             + Z_of_byte b mod 16 * 4 / 4)
      with (Z_of_byte b) by (Z.div_mod_to_equations; lia).
    rewrite !byte_of_Z_of_byte. cbn [rev]. now rewrite <- !app_assoc.
  - pose proof (Z_of_byte_range a) as Ha. pose proof (Z_of_byte_range b) as Hb.
    pose proof (Z_of_byte_range c) as Hc.
    cbn [b64encode].
    rewrite a2b_loop_char0 by (Z.div_mod_to_equations; lia).
    rewrite a2b_loop_char1 by (Z.div_mod_to_equations; lia).
    rewrite a2b_loop_char2 by (Z.div_mod_to_equations; lia).
    rewrite a2b_loop_char3 by (Z.div_mod_to_equations; lia).
    rewrite (IH (length rest)); [|subst n; simpl; lia|reflexivity].
    replace (Z_of_byte a / 4 * 4 + (Z_of_byte a mod 4 * 16 + Z_of_byte b / 16) / 16)
      with (Z_of_byte a) by (Z.div_mod_to_equations; lia).
    replace ((Z_of_byte a mod 4 * 16 + Z_of_byte b / 16) mod 16 * 16
             + (Z_of_byte b mod 16 * 4 + Z_of_byte c / 64) / 4)
      with (Z_of_byte b) by (Z.div_mod_to_equations; lia).
    replace ((Z_of_byte b mod 16 * 4 + Z_of_byte c / 64) mod 4 * 64
             + Z_of_byte c mod 64)
      with (Z_of_byte c) by (Z.div_mod_to_equations; lia).
    rewrite !byte_of_Z_of_byte. cbn [rev]. now rewrite <- !app_assoc.
Qed.

Lemma b64decode_b64encode (s : bytes) : b64decode (b64encode s) = Ok s.
Proof. unfold b64decode. now rewrite a2b_loop_b64encode. Qed.

(** The encoded length: four characters per started group of three
    bytes. *)
Lemma length_b64encode (s : bytes) :
  length (b64encode s) = (4 * ((length s + 2) / 3))%nat.
Proof.
  remember (length s) as n eqn:Hn. revert s Hn.
  induction n as [n IH] using lt_wf_ind. intros s Hn.
  destruct s as [|a [|b [|c rest]]]; subst n; try reflexivity.
  cbn [b64encode length].
  rewrite (IH (length rest)); [|simpl; lia|reflexivity].
  replace (S (S (S (length rest))) + 2)%nat with (1 * 3 + (length rest + 2))%nat by lia.
  rewrite Nat.div_add_l by lia. lia.
Qed.

(* ================================================================== *)
(** * AES: the inverse cipher undoes the cipher *)

(** ** Exhaustive checks over bytes *)

Lemma all_bytes_complete (b : byte) : existsb (Byte.eqb b) all_bytes = true.
Proof. destruct b; vm_compute; reflexivity. Qed.

Lemma forall_bytes (P : byte -> bool) :
  forallb P all_bytes = true -> forall b, P b = true.
Proof.
  intros H b. rewrite forallb_forall in H. apply H.
  pose proof (all_bytes_complete b) as E. apply existsb_exists in E.
  destruct E as (x & Hx & E). apply byte_eqb_eq in E. now subst.
Qed.

Lemma forall_bytes2 (P : byte -> byte -> bool) :
  forallb (fun a => forallb (P a) all_bytes) all_bytes = true ->
  forall a b, P a b = true.
Proof.
  intros H a b.
  apply (forall_bytes (P a)).
  apply (forall_bytes (fun a => forallb (P a) all_bytes) H).
Qed.

Ltac by_bytes :=
  match goal with
  | |- forall a b : byte, @eq byte (@?f a b) (@?g a b) =>
      intros a b; apply byte_eqb_eq;
      revert a b;
      apply (forall_bytes2 (fun a b => Byte.eqb (f a b) (g a b)));
      vm_compute; reflexivity
  | |- forall a : byte, @eq byte (@?f a) (@?g a) =>
      intros a; apply byte_eqb_eq;
      revert a;
      apply (forall_bytes (fun a => Byte.eqb (f a) (g a)));
      vm_compute; reflexivity
  end.

(** ** SubBytes *)

Lemma inv_sbox_sbox : forall a : byte, inv_sbox (sbox a) = a.
Proof. by_bytes. Qed.

Lemma sbox_inv_sbox : forall a : byte, sbox (inv_sbox a) = a.
Proof. by_bytes. Qed.

Lemma inv_sub_bytes_sub_bytes (s : block) : inv_sub_bytes (sub_bytes s) = s.
Proof.
  destruct s as [[[[[[a0 a1] a2] a3] [[[b0 b1] b2] b3]]
                  [[[c0 c1] c2] c3]] [[[d0 d1] d2] d3]].
  unfold inv_sub_bytes, sub_bytes, map_block, map_word.
  now rewrite !inv_sbox_sbox.
Qed.

(** ** ShiftRows *)

Lemma inv_shift_rows_shift_rows (s : block) :
  inv_shift_rows (shift_rows s) = s.
Proof.
  destruct s as [[[[[[a0 a1] a2] a3] [[[b0 b1] b2] b3]]
                  [[[c0 c1] c2] c3]] [[[d0 d1] d2] d3]].
  reflexivity.
Qed.

(** ** Exclusive or of bytes *)

Lemma Z_of_byte_bxor (a b : byte) :
  Z_of_byte (bxor a b) = Z.lxor (Z_of_byte a) (Z_of_byte b).
Proof.
  unfold bxor. apply Z_of_byte_of_Z_small.
  pose proof (Z_of_byte_range a). pose proof (Z_of_byte_range b).
  change 256 with (2 ^ 8) in *. apply Z_lxor_range; lia.
Qed.

Lemma bxor_comm (a b : byte) : bxor a b = bxor b a.
Proof. apply Z_of_byte_inj. rewrite !Z_of_byte_bxor. apply Z.lxor_comm. Qed.

Lemma bxor_assoc (a b c : byte) : bxor a (bxor b c) = bxor (bxor a b) c.
Proof.
  apply Z_of_byte_inj. rewrite !Z_of_byte_bxor. symmetry. apply Z.lxor_assoc.
Qed.

Lemma bxor_nilpotent (a : byte) : bxor a a = x00.
Proof.
  apply Z_of_byte_inj. rewrite Z_of_byte_bxor. apply Z.lxor_nilpotent.
Qed.

Lemma bxor_0_l (a : byte) : bxor x00 a = a.
Proof. apply Z_of_byte_inj. rewrite Z_of_byte_bxor. apply Z.lxor_0_l. Qed.

Lemma bxor_0_r (a : byte) : bxor a x00 = a.
Proof. rewrite bxor_comm. apply bxor_0_l. Qed.

Lemma bxor_cancel_r (a k : byte) : bxor (bxor a k) k = a.
Proof. now rewrite <- bxor_assoc, bxor_nilpotent, bxor_0_r. Qed.

#[local] Instance bxor_Associative : Associative eq bxor.
Proof. intros a b c. apply bxor_assoc. Qed.

#[local] Instance bxor_Commutative : Commutative eq bxor.
Proof. intros a b. apply bxor_comm. Qed.

#[local] Instance bxor_Unit : Unit eq bxor x00.
Proof. split; intros a; [apply bxor_0_l | apply bxor_0_r]. Qed.

(** ** AddRoundKey *)

Lemma xor_word_cancel (w k : word) : xor_word (xor_word w k) k = w.
Proof.
  destruct w as [[[a b] c] d], k as [[[a' b'] c'] d'].
  unfold xor_word. now rewrite !bxor_cancel_r.
Qed.

Lemma add_round_key_cancel (s rk : block) :
  add_round_key (add_round_key s rk) rk = s.
Proof.
  destruct s as [[[c0 c1] c2] c3], rk as [[[k0 k1] k2] k3].
  unfold add_round_key. now rewrite !xor_word_cancel.
Qed.

(** ** MixColumns: linearity, then the four unit directions *)

Lemma xtime_linear : forall a b, xtime (bxor a b) = bxor (xtime a) (xtime b).
Proof. by_bytes. Qed.

(** Regrouping of exclusive ors, on variables only. *)
Lemma bxor_swap2 (x1 x2 y1 y2 : byte) :
  bxor (bxor x1 y1) (bxor x2 y2) = bxor (bxor x1 x2) (bxor y1 y2).
Proof. aac_reflexivity. Qed.

Lemma bxor_swap3 (x1 x2 x3 y1 y2 y3 : byte) :
  bxor (bxor x1 y1) (bxor (bxor x2 y2) (bxor x3 y3))
  = bxor (bxor x1 (bxor x2 x3)) (bxor y1 (bxor y2 y3)).
Proof. aac_reflexivity. Qed.

Lemma bxor_swap4 (x1 x2 x3 x4 y1 y2 y3 y4 : byte) :
  bxor (bxor x1 y1) (bxor (bxor x2 y2) (bxor (bxor x3 y3) (bxor x4 y4)))
  = bxor (bxor x1 (bxor x2 (bxor x3 x4))) (bxor y1 (bxor y2 (bxor y3 y4))).
Proof. aac_reflexivity. Qed.

Lemma gmul2_linear a b : gmul2 (bxor a b) = bxor (gmul2 a) (gmul2 b).
Proof. apply xtime_linear. Qed.

Lemma gmul3_linear a b : gmul3 (bxor a b) = bxor (gmul3 a) (gmul3 b).
Proof. unfold gmul3. rewrite xtime_linear. apply bxor_swap2. Qed.

Lemma gmul9_linear a b : gmul9 (bxor a b) = bxor (gmul9 a) (gmul9 b).
Proof. unfold gmul9. rewrite !xtime_linear. apply bxor_swap2. Qed.

Lemma gmul11_linear a b : gmul11 (bxor a b) = bxor (gmul11 a) (gmul11 b).
Proof. unfold gmul11. rewrite !xtime_linear. apply bxor_swap3. Qed.

Lemma gmul13_linear a b : gmul13 (bxor a b) = bxor (gmul13 a) (gmul13 b).
Proof. unfold gmul13. rewrite !xtime_linear. apply bxor_swap3. Qed.

Lemma gmul14_linear a b : gmul14 (bxor a b) = bxor (gmul14 a) (gmul14 b).
Proof. unfold gmul14. rewrite !xtime_linear. apply bxor_swap3. Qed.

Lemma word_eq (a b c d a' b' c' d' : byte) :
  a = a' -> b = b' -> c = c' -> d = d' -> (a, b, c, d) = (a', b', c', d').
Proof. now intros -> -> -> ->. Qed.

Lemma mix_column_linear (u v : word) :
  mix_column (xor_word u v) = xor_word (mix_column u) (mix_column v).
Proof.
  destruct u as [[[a b] c] d], v as [[[a' b'] c'] d'].
  unfold mix_column, xor_word.
  apply word_eq;
    repeat match goal with
           | |- context [gmul2 (bxor ?x ?y)] => rewrite (gmul2_linear x y)
           | |- context [gmul3 (bxor ?x ?y)] => rewrite (gmul3_linear x y)
           end;
    apply bxor_swap4.
Qed.

Lemma inv_mix_column_linear (u v : word) :
  inv_mix_column (xor_word u v)
  = xor_word (inv_mix_column u) (inv_mix_column v).
Proof.
  destruct u as [[[a b] c] d], v as [[[a' b'] c'] d'].
  unfold inv_mix_column, xor_word.
  apply word_eq;
    repeat match goal with
           | |- context [gmul9 (bxor ?x ?y)] => rewrite (gmul9_linear x y)
           | |- context [gmul11 (bxor ?x ?y)] => rewrite (gmul11_linear x y)
           | |- context [gmul13 (bxor ?x ?y)] => rewrite (gmul13_linear x y)
           | |- context [gmul14 (bxor ?x ?y)] => rewrite (gmul14_linear x y)
           end;
    apply bxor_swap4.
Qed.

Lemma word_eqb_eq (u v : word) : word_eqb u v = true -> u = v.
Proof.
  destruct u as [[[a b] c] d], v as [[[a' b'] c'] d']. unfold word_eqb.
  rewrite !andb_true_iff, !byte_eqb_eq. intros [[[-> ->] ->] ->]. reflexivity.
Qed.

Lemma unmix_unit (e : byte -> word) :
  forallb (fun a => word_eqb (inv_mix_column (mix_column (e a))) (e a))
    all_bytes = true ->
  forall a, inv_mix_column (mix_column (e a)) = e a.
Proof.
  intros H a. apply word_eqb_eq.
  apply (forall_bytes
           (fun a => word_eqb (inv_mix_column (mix_column (e a))) (e a)) H).
Qed.

Lemma word_decompose (a b c d : byte) :
  (a, b, c, d)
  = xor_word (xor_word (a, x00, x00, x00) (x00, b, x00, x00))
             (xor_word (x00, x00, c, x00) (x00, x00, x00, d)).
Proof. unfold xor_word. now rewrite !bxor_0_l, !bxor_0_r. Qed.

Lemma inv_mix_column_mix_column (w : word) :
  inv_mix_column (mix_column w) = w.
Proof.
  destruct w as [[[a b] c] d].
  rewrite (word_decompose a b c d) at 1.
  rewrite !mix_column_linear, !inv_mix_column_linear.
  rewrite (unmix_unit (fun a => (a, x00, x00, x00))) by (vm_compute; reflexivity).
  rewrite (unmix_unit (fun b => (x00, b, x00, x00))) by (vm_compute; reflexivity).
  rewrite (unmix_unit (fun c => (x00, x00, c, x00))) by (vm_compute; reflexivity).
  rewrite (unmix_unit (fun d => (x00, x00, x00, d))) by (vm_compute; reflexivity).
  symmetry. apply word_decompose.
Qed.

Lemma inv_mix_columns_mix_columns (s : block) :
  inv_mix_columns (mix_columns s) = s.
Proof.
  destruct s as [[[c0 c1] c2] c3].
  unfold inv_mix_columns, mix_columns, map_block.
  now rewrite !inv_mix_column_mix_column.
Qed.

(** ** The rounds *)

Lemma inv_cipher_rounds_cipher_rounds (rks : list block) (s : block) :
  inv_cipher_rounds rks (cipher_rounds rks s) = s.
Proof.
  revert s. induction rks as [|rk rest IH]; intros s; [reflexivity|].
  destruct rest as [|rk' rest].
  - cbn [cipher_rounds inv_cipher_rounds].
    now rewrite add_round_key_cancel, inv_shift_rows_shift_rows,
      inv_sub_bytes_sub_bytes.
  - change (inv_cipher_rounds (rk :: rk' :: rest)
              (cipher_rounds (rk :: rk' :: rest) s))
      with (inv_sub_bytes (inv_shift_rows (inv_mix_columns
              (add_round_key
                 (inv_cipher_rounds (rk' :: rest)
                    (cipher_rounds (rk' :: rest)
                       (add_round_key
                          (mix_columns (shift_rows (sub_bytes s))) rk)))
                 rk)))).
    now rewrite IH, add_round_key_cancel, inv_mix_columns_mix_columns,
      inv_shift_rows_shift_rows, inv_sub_bytes_sub_bytes.
Qed.

Lemma inv_cipher_cipher (rks : list block) (s : block) :
  inv_cipher rks (cipher rks s) = s.
Proof.
  destruct rks as [|rk0 rest]; [reflexivity|].
  unfold inv_cipher, cipher.
  now rewrite inv_cipher_rounds_cipher_rounds, add_round_key_cancel.
Qed.

(** ** ECB over whole blocks *)

Lemma blocks_of_bytes_of_blocks (bs : list block) :
  blocks_of_bytes (bytes_of_blocks bs) = Some bs.
Proof.
  induction bs as [|b bs IH]; [reflexivity|].
  destruct b as [[[[[[a0 a1] a2] a3] [[[b0 b1] b2] b3]]
                  [[[c0 c1] c2] c3]] [[[d0 d1] d2] d3]].
  unfold bytes_of_blocks in *. cbn [map concat bytes_of_block bytes_of_word app].
  cbn [blocks_of_bytes]. now rewrite IH.
Qed.

Lemma length_bytes_of_blocks (bs : list block) :
  length (bytes_of_blocks bs) = (16 * length bs)%nat.
Proof.
  induction bs as [|b bs IH]; [reflexivity|].
  destruct b as [[[[[[a0 a1] a2] a3] [[[b0 b1] b2] b3]]
                  [[[c0 c1] c2] c3]] [[[d0 d1] d2] d3]].
  unfold bytes_of_blocks in *. cbn [map concat bytes_of_block bytes_of_word app length].
  rewrite IH. lia.
Qed.

Lemma blocks_of_bytes_total (n : nat) (l : bytes) :
  length l = (16 * n)%nat ->
  exists bs, blocks_of_bytes l = Some bs /\ bytes_of_blocks bs = l
             /\ length bs = n.
Proof.
  revert l. induction n as [|n IH]; intros l H.
  - destruct l; [|discriminate]. exists []. repeat split.
  - do 16 (destruct l as [|? l]; [simpl in H; lia|]).
    destruct (IH l) as (bs & E & B & L); [simpl in H; lia|].
    eexists. cbn [blocks_of_bytes]. rewrite E. cbn [option_map].
    split; [reflexivity|]. split.
    + unfold bytes_of_blocks in *. cbn [map concat bytes_of_block bytes_of_word app].
      now rewrite B.
    + simpl. now rewrite L.
Qed.

Lemma blocks_of_bytes_inv (l : bytes) (bs : list block) :
  blocks_of_bytes l = Some bs -> bytes_of_blocks bs = l.
Proof.
  remember (length l) as n eqn:Hn. revert l bs Hn.
  induction n as [n IH] using lt_wf_ind. intros l bs Hn H.
  destruct l as [|x0 l]; [inversion H; reflexivity|].
  do 15 (destruct l as [|? l]; [discriminate|]).
  cbn [blocks_of_bytes] in H.
  destruct (blocks_of_bytes l) as [bs'|] eqn:E; [|discriminate].
  cbn [option_map] in H. inversion H; subst bs; clear H.
  unfold bytes_of_blocks. cbn [map concat bytes_of_block bytes_of_word app].
  do 16 f_equal. apply (IH (length l)); [subst n; simpl; lia|reflexivity|exact E].
Qed.

Lemma ecb_encrypt_ok (c : Cipher) (n : nat) (data : bytes) :
  length data = (16 * n)%nat ->
  exists out, ecb_encrypt c data = Ok out /\ length out = length data.
Proof.
  intros H. destruct (blocks_of_bytes_total n data H) as (bs & E & B & L).
  unfold ecb_encrypt. rewrite E. eexists. split; [reflexivity|].
  rewrite length_bytes_of_blocks, length_map, L. lia.
Qed.

Lemma ecb_decrypt_encrypt (c : Cipher) (data out : bytes) :
  ecb_encrypt c data = Ok out -> ecb_decrypt c out = Ok data.
Proof.
  unfold ecb_encrypt, ecb_decrypt.
  destruct (blocks_of_bytes data) as [bs|] eqn:E; [|discriminate].
  intros H. inversion H; subst out; clear H.
  rewrite blocks_of_bytes_of_blocks, map_map.
  rewrite (map_ext _ (fun b => b)) by (intros b; apply inv_cipher_cipher).
  rewrite map_id. f_equal. now apply blocks_of_bytes_inv.
Qed.

(* ================================================================== *)
(** * UTF-8: a decoded text encodes back to the bytes it came from *)

Ltac split_bools :=
  repeat match goal with
         | H : _ && _ = true |- _ => apply andb_true_iff in H; destruct H
         | H : negb _ = true |- _ => apply negb_true_iff in H
         | H : _ && _ = false |- _ => apply andb_false_iff in H
         | H : (_ <=? _) = true |- _ => apply Z.leb_le in H
         | H : (_ <=? _) = false |- _ => apply Z.leb_gt in H
         | H : (_ <? _) = true |- _ => apply Z.ltb_lt in H
         | H : (_ <? _) = false |- _ => apply Z.ltb_ge in H
         | H : (_ =? _) = true |- _ => apply Z.eqb_eq in H
         | H : (_ =? _) = false |- _ => apply Z.eqb_neq in H
         | H : is_cont _ = true |- _ => unfold is_cont in H
         end.

Ltac decide_tests :=
  repeat match goal with
         | |- context [?a <? ?b] =>
             first [ replace (a <? b) with true by (symmetry; apply Z.ltb_lt; lia)
                   | replace (a <? b) with false by (symmetry; apply Z.ltb_ge; lia) ]
         | |- context [?a <=? ?b] =>
             first [ replace (a <=? b) with true by (symmetry; apply Z.leb_le; lia)
                   | replace (a <=? b) with false by (symmetry; apply Z.leb_gt; lia) ]
         end; cbn [orb andb negb].

Lemma byte_of_Z_eq (b : byte) (z : Z) : z = Z_of_byte b -> byte_of_Z z = b.
Proof. intros ->. apply byte_of_Z_of_byte. Qed.

Lemma utf8_encode_decode (p : bytes) :
  forall s, utf8_decode p = Ok s -> utf8_encode s = Ok p.
Proof.
  remember (length p) as n eqn:Hn. revert p Hn.
  induction n as [n IH] using lt_wf_ind. intros p Hn s H.
  destruct p as [|b0 r0]; [inversion H; reflexivity|].
  pose proof (Z_of_byte_range b0) as R0.
  cbn [utf8_decode] in H. cbv zeta in H.
  destruct (Z_of_byte b0 <? 128) eqn:T0.
  { destruct (utf8_decode r0) as [rest|] eqn:E; [|discriminate].
    cbn [bind] in H. inversion H; subst s; clear H.
    cbn [utf8_encode]. unfold utf8_encode_char. split_bools. decide_tests.
    cbn [bind]. rewrite (IH (length r0)) with (p := r0) (s := rest);
      [|subst n; simpl; lia|reflexivity|exact E].
    cbn [bind app]. now rewrite byte_of_Z_of_byte. }
  destruct r0 as [|b1 r1]; [discriminate|].
  pose proof (Z_of_byte_range b1) as R1.
  destruct ((194 <=? Z_of_byte b0) && (Z_of_byte b0 <=? 223)) eqn:T1.
  { destruct (is_cont b1) eqn:C1; [|discriminate].
    destruct (utf8_decode r1) as [rest|] eqn:E; [|discriminate].
    cbn [bind] in H. inversion H; subst s; clear H.
    cbn [utf8_encode]. unfold utf8_encode_char, cont_bits. split_bools.
    decide_tests. cbn [bind].
    rewrite (IH (length r1)) with (p := r1) (s := rest);
      [|subst n; simpl; lia|reflexivity|exact E].
    cbn [bind app]. f_equal. f_equal; [|f_equal];
      apply byte_of_Z_eq; Z.div_mod_to_equations; lia. }
  destruct r1 as [|b2 r2]; [discriminate|].
  pose proof (Z_of_byte_range b2) as R2.
  destruct ((224 <=? Z_of_byte b0) && (Z_of_byte b0 <=? 239)) eqn:T2.
  { match type of H with (if ?c then _ else _) = _ =>
      destruct c eqn:C; [|discriminate] end.
    destruct (utf8_decode r2) as [rest|] eqn:E; [|discriminate].
    cbn [bind] in H. inversion H; subst s; clear H.
    cbn [utf8_encode]. unfold utf8_encode_char, cont_bits. split_bools.
    assert (Hsur : ~ (55296 <= (Z_of_byte b0 - 224) * 4096
                       + (Z_of_byte b1 - 128) * 64 + (Z_of_byte b2 - 128) <= 57343)).
    { repeat match goal with H : _ \/ _ |- _ => destruct H end;
        split_bools; lia. }
    assert (Hlow : 2048 <= (Z_of_byte b0 - 224) * 4096
                       + (Z_of_byte b1 - 128) * 64 + (Z_of_byte b2 - 128)).
    { repeat match goal with H : _ \/ _ |- _ => destruct H end;
        split_bools; lia. }
    replace ((55296 <=? (Z_of_byte b0 - 224) * 4096
                       + (Z_of_byte b1 - 128) * 64 + (Z_of_byte b2 - 128))
             && ((Z_of_byte b0 - 224) * 4096
                       + (Z_of_byte b1 - 128) * 64 + (Z_of_byte b2 - 128) <=? 57343))
      with false.
    2:{ symmetry. apply andb_false_iff. rewrite Z.leb_gt, Z.leb_gt. lia. }
    decide_tests. cbn [bind].
    rewrite (IH (length r2)) with (p := r2) (s := rest);
      [|subst n; simpl; lia|reflexivity|exact E].
    cbn [bind app]. f_equal. f_equal; [|f_equal; [|f_equal]];
      apply byte_of_Z_eq; Z.div_mod_to_equations; lia. }
  destruct r2 as [|b3 r3]; [discriminate|].
  pose proof (Z_of_byte_range b3) as R3.
  destruct ((240 <=? Z_of_byte b0) && (Z_of_byte b0 <=? 244)) eqn:T3;
    [|discriminate].
  match type of H with (if ?c then _ else _) = _ =>
    destruct c eqn:C; [|discriminate] end.
  destruct (utf8_decode r3) as [rest|] eqn:E; [|discriminate].
  cbn [bind] in H. inversion H; subst s; clear H.
  cbn [utf8_encode]. unfold utf8_encode_char, cont_bits. split_bools.
  assert (Hhigh : 65536 <= (Z_of_byte b0 - 240) * 262144
                     + (Z_of_byte b1 - 128) * 4096
                     + (Z_of_byte b2 - 128) * 64 + (Z_of_byte b3 - 128)
                  <= 1114111).
  { repeat match goal with H : _ \/ _ |- _ => destruct H end;
      split_bools; lia. }
  replace ((55296 <=? (Z_of_byte b0 - 240) * 262144
                     + (Z_of_byte b1 - 128) * 4096
                     + (Z_of_byte b2 - 128) * 64 + (Z_of_byte b3 - 128))
           && ((Z_of_byte b0 - 240) * 262144
                     + (Z_of_byte b1 - 128) * 4096
                     + (Z_of_byte b2 - 128) * 64 + (Z_of_byte b3 - 128) <=? 57343))
    with false.
  2:{ symmetry. apply andb_false_iff. rewrite Z.leb_gt, Z.leb_gt. lia. }
  decide_tests. cbn [bind].
  rewrite (IH (length r3)) with (p := r3) (s := rest);
    [|subst n; simpl; lia|reflexivity|exact E].
  cbn [bind app]. f_equal. f_equal; [|f_equal; [|f_equal; [|f_equal]]];
    apply byte_of_Z_eq; Z.div_mod_to_equations; lia.
Qed.

Lemma utf8_decode_error (p : bytes) (e : exn) :
  utf8_decode p = Raise e -> e = UnicodeDecodeError.
Proof.
  remember (length p) as n eqn:Hn. revert p Hn.
  induction n as [n IH] using lt_wf_ind. intros p Hn H.
  assert (Hrec : forall (r : bytes) (f : str -> result str),
            (length r < n)%nat ->
            (forall x, f x <> Raise e) ->
            (rest <- utf8_decode r ;; f rest) = Raise e ->
            e = UnicodeDecodeError).
  { intros r f Hr Hf Hb. destruct (utf8_decode r) as [rest|e'] eqn:E.
    - cbn [bind] in Hb. now apply Hf in Hb.
    - cbn [bind] in Hb. inversion Hb; subst e'.
      now apply (IH (length r) Hr r eq_refl). }
  destruct p as [|b0 r0]; [discriminate|].
  cbn [utf8_decode] in H. cbv zeta in H.
  repeat match type of H with
         | (if ?c then _ else _) = _ => destruct c
         | match ?l with [] => _ | _ :: _ => _ end = _ => destruct l
         | Raise _ = Raise _ => inversion H; reflexivity
         | bind (utf8_decode ?r) ?f = _ =>
             apply (Hrec r f); [subst n; simpl; lia|discriminate|exact H]
         end.
Qed.

(* ================================================================== *)
(** * [AESCipher]: padding and round trips *)

Lemma AESCipher_init_inv (key : bytes) (self : AESCipher.t) :
  AESCipher.init key = Ok self -> AESCipher.bs self = 16.
Proof.
  unfold AESCipher.init. destruct (Cipher_AES_ECB key); [|discriminate].
  cbn [bind]. intros H. inversion H. reflexivity.
Qed.

Lemma AESCipher_init_ok (key : bytes) :
  len key = 16 \/ len key = 24 \/ len key = 32 ->
  exists self, AESCipher.init key = Ok self.
Proof.
  intros H. unfold AESCipher.init, Cipher_AES_ECB.
  replace ((len key =? 16) || (len key =? 24) || (len key =? 32)) with true.
  - eexists. reflexivity.
  - symmetry. rewrite !orb_true_iff, !Z.eqb_eq. tauto.
Qed.

Lemma bytes_mul_single (n : Z) (b : byte) :
  bytes_mul n [b] = repeat b (Z.to_nat n).
Proof.
  unfold bytes_mul. induction (Z.to_nat n) as [|k IH]; [reflexivity|].
  simpl. now rewrite IH.
Qed.

Lemma padnum_range (s : bytes) : 1 <= padnum_of s <= 16.
Proof. unfold padnum_of. Z.div_mod_to_equations. lia. Qed.

Lemma pad_spec (self : AESCipher.t) (s : bytes) :
  AESCipher.bs self = 16 ->
  AESCipher._pad self s
  = Ok (s ++ repeat (byte_of_Z (padnum_of s)) (Z.to_nat (padnum_of s))).
Proof.
  intros Hbs. unfold AESCipher._pad. rewrite Hbs. fold (padnum_of s).
  pose proof (padnum_range s) as Hr.
  cbn [utf8_encode]. unfold utf8_encode_char.
  replace ((padnum_of s <? 0) || (1114111 <? padnum_of s)) with false
    by (symmetry; apply orb_false_iff; split; [apply Z.ltb_ge|apply Z.ltb_ge]; lia).
  replace (padnum_of s <? 128) with true by (symmetry; apply Z.ltb_lt; lia).
  cbn [bind app]. now rewrite bytes_mul_single.
Qed.

Lemma length_padded (s : bytes) :
  length (s ++ repeat (byte_of_Z (padnum_of s)) (Z.to_nat (padnum_of s)))
  = (16 * Z.to_nat ((len s + padnum_of s) / 16))%nat.
Proof.
  rewrite length_app, repeat_length. pose proof (padnum_range s) as Hr.
  unfold padnum_of, len in *. Z.div_mod_to_equations. lia.
Qed.

Lemma unpad_pad (s : bytes) (n : Z) :
  1 <= n < 256 ->
  AESCipher._unpad (s ++ repeat (byte_of_Z n) (Z.to_nat n)) = Ok s.
Proof.
  intros Hn. unfold AESCipher._unpad.
  set (p := repeat (byte_of_Z n) (Z.to_nat n)).
  assert (Lp : length p = Z.to_nat n) by apply repeat_length.
  assert (Ep : p = repeat (byte_of_Z n) (Z.to_nat n - 1) ++ [byte_of_Z n]).
  { unfold p. replace (Z.to_nat n) with (Z.to_nat n - 1 + 1)%nat at 1 by lia.
    now rewrite repeat_app. }
  rewrite slice_from_spec.
  2:{ unfold len. rewrite length_app. lia. }
  replace (skipn (Z.to_nat (len (s ++ p) - 1)) (s ++ p)) with [byte_of_Z n].
  2:{ rewrite Ep at 2. rewrite app_assoc, skipn_app.
      replace (Z.to_nat (len (s ++ p) - 1))
        with (length (s ++ repeat (byte_of_Z n) (Z.to_nat n - 1))).
      2:{ unfold len. rewrite !length_app, repeat_length, Lp. lia. }
      rewrite skipn_all, Nat.sub_diag. reflexivity. }
  cbn [AESCipher.ord bind]. rewrite Z_of_byte_of_Z_small by lia.
  rewrite slice_to_neg by lia. rewrite length_app, Lp.
  replace (length s + Z.to_nat n - Z.to_nat n)%nat with (length s) by lia.
  rewrite firstn_app, Nat.sub_diag, firstn_all. cbn. now rewrite app_nil_r.
Qed.

Lemma encrypt_spec (self : AESCipher.t) (s : bytes) (use_base64 : bool) :
  AESCipher.bs self = 16 ->
  exists crypted,
    ecb_encrypt (AESCipher.cipher self)
      (s ++ repeat (byte_of_Z (padnum_of s)) (Z.to_nat (padnum_of s)))
    = Ok crypted /\
    len crypted = len s + padnum_of s /\
    AESCipher.encrypt self s use_base64
    = Ok (if use_base64 then b64encode crypted else crypted).
Proof.
  intros Hbs. unfold AESCipher.encrypt. rewrite pad_spec by assumption.
  cbn [bind].
  destruct (ecb_encrypt_ok (AESCipher.cipher self) _ _ (length_padded s))
    as (out & E & L).
  exists out. rewrite E. cbn [bind]. repeat split.
  unfold len. rewrite L, length_app, repeat_length.
  pose proof (padnum_range s). lia.
Qed.

(** C7 (as amended) : the pad count is [16 - len mod 16], between 1 and
    16; the output of [encrypt] without base64 is as long as the input
    plus the pad count, a multiple of 16; with base64 (the default) it
    is four characters for each started group of three of those bytes;
    and [_unpad] gives back exactly what was padded, whatever its
    length. *)
Theorem padding_law (key : bytes) (self : AESCipher.t) (s : bytes) :
  AESCipher.init key = Ok self ->
  let padnum := 16 - len s mod 16 in
  let padded := s ++ repeat (byte_of_Z padnum) (Z.to_nat padnum) in
  1 <= padnum <= 16 /\
  AESCipher._pad self s = Ok padded /\
  (exists out, AESCipher.encrypt self s false = Ok out /\
               len out = len s + padnum /\ len out mod 16 = 0) /\
  (exists out, AESCipher.encrypt self s true = Ok out /\
               len out = 4 * ((len s + padnum + 2) / 3)) /\
  AESCipher._unpad padded = Ok s.
Proof.
  intros Hinit. apply AESCipher_init_inv in Hinit.
  cbv zeta. fold (padnum_of s). pose proof (padnum_range s) as Hr.
  split; [exact Hr|]. split; [now apply pad_spec|].
  split; [|split].
  - destruct (encrypt_spec self s false Hinit) as (out & _ & L & E).
    exists out. repeat split; try assumption.
    rewrite L. unfold padnum_of. Z.div_mod_to_equations. lia.
  - destruct (encrypt_spec self s true Hinit) as (out & _ & L & E).
    eexists. split; [exact E|].
    unfold len in *. rewrite length_b64encode.
    rewrite Nat2Z.inj_mul, Nat2Z.inj_div, Nat2Z.inj_add, L. reflexivity.
  - apply unpad_pad. lia.
Qed.

(** C6 (as amended) : for a 16-byte key, [encrypt p] raises nothing and
    [decrypt (encrypt p)] is the UTF-8 decoding [p.decode()] of [p], in
    both variants: the [str] whose UTF-8 encoding is [p] when [p] is
    valid UTF-8, and a [UnicodeDecodeError] when it is not. *)
Theorem decrypt_encrypt (key p : bytes) (use_base64 : bool) :
  len key = 16 ->
  exists self enc,
    AESCipher.init key = Ok self /\
    AESCipher.encrypt self p use_base64 = Ok enc /\
    AESCipher.decrypt self enc use_base64 = utf8_decode p /\
    (forall text, utf8_decode p = Ok text -> utf8_encode text = Ok p) /\
    (forall e, utf8_decode p = Raise e -> e = UnicodeDecodeError).
Proof.
  intros Hk. destruct (AESCipher_init_ok key (or_introl Hk)) as (self & Hinit).
  pose proof (AESCipher_init_inv _ _ Hinit) as Hbs.
  destruct (encrypt_spec self p use_base64 Hbs) as (out & Eecb & L & E).
  exists self. eexists. split; [exact Hinit|]. split; [exact E|].
  unfold AESCipher.decrypt.
  assert (Ed : (if use_base64
                then b64decode (if use_base64 then b64encode out else out)
                else Ok (if use_base64 then b64encode out else out)) = Ok out).
  { destruct use_base64; [apply b64decode_b64encode|reflexivity]. }
  rewrite Ed. cbn [bind].
  rewrite (ecb_decrypt_encrypt _ _ _ Eecb). cbn [bind].
  pose proof (padnum_range p).
  rewrite unpad_pad by lia. split; [reflexivity|]. split.
  - apply utf8_encode_decode.
  - apply utf8_decode_error.
Qed.

(** The theorems at a concrete key and text. *)
Lemma padding_law_witness :
  let key := b_lit "0123456789abcdef" in
  let s := b_lit "hello" in
  let self := AESCipher.mk 16 (key_expansion key) in
  let padnum := 16 - len s mod 16 in
  let padded := s ++ repeat (byte_of_Z padnum) (Z.to_nat padnum) in
  AESCipher.init key = Ok self /\
  1 <= padnum <= 16 /\
  AESCipher._pad self s = Ok padded /\
  (exists out, AESCipher.encrypt self s false = Ok out /\
               len out = len s + padnum /\ len out mod 16 = 0) /\
  (exists out, AESCipher.encrypt self s true = Ok out /\
               len out = 4 * ((len s + padnum + 2) / 3)) /\
  AESCipher._unpad padded = Ok s.
Proof.
  intros key s self.
  assert (H : AESCipher.init key = Ok self) by (vm_compute; reflexivity).
  split; [exact H | exact (padding_law key self s H)].
Defined.

(** C7, as stated, fails for the default variant of [encrypt]: the
    empty input gives 24 base64 characters, not a multiple of 16. *)
Lemma padding_law_counterexample :
  let key := b_lit "0123456789abcdef" in
  exists self out,
    AESCipher.init key = Ok self /\
    AESCipher.encrypt self [] true = Ok out /\
    len out = 24 /\ len out mod 16 <> 0.
Proof.
  eexists. eexists. split; [vm_compute; reflexivity|].
  split; [vm_compute; reflexivity|]. split; [reflexivity|discriminate].
Qed.

Lemma decrypt_encrypt_witness :
  let key := b_lit "0123456789abcdef" in
  let p := b_lit "{}" in
  len key = 16 /\
  exists self enc,
    AESCipher.init key = Ok self /\
    AESCipher.encrypt self p true = Ok enc /\
    AESCipher.decrypt self enc true = utf8_decode p /\
    (forall text, utf8_decode p = Ok text -> utf8_encode text = Ok p) /\
    (forall e, utf8_decode p = Raise e -> e = UnicodeDecodeError).
Proof.
  intros key p.
  assert (H : len key = 16) by reflexivity.
  split; [exact H | exact (decrypt_encrypt key p true H)].
Defined.

(** C6, as stated, fails: for the one-byte text [b"\xff"], which is not
    UTF-8, [decrypt] raises instead of returning the text, in both
    variants. *)
Lemma decrypt_encrypt_counterexample :
  let key := b_lit "0123456789abcdef" in
  let p := [xff] in
  exists self enc_b64 enc_raw,
    AESCipher.init key = Ok self /\
    AESCipher.encrypt self p true = Ok enc_b64 /\
    AESCipher.decrypt self enc_b64 true = Raise UnicodeDecodeError /\
    AESCipher.encrypt self p false = Ok enc_raw /\
    AESCipher.decrypt self enc_raw false = Raise UnicodeDecodeError.
Proof.
  eexists. eexists. eexists.
  split; [vm_compute; reflexivity|].
  split; [vm_compute; reflexivity|].
  split; [vm_compute; reflexivity|].
  split; [vm_compute; reflexivity|].
  vm_compute; reflexivity.
Qed.

Import MessageDispatcher.

(* ================================================================== *)
(** * [MessageDispatcher] *)

(** ** [_dispatch] *)

Section DispatchFacts.
Context {Env : Type}.
Variable listener : TuyaMessage -> Env -> result unit * Env.

Lemma dispatch_last_seqno (msg : TuyaMessage) (self : t) (env : Env) :
  last_seqno (snd (fst (_dispatch listener msg self env)))
  = Z.max (last_seqno self) (seqno msg).
Proof.
  unfold _dispatch. cbn [listeners set_last_seqno].
  destruct (dict_get Z.eqb (listeners self) (seqno msg)) as [sem|].
  - destruct sem; reflexivity.
  - destruct (cmd msg =? 9); [reflexivity|].
    destruct (cmd msg =? 8); [|reflexivity].
    destruct (listener msg env); reflexivity.
Qed.

Lemma dispatch_buffer (msg : TuyaMessage) (self : t) (env : Env) :
  buffer (snd (fst (_dispatch listener msg self env))) = buffer self.
Proof.
  unfold _dispatch. cbn [listeners set_last_seqno].
  destruct (dict_get Z.eqb (listeners self) (seqno msg)) as [sem|].
  - destruct sem; reflexivity.
  - destruct (cmd msg =? 9); [reflexivity|].
    destruct (cmd msg =? 8); [|reflexivity].
    destruct (listener msg env); reflexivity.
Qed.

(** [_dispatch] does not read the buffer. *)
Lemma dispatch_set_buffer (msg : TuyaMessage) (self : t) (env : Env)
    (b : bytes) :
  _dispatch listener msg (set_buffer self b) env
  = let '(r, self', env') := _dispatch listener msg self env in
    (r, set_buffer self' b, env').
Proof.
  unfold _dispatch. cbn [listeners set_last_seqno set_buffer last_seqno].
  destruct (dict_get Z.eqb (listeners self) (seqno msg)) as [sem|].
  - destruct sem; reflexivity.
  - destruct (cmd msg =? 9); [reflexivity|].
    destruct (cmd msg =? 8); [|reflexivity].
    destruct (listener msg env); reflexivity.
Qed.

(** C5 (the code at the inputs of the claim) : a frame whose
    sequence number has no waiter and whose command is neither 0x09
    nor 0x08 makes [_dispatch] raise [AttributeError]: the arguments
    of the log call read [msg.command], and the tuple has no such
    field.  Only [last_seqno] has been updated by then. *)
Theorem dispatch_unmatched_raises (msg : TuyaMessage) (self : t) (env : Env) :
  dict_mem Z.eqb (listeners self) (seqno msg) = false ->
  cmd msg <> 0x09 -> cmd msg <> 0x08 ->
  _dispatch listener msg self env
  = (Raise AttributeError,
     set_last_seqno self (Z.max (last_seqno self) (seqno msg)), env).
Proof.
  intros Hmem H9 H8. unfold _dispatch, dict_mem in *.
  cbn [listeners set_last_seqno].
  destruct (dict_get Z.eqb (listeners self) (seqno msg)); [discriminate|].
  apply Z.eqb_neq in H9, H8. rewrite H9, H8. reflexivity.
Qed.

(** The status push: command 0x08 on a sequence number without
    waiter, and only that, reaches the callback. *)
Lemma dispatch_status_push (msg : TuyaMessage) (self : t) (env : Env) :
  dict_mem Z.eqb (listeners self) (seqno msg) = false ->
  cmd msg = 0x08 ->
  _dispatch listener msg self env
  = (fst (listener msg env),
     set_last_seqno self (Z.max (last_seqno self) (seqno msg)),
     snd (listener msg env)).
Proof.
  intros Hmem H8. unfold _dispatch, dict_mem in *.
  cbn [listeners set_last_seqno].
  destruct (dict_get Z.eqb (listeners self) (seqno msg)); [discriminate|].
  rewrite H8. cbn. destruct (listener msg env); reflexivity.
Qed.

Lemma dispatch_heartbeat (msg : TuyaMessage) (self : t) (env : Env) :
  dict_mem Z.eqb (listeners self) (seqno msg) = false ->
  cmd msg = 0x09 ->
  _dispatch listener msg self env
  = (Ok tt, set_last_seqno self (Z.max (last_seqno self) (seqno msg)), env).
Proof.
  intros Hmem H9. unfold _dispatch, dict_mem in *.
  cbn [listeners set_last_seqno].
  destruct (dict_get Z.eqb (listeners self) (seqno msg)); [discriminate|].
  rewrite H9. reflexivity.
Qed.

Lemma dispatch_env_unless_push (msg : TuyaMessage) (self : t) (env : Env) :
  cmd msg <> 0x08 -> snd (_dispatch listener msg self env) = env.
Proof.
  intros H8. unfold _dispatch. cbn [listeners set_last_seqno].
  destruct (dict_get Z.eqb (listeners self) (seqno msg)) as [sem|].
  - destruct sem; reflexivity.
  - destruct (cmd msg =? 9); [reflexivity|].
    apply Z.eqb_neq in H8. rewrite H8. reflexivity.
Qed.

End DispatchFacts.

(** The theorem at a frame with command 0x07 on a fresh dispatcher. *)
Lemma dispatch_unmatched_raises_witness :
  let msg := mkTuyaMessage 5 0x07 0 [] 0 in
  let listener := fun (m : TuyaMessage) (log : list TuyaMessage) =>
                    (Ok tt, log ++ [m]) in
  dict_mem Z.eqb (listeners init) (seqno msg) = false /\
  cmd msg <> 0x09 /\ cmd msg <> 0x08 /\
  _dispatch listener msg init []
  = (Raise AttributeError, set_last_seqno init 5, []).
Proof.
  intros msg listener.
  assert (H1 : dict_mem Z.eqb (listeners init) (seqno msg) = false)
    by reflexivity.
  assert (H2 : cmd msg <> 0x09) by (simpl; lia).
  assert (H3 : cmd msg <> 0x08) by (simpl; lia).
  split; [exact H1|]. split; [exact H2|]. split; [exact H3|].
  exact (dispatch_unmatched_raises listener msg init [] H1 H2 H3).
Defined.

(* ================================================================== *)
(** ** Dictionaries with integer keys *)

Lemma dict_get_app_notin {V} (a b : list (Z * V)) (k : Z) :
  ~ In k (map fst a) -> dict_get Z.eqb (a ++ b) k = dict_get Z.eqb b k.
Proof.
  induction a as [|[k' v] a IH]; intros H; [reflexivity|].
  cbn [app dict_get]. destruct (Z.eqb_spec k' k) as [->|_].
  - exfalso. apply H. now left.
  - apply IH. intros Hin. apply H. now right.
Qed.

Lemma dict_set_app_notin {V} (a b : list (Z * V)) (k : Z) (v : V) :
  ~ In k (map fst a) ->
  dict_set Z.eqb (a ++ b) k v = a ++ dict_set Z.eqb b k v.
Proof.
  induction a as [|[k' v'] a IH]; intros H; [reflexivity|].
  cbn [app dict_set]. destruct (Z.eqb_spec k' k) as [->|_].
  - exfalso. apply H. now left.
  - f_equal. apply IH. intros Hin. apply H. now right.
Qed.

Lemma dict_get_in {V} (d : list (Z * V)) (k : Z) :
  In k (map fst d) -> exists v, dict_get Z.eqb d k = Some v /\ In (k, v) d.
Proof.
  induction d as [|[k' v'] d IH]; intros H; [destruct H|].
  cbn [dict_get]. destruct (Z.eqb_spec k' k) as [->|Hne].
  - exists v'. split; [reflexivity|now left].
  - destruct H as [H|H]; [simpl in H; contradiction|].
    destruct (IH H) as (v & E & Hin). exists v. split; [exact E|now right].
Qed.

Lemma dict_get_notin {V} (d : list (Z * V)) (k : Z) :
  ~ In k (map fst d) -> dict_get Z.eqb d k = None.
Proof.
  intros H. rewrite <- (app_nil_r d). now rewrite dict_get_app_notin.
Qed.

Lemma dict_set_notin {V} (d : list (Z * V)) (k : Z) (v : V) :
  ~ In k (map fst d) -> dict_set Z.eqb d k v = d ++ [(k, v)].
Proof.
  intros H. rewrite <- (app_nil_r d) at 1. now rewrite dict_set_app_notin.
Qed.

(** Deleting a present key removes it from the keys, and only it. *)
Lemma dict_del_keys {V} (d : list (Z * V)) (k : Z) :
  In k (map fst d) ->
  Permutation (k :: map fst (dict_del Z.eqb d k)) (map fst d).
Proof.
  induction d as [|[k' v'] d IH]; intros H; [destruct H|].
  cbn [dict_del map fst]. destruct (Z.eqb_spec k' k) as [->|Hne].
  - reflexivity.
  - destruct H as [H|H]; [simpl in H; contradiction|].
    cbn [map fst]. rewrite perm_swap. constructor. now apply IH.
Qed.

Lemma dict_del_incl {V} (d : list (Z * V)) (k : Z) (kv : Z * V) :
  In kv (dict_del Z.eqb d k) -> In kv d.
Proof.
  induction d as [|[k' v'] d IH]; [intros []|].
  cbn [dict_del]. destruct (Z.eqb k' k).
  - intros H. now right.
  - intros [H|H]; [now left|right; now apply IH].
Qed.

(* ================================================================== *)
(** ** Semaphore counters *)

Lemma length_list_update {A} (l : list A) (i : nat) (f : A -> A) :
  length (list_update l i f) = length l.
Proof.
  revert i. induction l as [|x l IH]; intros [|i]; simpl; try reflexivity.
  now rewrite IH.
Qed.

Lemma nth_list_update_eq {A} (l : list A) (i : nat) (f : A -> A) (d : A) :
  (i < length l)%nat -> nth i (list_update l i f) d = f (nth i l d).
Proof.
  revert i. induction l as [|x l IH]; intros [|i] H; simpl in *; try lia.
  - reflexivity.
  - apply IH. lia.
Qed.

Lemma nth_list_update_neq {A} (l : list A) (i j : nat) (f : A -> A) (d : A) :
  i <> j -> nth j (list_update l i f) d = nth j l d.
Proof.
  revert i j. induction l as [|x l IH]; intros [|i] [|j] H; simpl;
    try reflexivity; try congruence.
  apply IH. congruence.
Qed.

Lemma length_release_all (ids : list nat) (sems : list Z) :
  length (release_all ids sems) = length sems.
Proof.
  revert sems. induction ids as [|id ids IH]; intros sems; [reflexivity|].
  cbn [release_all fold_left]. fold (release_all ids).
  now rewrite IH, length_list_update.
Qed.

Lemma nth_release_all_notin (ids : list nat) (sems : list Z) (j : nat) :
  ~ In j ids -> nth j (release_all ids sems) 0 = nth j sems 0.
Proof.
  revert sems. induction ids as [|id ids IH]; intros sems H; [reflexivity|].
  cbn [release_all fold_left]. fold (release_all ids).
  rewrite IH by (intros Hin; apply H; now right).
  apply nth_list_update_neq. intros ->. apply H. now left.
Qed.

Lemma nth_release_all_in (ids : list nat) (sems : list Z) (j : nat) :
  NoDup ids -> In j ids -> (j < length sems)%nat ->
  nth j (release_all ids sems) 0 = nth j sems 0 + 1.
Proof.
  revert sems. induction ids as [|id ids IH]; intros sems Hnd Hin Hlt;
    [destruct Hin|].
  cbn [release_all fold_left]. fold (release_all ids).
  inversion Hnd as [|? ? Hnotin Hnd']; subst.
  destruct Hin as [->|Hin].
  - rewrite nth_release_all_notin by assumption.
    now rewrite nth_list_update_eq.
  - rewrite IH; try assumption.
    + rewrite nth_list_update_neq; [reflexivity|].
      intros ->. contradiction.
    + now rewrite length_list_update.
Qed.

(* ================================================================== *)
(** ** [abort] and the waiters it releases *)

Lemma map_fst_to_sem (ws : list waiter) : map fst (map to_sem ws) = map fst ws.
Proof. rewrite map_map. reflexivity. Qed.

Lemma map_fst_to_none (ws : list waiter) : map fst (map to_none ws) = map fst ws.
Proof. rewrite map_map. reflexivity. Qed.

Lemma abort_loop_spec (rest pre : list waiter) (self : t) :
  listeners self = map to_none pre ++ map to_sem rest ->
  NoDup (map fst (pre ++ rest)) ->
  abort_loop (map fst rest) self
  = (Ok tt, mk (buffer self) (map to_none (pre ++ rest)) (last_seqno self)
               (release_all (map snd rest) (semaphores self))).
Proof.
  revert pre self. induction rest as [|w rest IH]; intros pre self HL Hnd.
  - cbn [map] in HL. rewrite app_nil_r in HL.
    cbn [map abort_loop release_all fold_left]. rewrite app_nil_r, <- HL.
    destruct self; reflexivity.
  - destruct w as [s id]. cbn [map abort_loop fst snd]. unfold abort_key.
    assert (Hnotin : ~ In s (map fst (map to_none pre))).
    { rewrite map_fst_to_none. rewrite map_app in Hnd.
      apply NoDup_remove_2 in Hnd. intros Hin. apply Hnd.
      apply in_or_app. now left. }
    rewrite HL, dict_get_app_notin by assumption.
    unfold to_sem at 1. cbn [map dict_get fst snd]. rewrite Z.eqb_refl.
    rewrite dict_set_app_notin by assumption.
    unfold to_sem at 1. cbn [map dict_set fst snd]. rewrite Z.eqb_refl.
    cbn [release set_listeners set_semaphores semaphores buffer last_seqno
         listeners].
    rewrite (IH (pre ++ [(s, id)])).
    + cbn [buffer last_seqno semaphores listeners].
      rewrite <- app_assoc. reflexivity.
    + cbn [listeners]. rewrite map_app, <- app_assoc. reflexivity.
    + now rewrite <- app_assoc.
Qed.

Lemma abort_outstanding (ws : list waiter) (self : t) :
  outstanding ws self ->
  abort self
  = (Ok tt, mk (buffer self) (map to_none ws) (last_seqno self)
               (release_all (map snd ws) (semaphores self))).
Proof.
  intros (HL & Hk & Hs & Hv). unfold abort, dict_keys.
  rewrite HL. change (map (fun w : waiter => (fst w, Sem (snd w))) ws)
    with (map to_sem ws).
  rewrite map_fst_to_sem.
  apply (abort_loop_spec ws []); [exact HL | exact Hk].
Qed.

Lemma resume_all_spec (order : list waiter) :
  forall self,
    NoDup (map fst (listeners self)) ->
    Forall (fun kv => snd kv = PyNone) (listeners self) ->
    Permutation (map fst (listeners self)) (map fst order) ->
    NoDup (map snd order) ->
    Forall (fun w : waiter =>
              (snd w < length (semaphores self))%nat /\
              sem_value self (snd w) = 1) order ->
    exists self',
      resume_all order self = Some (map (fun _ => Ok PyNone) order, self') /\
      listeners self' = [] /\
      buffer self' = buffer self /\ last_seqno self' = last_seqno self /\
      Forall (fun w : waiter => sem_value self' (snd w) = 0) order /\
      (forall id, ~ In id (map snd order) ->
                  sem_value self' id = sem_value self id).
Proof.
  induction order as [|[s id] order IH]; intros self Hnd Hnone Hperm Hids Hv.
  - cbn in Hperm. symmetry in Hperm. apply Permutation_nil in Hperm.
    exists self. cbn. repeat split; try constructor.
    destruct (listeners self); [reflexivity|discriminate].
  - cbn [resume_all]. unfold wait_for_resume, can_resume.
    inversion Hv as [|? ? [Hlt Hval] Hv']; subst. cbn [snd] in Hlt, Hval.
    rewrite Hval. cbn [Z.ltb Z.compare].
    cbn [set_semaphores listeners].
    assert (Hin : In s (map fst (listeners self))).
    { eapply Permutation_in; [symmetry; exact Hperm|]. now left. }
    destruct (dict_get_in _ _ Hin) as (v & Eget & Hinv).
    rewrite Eget.
    assert (v = PyNone) as ->.
    { rewrite Forall_forall in Hnone. exact (Hnone _ Hinv). }
    set (self1 := set_listeners _ _).
    pose proof (dict_del_keys (listeners self) s Hin) as Hdel.
    inversion Hids as [|? ? Hidnotin Hids']; subst.
    destruct (IH self1) as (self' & Er & HL & Hb & Hls & Hz & Hother).
    + unfold self1; cbn [set_listeners set_semaphores listeners semaphores].
      apply (Permutation_NoDup (Permutation_sym Hdel)) in Hnd.
      now inversion Hnd.
    + unfold self1; cbn [set_listeners set_semaphores listeners semaphores]. rewrite Forall_forall in *.
      intros kv Hkv. apply Hnone. eapply dict_del_incl; exact Hkv.
    + unfold self1; cbn [set_listeners set_semaphores listeners semaphores].
      apply Permutation_cons_inv with (a := s).
      etransitivity; [exact Hdel|exact Hperm].
    + exact Hids'.
    + unfold self1; cbn [set_listeners set_semaphores listeners semaphores]. rewrite Forall_forall in *.
      intros w Hw. destruct (Hv' w Hw) as [Hlt' Hval'].
      rewrite length_list_update. split; [exact Hlt'|].
      unfold sem_value in *. cbn [semaphores set_listeners set_semaphores].
      rewrite nth_list_update_neq; [exact Hval'|].
      intros ->. apply Hidnotin. now apply in_map.
    + exists self'. rewrite Er. split; [reflexivity|].
      split; [exact HL|]. split; [exact Hb|]. split; [exact Hls|]. split.
      * constructor; [|exact Hz]. cbn [snd].
        rewrite Hother by exact Hidnotin.
        unfold self1, sem_value in *. cbn [set_listeners set_semaphores semaphores].
        rewrite nth_list_update_eq by exact Hlt. lia.
      * intros j Hj. rewrite Hother by (intros Hin'; apply Hj; now right).
        unfold self1, sem_value. cbn [set_listeners set_semaphores semaphores].
        apply nth_list_update_neq. intros ->. apply Hj. now left.
Qed.

(** C4 (as amended) : with the [K] waiters [ws] outstanding, none of
    which can continue, [abort] raises nothing, releases the semaphore
    of each waiter exactly once and stores [None] for it; the registry
    still has its [K] entries when [abort] returns.  Each waiter, resumed in any order, then
    gets [None] from [wait_for] and removes its own entry: the registry
    is empty once all [K] have resumed, and no semaphore is left
    released. *)
Theorem abort_semantics (ws order : list waiter) (self : t) :
  outstanding ws self ->
  Permutation ws order ->
  Forall (fun w : waiter => wait_for_resume (fst w) (snd w) self = None) ws /\
  exists aborted finished,
    abort self = (Ok tt, aborted) /\
    listeners aborted = map (fun w : waiter => (fst w, PyNone)) ws /\
    length (listeners aborted) = length ws /\
    Forall (fun w : waiter => sem_value aborted (snd w) = 1) ws /\
    resume_all order aborted
    = Some (map (fun _ => Ok PyNone) order, finished) /\
    listeners finished = [] /\
    Forall (fun w : waiter => sem_value finished (snd w) = 0) ws.
Proof.
  intros Hout Hperm. pose proof Hout as (HL & Hk & Hs & Hv).
  split.
  { rewrite Forall_forall in *. intros w Hw. destruct (Hv w Hw) as [_ Hz].
    unfold wait_for_resume, can_resume. now rewrite Hz. }
  rewrite (abort_outstanding ws self Hout).
  set (aborted := mk _ _ _ _).
  assert (Hone : Forall (fun w : waiter =>
                   (snd w < length (semaphores aborted))%nat /\
                   sem_value aborted (snd w) = 1) ws).
  { rewrite Forall_forall in *. intros w Hw. destruct (Hv w Hw) as [Hlt Hz].
    unfold aborted, sem_value in *. cbn [semaphores].
    rewrite length_release_all. split; [exact Hlt|].
    rewrite nth_release_all_in; try assumption; [lia|now apply in_map]. }
  destruct (resume_all_spec order aborted) as (fin & Er & HLf & _ & _ & Hz & _).
  - cbn [aborted listeners]. now rewrite map_fst_to_none.
  - cbn [aborted listeners]. rewrite Forall_forall. intros kv Hkv.
    apply in_map_iff in Hkv. destruct Hkv as (w & <- & _). reflexivity.
  - cbn [aborted listeners]. rewrite map_fst_to_none.
    now apply Permutation_map.
  - apply (Permutation_NoDup (Permutation_map snd Hperm)). exact Hs.
  - rewrite Forall_forall in *. intros w Hw. apply Hone.
    eapply Permutation_in; [symmetry; exact Hperm|exact Hw].
  - exists aborted, fin. split; [reflexivity|].
    split; [reflexivity|]. split; [cbn; now rewrite length_map|].
    split; [|split; [exact Er|split; [exact HLf|]]].
    + rewrite Forall_forall in *. intros w Hw. now apply Hone.
    + rewrite Forall_forall in *. intros w Hw. apply Hz.
      eapply Permutation_in; [exact Hperm|exact Hw].
Qed.

(** Waiters come to be outstanding through [wait_for]: started for a
    sequence number that is new and above [last_seqno], it suspends on
    a new semaphore and leaves one more waiter outstanding. *)
Lemma wait_for_start_outstanding (ws : list waiter) (s : Z) (self : t) :
  outstanding ws self ->
  last_seqno self < s -> ~ In s (map fst ws) ->
  let sem := length (semaphores self) in
  exists self',
    wait_for_start s self = (Waiting sem, self') /\
    outstanding (ws ++ [(s, sem)]) self' /\
    last_seqno self' = last_seqno self /\ buffer self' = buffer self.
Proof.
  intros (HL & Hk & Hs & Hv) Hlast Hnew sem. unfold wait_for_start.
  replace (s <=? last_seqno self) with false by (symmetry; apply Z.leb_gt; lia).
  unfold dict_mem. rewrite HL.
  rewrite dict_get_notin by (rewrite map_map; exact Hnew).
  unfold new_semaphore. cbn [set_semaphores set_listeners listeners semaphores
                             buffer last_seqno].
  rewrite HL, dict_set_notin by (rewrite map_map; exact Hnew).
  eexists. split; [reflexivity|]. split; [|split; reflexivity].
  unfold outstanding. cbn [listeners semaphores].
  split; [now rewrite map_app|]. rewrite !map_app. cbn [map fst snd].
  assert (Hfresh : ~ In sem (map snd ws)).
  { intros Hin. apply in_map_iff in Hin. destruct Hin as (w & E & Hw).
    rewrite Forall_forall in Hv. destruct (Hv w Hw) as [Hlt _].
    unfold sem in E. lia. }
  split; [|split].
  - apply NoDup_app; [exact Hk|repeat constructor; intros []|].
    intros x Hx [<-|[]]. contradiction.
  - apply NoDup_app; [exact Hs|repeat constructor; intros []|].
    intros x Hx [<-|[]]. contradiction.
  - apply Forall_app. split.
    + rewrite Forall_forall in *. intros w Hw. destruct (Hv w Hw) as [Hlt Hz].
      unfold sem_value in *. cbn [semaphores set_listeners set_semaphores].
      rewrite length_app. split; [lia|]. now rewrite app_nth1.
    + constructor; [|constructor].
      unfold sem_value. cbn [snd semaphores set_listeners set_semaphores].
      rewrite length_app. cbn [length]. split; [unfold sem; lia|].
      rewrite app_nth2 by (unfold sem; lia). unfold sem.
      now rewrite Nat.sub_diag.
Qed.

(** The theorem with two waiters, resumed in the order opposite to
    their registration. *)
Lemma abort_semantics_witness :
  let self := snd (register_all [3; 1] init) in
  let ws : list waiter := [(3, 0%nat); (1, 1%nat)] in
  let order : list waiter := [(1, 1%nat); (3, 0%nat)] in
  outstanding ws self /\ Permutation ws order /\
  Forall (fun w : waiter => wait_for_resume (fst w) (snd w) self = None) ws /\
  exists aborted finished,
    abort self = (Ok tt, aborted) /\
    listeners aborted = map (fun w : waiter => (fst w, PyNone)) ws /\
    length (listeners aborted) = length ws /\
    Forall (fun w : waiter => sem_value aborted (snd w) = 1) ws /\
    resume_all order aborted
    = Some (map (fun _ => Ok PyNone) order, finished) /\
    listeners finished = [] /\
    Forall (fun w : waiter => sem_value finished (snd w) = 0) ws.
Proof.
  intros self ws order.
  assert (H1 : outstanding ws self).
  { unfold outstanding. split; [reflexivity|]. split; [|split].
    - repeat constructor; simpl; intuition discriminate.
    - repeat constructor; simpl; intuition discriminate.
    - repeat constructor; simpl; lia. }
  assert (H2 : Permutation ws order) by apply perm_swap.
  split; [exact H1|]. split; [exact H2|].
  exact (abort_semantics ws order self H1 H2).
Defined.

(** C4, as stated, fails: with one waiter outstanding, the registry
    is not empty when [abort] returns; it holds the waiter's key,
    mapped to [None], until the waiter resumes. *)
Lemma abort_semantics_counterexample :
  let self := snd (wait_for_start 0 init) in
  outstanding [(0, 0%nat)] self /\
  exists aborted,
    abort self = (Ok tt, aborted) /\
    listeners aborted = [(0, PyNone)] /\
    listeners aborted <> [].
Proof.
  split.
  - unfold outstanding. split; [reflexivity|]. split; [|split].
    + repeat constructor; simpl; intuition.
    + repeat constructor; simpl; intuition.
    + repeat constructor; simpl; lia.
  - eexists. split; [reflexivity|]. split; [reflexivity|discriminate].
Qed.

(* ================================================================== *)
(** ** [last_seqno] never decreases *)

Lemma abort_loop_last_seqno (keys : list Z) (self : t) :
  last_seqno (snd (abort_loop keys self)) = last_seqno self.
Proof.
  revert self. induction keys as [|k keys IH]; intros self; [reflexivity|].
  cbn [abort_loop]. unfold abort_key.
  destruct (dict_get Z.eqb (listeners self) k) as [[id|m|]|];
    cbn [release set_listeners]; try reflexivity.
  rewrite IH. reflexivity.
Qed.

Lemma abort_last_seqno (self : t) :
  last_seqno (snd (abort self)) = last_seqno self.
Proof. apply abort_loop_last_seqno. Qed.

Lemma wait_for_start_last_seqno (s : Z) (self : t) :
  last_seqno (snd (wait_for_start s self)) = last_seqno self.
Proof.
  unfold wait_for_start. destruct (s <=? last_seqno self); [reflexivity|].
  destruct (dict_mem Z.eqb (listeners self) s); reflexivity.
Qed.

Lemma wait_for_resume_last_seqno (s : Z) (sem : nat) (self self' : t)
    (r : result slot) :
  wait_for_resume s sem self = Some (r, self') ->
  last_seqno self' = last_seqno self.
Proof.
  unfold wait_for_resume. destruct (can_resume sem self); [|discriminate].
  cbn [set_semaphores listeners].
  destruct (dict_get Z.eqb (listeners self) s); intros H; inversion H;
    reflexivity.
Qed.

Lemma wait_for_timeout_last_seqno (s : Z) (self : t) :
  last_seqno (snd (wait_for_timeout s self)) = last_seqno self.
Proof.
  unfold wait_for_timeout. destruct (dict_mem Z.eqb (listeners self) s);
    reflexivity.
Qed.

(** The guard at the head of [wait_for]. *)
Lemma wait_for_start_stale (s : Z) (self : t) :
  s <= last_seqno self -> wait_for_start s self = (Returned PyNone, self).
Proof.
  intros H. unfold wait_for_start.
  now replace (s <=? last_seqno self) with true by (symmetry; apply Z.leb_le; lia).
Qed.

(* ================================================================== *)
(** * [add_data]: reassembly of frames *)

Lemma unpack_words_range (n : nat) (data : bytes) (vs : list Z) :
  unpack_words n data = Some vs -> Forall (fun v => 0 <= v < 2 ^ 32) vs.
Proof.
  revert data vs. induction n as [|n IH]; intros data vs H.
  - inversion H. constructor.
  - destruct data as [|b3 [|b2 [|b1 [|b0 rest]]]]; try discriminate.
    cbn [unpack_words] in H.
    destruct (unpack_words n rest) as [vs'|] eqn:E; [|discriminate].
    inversion H; subst. constructor; [apply of_be32_range|]. now apply IH in E.
Qed.

Lemma unpack_words_app_l (n : nat) (data more : bytes) (vs : list Z) :
  unpack_words n data = Some vs -> unpack_words n (data ++ more) = Some vs.
Proof.
  revert data vs. induction n as [|n IH]; intros data vs H.
  - exact H.
  - destruct data as [|b3 [|b2 [|b1 [|b0 rest]]]]; try discriminate.
    cbn [unpack_words app] in *.
    destruct (unpack_words n rest) as [vs'|] eqn:E; [|discriminate].
    now rewrite (IH _ _ E).
Qed.

Lemma unpack_words_firstn (n k : nat) (data : bytes) (vs : list Z) :
  (4 * n <= k)%nat ->
  unpack_words n data = Some vs -> unpack_words n (firstn k data) = Some vs.
Proof.
  revert k data vs. induction n as [|n IH]; intros k data vs Hk H.
  - exact H.
  - destruct data as [|b3 [|b2 [|b1 [|b0 rest]]]]; try discriminate.
    do 4 (destruct k as [|k]; [lia|]).
    cbn [unpack_words firstn] in *.
    destruct (unpack_words n rest) as [vs'|] eqn:E; [|discriminate].
    rewrite (IH k _ _ ltac:(lia) E). exact H.
Qed.

Lemma unpack_words_length_inv (n : nat) (data : bytes) (vs : list Z) :
  unpack_words n data = Some vs -> length vs = n /\ (4 * n <= length data)%nat.
Proof.
  revert data vs. induction n as [|n IH]; intros data vs H.
  - inversion H. split; [reflexivity|lia].
  - destruct data as [|b3 [|b2 [|b1 [|b0 rest]]]]; try discriminate.
    cbn [unpack_words] in H.
    destruct (unpack_words n rest) as [vs'|] eqn:E; [|discriminate].
    inversion H; subst. destruct (IH _ _ E). simpl. split; lia.
Qed.

(** ** What [next_frame] finds *)

Lemma next_frame_inv (b : bytes) (m : TuyaMessage) (rest : bytes) :
  next_frame b = Some (m, rest) ->
  exists pre length retcode',
    unpack_words 5 b = Some [pre; seqno m; cmd m; length; retcode'] /\
    retcode' = retcode m /\
    0 <= length /\ 16 + length <= len b /\
    rest = skipn (Z.to_nat (16 + length)) b /\
    payload m = firstn (Z.to_nat (length - 12)) (skipn 20 b) /\
    exists suffix,
      unpack_words 2 (skipn (Z.to_nat (8 + length)) b) = Some [crc m; suffix].
Proof.
  unfold next_frame. destruct (len b <? 20) eqn:E20; [discriminate|].
  destruct (unpack_words 5 b) as [[|pre [|s [|c [|L [|rc [|? ?]]]]]]|] eqn:E5;
    try discriminate.
  destruct (len b - 16 <? L) eqn:EL; [discriminate|].
  destruct (unpack_words 2 (skipn (Z.to_nat (8 + L)) b))
    as [[|cr [|sf [|? ?]]]|] eqn:E2; try discriminate.
  intros H. inversion H; subst; clear H. cbn [seqno cmd retcode payload crc].
  apply Z.ltb_ge in EL.
  pose proof (unpack_words_range _ _ _ E5) as R.
  assert (0 <= L) by (do 3 (apply Forall_inv_tail in R); apply Forall_inv in R; lia).
  exists pre, L, rc. split; [reflexivity|]. split; [reflexivity|].
  split; [assumption|]. split; [lia|]. split; [reflexivity|].
  split; [reflexivity|]. exists sf. exact E2.
Qed.

Lemma next_frame_progress (b : bytes) (m : TuyaMessage) (rest : bytes) :
  next_frame b = Some (m, rest) -> (length rest + 16 <= length b)%nat.
Proof.
  intros H. apply next_frame_inv in H.
  destruct H as (pre & L & rc & _ & _ & HL & Hlen & -> & _).
  rewrite length_skipn. unfold len in Hlen. lia.
Qed.

Lemma next_frame_app (b more : bytes) (m : TuyaMessage) (rest : bytes) :
  next_frame b = Some (m, rest) ->
  next_frame (b ++ more) = Some (m, rest ++ more).
Proof.
  intros H. pose proof (next_frame_inv _ _ _ H)
    as (pre & L & rc & E5 & Erc & HL & Hlen & Erest & Epay & sf & E2).
  clear H. pose proof (unpack_words_length_inv _ _ _ E5) as [_ H20].
  unfold next_frame. unfold len in *. rewrite length_app.
  replace (Z.of_nat (length b + length more) <? 20) with false
    by (symmetry; apply Z.ltb_ge; lia).
  rewrite (unpack_words_app_l _ _ more _ E5).
  replace (Z.of_nat (length b + length more) - 16 <? L) with false
    by (symmetry; apply Z.ltb_ge; lia).
  rewrite skipn_app.
  rewrite (unpack_words_app_l _ _ _ _ E2).
  assert (Ep : firstn (Z.to_nat (L - 12)) (skipn 20 (b ++ more)) = payload m).
  { rewrite Epay, skipn_app, firstn_app.
    replace (Z.to_nat (L - 12) - length (skipn 20 b))%nat with 0%nat.
    - now rewrite firstn_O, app_nil_r.
    - rewrite length_skipn. lia. }
  rewrite Ep, Erc, Erest. f_equal. f_equal.
  - destruct m; reflexivity.
  - rewrite skipn_app. f_equal.
    replace (Z.to_nat (16 + L) - length b)%nat with 0%nat by lia.
    reflexivity.
Qed.

Lemma next_frame_short (b : bytes) : len b < 20 -> next_frame b = None.
Proof.
  intros H. unfold next_frame.
  now replace (len b <? 20) with true by (symmetry; apply Z.ltb_lt; lia).
Qed.

Lemma recv_frame_length (m : TuyaMessage) :
  length (recv_frame m) = (28 + length (payload m))%nat.
Proof.
  unfold recv_frame. rewrite !length_app, !length_flat_map_be32. simpl. lia.
Qed.

(** A complete frame at the head of the buffer is found, whatever
    follows it. *)
Lemma next_frame_recv_frame (m : TuyaMessage) (rest : bytes) :
  frame_ok m -> next_frame (recv_frame m ++ rest) = Some (m, rest).
Proof.
  intros (Hs & Hc & Hr & Hcrc & Hl).
  pose proof (len_nonneg (payload m)) as Hp.
  pose (hd := [PREFIX_VALUE; seqno m; cmd m; len (payload m) + 12; retcode m]).
  pose (tl := [crc m; SUFFIX_VALUE]).
  assert (Fhd : Forall (fun v => 0 <= v < 2 ^ 32) hd).
  { repeat constructor; try lia; unfold PREFIX_VALUE; lia. }
  assert (Ftl : Forall (fun v => 0 <= v < 2 ^ 32) tl).
  { repeat constructor; try lia; unfold SUFFIX_VALUE; lia. }
  assert (Lhd : length (flat_map be32 hd) = 20%nat) by reflexivity.
  assert (Ltl : length (flat_map be32 tl) = 8%nat) by reflexivity.
  assert (Eframe : recv_frame m ++ rest
                   = flat_map be32 hd ++ payload m ++ flat_map be32 tl ++ rest).
  { unfold recv_frame. now rewrite <- !app_assoc. }
  assert (E5 : unpack_words 5 (recv_frame m ++ rest) = Some hd).
  { rewrite Eframe. apply (unpack_words_flat_map hd _ Fhd). }
  assert (Esk8 : skipn (Z.to_nat (8 + (len (payload m) + 12)))
                   (recv_frame m ++ rest) = flat_map be32 tl ++ rest).
  { rewrite Eframe, app_assoc.
    replace (Z.to_nat (8 + (len (payload m) + 12)))
      with (length (flat_map be32 hd ++ payload m))
      by (rewrite length_app, Lhd; unfold len; lia).
    rewrite skipn_app, skipn_all, Nat.sub_diag. reflexivity. }
  assert (E2 : unpack_words 2 (flat_map be32 tl ++ rest) = Some tl).
  { apply (unpack_words_flat_map tl _ Ftl). }
  assert (Epay : firstn (Z.to_nat (len (payload m) + 12 - 12))
                   (skipn 20 (recv_frame m ++ rest)) = payload m).
  { rewrite Eframe, skipn_app, Lhd. rewrite skipn_all2 by lia.
    cbn [app Nat.sub skipn]. rewrite firstn_app.
    replace (Z.to_nat (len (payload m) + 12 - 12)) with (length (payload m))
      by (unfold len; lia).
    now rewrite firstn_all, Nat.sub_diag, firstn_O, app_nil_r. }
  assert (Erest : skipn (Z.to_nat (16 + (len (payload m) + 12)))
                    (recv_frame m ++ rest) = rest).
  { rewrite Eframe.
    rewrite (app_assoc (flat_map be32 hd)), (app_assoc _ (flat_map be32 tl)).
    replace (Z.to_nat (16 + (len (payload m) + 12)))
      with (length ((flat_map be32 hd ++ payload m) ++ flat_map be32 tl)).
    - rewrite skipn_app, skipn_all, Nat.sub_diag. reflexivity.
    - rewrite !length_app, Lhd, Ltl. unfold len. lia. }
  unfold next_frame.
  replace (len (recv_frame m ++ rest) <? 20) with false.
  2:{ symmetry. apply Z.ltb_ge. unfold len.
      rewrite length_app, recv_frame_length. lia. }
  rewrite E5. unfold hd. cbv iota.
  replace (len (recv_frame m ++ rest) - 16 <? len (payload m) + 12) with false.
  2:{ symmetry. apply Z.ltb_ge. unfold len.
      rewrite length_app, recv_frame_length. lia. }
  rewrite Esk8, E2. unfold tl. cbv iota. rewrite Epay, Erest.
  destruct m; reflexivity.
Qed.

(** An incomplete frame is left alone. *)
Lemma next_frame_incomplete (m : TuyaMessage) (part tail : bytes) :
  frame_ok m -> recv_frame m = part ++ tail -> tail <> [] ->
  next_frame part = None.
Proof.
  intros Hok E Htail.
  assert (Hlen : (length part < 28 + length (payload m))%nat).
  { rewrite <- recv_frame_length, E, length_app.
    destruct tail; [contradiction|simpl; lia]. }
  destruct (Z.ltb_spec (len part) 20) as [Hs|Hs];
    [now apply next_frame_short|].
  destruct (next_frame part) as [[m' rest]|] eqn:Enf; [|reflexivity].
  exfalso.
  pose proof (next_frame_app part tail _ _ Enf) as Happ.
  rewrite <- E in Happ. rewrite <- (app_nil_r (recv_frame m)) in Happ.
  rewrite (next_frame_recv_frame m [] Hok) in Happ.
  inversion Happ as [[Hm Hrest]].
  symmetry in Hrest. apply app_eq_nil in Hrest. destruct Hrest as [_ Ht].
  contradiction.
Qed.

(** ** The loop, one iteration at a time *)

Section Loop.
Context {Env : Type}.
Variable listener : TuyaMessage -> Env -> result unit * Env.

Lemma add_data_loop_step (fuel : nat) (self : t) (env : Env) :
  add_data_loop listener (S fuel) self env
  = match next_frame (buffer self) with
    | None => (Ok tt, self, env)
    | Some (m, rest) =>
        after_dispatch (add_data_loop listener fuel)
          (_dispatch listener m (set_buffer self rest) env)
    end.
Proof.
  cbn [add_data_loop]. cbv zeta.
  change (calcsize MESSAGE_RECV_HEADER_FMT) with 20.
  change (calcsize MESSAGE_END_FMT) with 8.
  change MESSAGE_RECV_HEADER_FMT with 5%nat.
  change MESSAGE_END_FMT with 2%nat.
  set (b := buffer self).
  destruct (len b =? 0) eqn:E0.
  { apply Z.eqb_eq in E0. rewrite next_frame_short by lia. reflexivity. }
  destruct (len b <? 20) eqn:E20.
  { apply Z.ltb_lt in E20. rewrite next_frame_short by lia. reflexivity. }
  apply Z.ltb_ge in E20.
  destruct (unpack_words_length 5 b) as (vs & E5 & L5);
    [unfold len in E20; lia|].
  destruct vs as [|pre [|s [|c [|L [|rc [|? ?]]]]]]; try discriminate.
  pose proof (unpack_words_range _ _ _ E5) as R.
  assert (HL : 0 <= L)
    by (do 3 (apply Forall_inv_tail in R); apply Forall_inv in R; lia).
  unfold struct_unpack_from at 1. rewrite E5.
  unfold next_frame. replace (len b <? 20) with false
    by (symmetry; apply Z.ltb_ge; lia).
  rewrite E5.
  replace (len (slice_from b (20 - 4))) with (len b - 16).
  2:{ rewrite slice_from_spec by lia. unfold len. rewrite length_skipn.
      unfold len in E20. lia. }
  destruct (len b - 16 <? L) eqn:EL; [reflexivity|].
  apply Z.ltb_ge in EL.
  replace (slice b 20 (20 + (L - 4 - 8)))
    with (firstn (Z.to_nat (L - 12)) (skipn 20 b)).
  2:{ rewrite slice_spec by lia. change (Z.to_nat 20) with 20%nat.
      f_equal. lia. }
  replace (slice b (20 + (L - 4 - 8)) (20 + L))
    with (firstn 12 (skipn (Z.to_nat (8 + L)) b)).
  2:{ rewrite slice_spec by lia.
      replace (Z.to_nat (20 + (L - 4 - 8))) with (Z.to_nat (8 + L)) by lia.
      f_equal. lia. }
  replace (slice_from b (20 + L - 4)) with (skipn (Z.to_nat (16 + L)) b).
  2:{ rewrite slice_from_spec by lia. f_equal. lia. }
  destruct (unpack_words_length 2 (skipn (Z.to_nat (8 + L)) b))
    as (ws & E2 & L2).
  { rewrite length_skipn. unfold len in EL. lia. }
  destruct ws as [|cr [|sf [|? ?]]]; try discriminate.
  unfold struct_unpack_from.
  rewrite (unpack_words_firstn 2 12 _ _ ltac:(lia) E2), E2.
  unfold after_dispatch.
  destruct (_dispatch listener _ _ env) as [[[u|e] self'] env'];
    reflexivity.
Qed.

(** Enough iterations are as good as more. *)
Lemma add_data_loop_fuel (n : nat) :
  forall fuel1 fuel2 self env,
    (length (buffer self) <= n)%nat ->
    (length (buffer self) <= fuel1)%nat ->
    (length (buffer self) <= fuel2)%nat ->
    add_data_loop listener fuel1 self env
    = add_data_loop listener fuel2 self env.
Proof.
  induction n as [n IH] using lt_wf_ind.
  intros fuel1 fuel2 self env Hn H1 H2.
  assert (Hnil : forall fuel, length (buffer self) = 0%nat ->
            add_data_loop listener fuel self env = (Ok tt, self, env)).
  { intros [|fuel] Hz; [reflexivity|]. rewrite add_data_loop_step.
    rewrite next_frame_short; [reflexivity|]. unfold len. lia. }
  destruct (length (buffer self)) as [|k] eqn:Elen.
  { rewrite !Hnil; reflexivity. }
  destruct fuel1 as [|fuel1]; [lia|]. destruct fuel2 as [|fuel2]; [lia|].
  rewrite !add_data_loop_step.
  destruct (next_frame (buffer self)) as [[m rest]|] eqn:Enf; [|reflexivity].
  pose proof (next_frame_progress _ _ _ Enf) as Hprog.
  pose proof (dispatch_buffer listener m (set_buffer self rest) env) as Hb.
  destruct (_dispatch listener m (set_buffer self rest) env)
    as [[[u|e] self'] env']; [|reflexivity].
  cbn [after_dispatch]. cbn [fst snd set_buffer buffer] in Hb.
  apply (IH (length rest)); rewrite ?Hb; lia.
Qed.

Lemma add_data_run (data : bytes) (self : t) (env : Env) :
  add_data listener data self env
  = run listener (set_buffer self (buffer self ++ data)) env.
Proof. reflexivity. Qed.

Lemma run_unfold (self : t) (env : Env) :
  run listener self env
  = match next_frame (buffer self) with
    | None => (Ok tt, self, env)
    | Some (m, rest) =>
        after_dispatch (run listener) (_dispatch listener m (set_buffer self rest) env)
    end.
Proof.
  unfold run. destruct (length (buffer self)) as [|k] eqn:Elen.
  { rewrite next_frame_short; [reflexivity|]. unfold len. lia. }
  rewrite add_data_loop_step.
  destruct (next_frame (buffer self)) as [[m rest]|] eqn:Enf; [|reflexivity].
  pose proof (next_frame_progress _ _ _ Enf) as Hprog.
  pose proof (dispatch_buffer listener m (set_buffer self rest) env) as Hb.
  destruct (_dispatch listener m (set_buffer self rest) env)
    as [[[u|e] self'] env']; [|reflexivity].
  cbn [after_dispatch]. cbn [fst snd set_buffer buffer] in Hb.
  apply (add_data_loop_fuel (length rest)); rewrite ?Hb; lia.
Qed.

Lemma set_buffer_set_buffer (self : t) (a b : bytes) :
  set_buffer (set_buffer self a) b = set_buffer self b.
Proof. reflexivity. Qed.

Lemma set_buffer_same (self : t) : set_buffer self (buffer self) = self.
Proof. destruct self; reflexivity. Qed.

(** More input behind the buffer: the frames already complete are
    dispatched as before, then the loop goes on with what was left
    and the new input. *)
Lemma run_app (n : nat) :
  forall self env more self2 env2,
    (length (buffer self) <= n)%nat ->
    run listener (set_buffer self (buffer self ++ more)) env = (Ok tt, self2, env2) ->
    exists self1 env1,
      run listener self env = (Ok tt, self1, env1) /\
      run listener (set_buffer self1 (buffer self1 ++ more)) env1
      = (Ok tt, self2, env2).
Proof.
  induction n as [n IH] using lt_wf_ind.
  intros self env more self2 env2 Hn H.
  rewrite (run_unfold self).
  destruct (next_frame (buffer self)) as [[m rest]|] eqn:Enf.
  - pose proof (next_frame_progress _ _ _ Enf) as Hprog.
    rewrite run_unfold in H. cbn [set_buffer buffer] in H.
    rewrite (next_frame_app _ more _ _ Enf) in H.
    rewrite set_buffer_set_buffer in H.
    rewrite dispatch_set_buffer in H. rewrite dispatch_set_buffer.
    destruct (_dispatch listener m self env) as [[[u|e] self'] env'] eqn:Ed;
      cbn [after_dispatch] in *; [|discriminate].
    pose proof (dispatch_buffer listener m self env) as Hb.
    rewrite Ed in Hb. cbn [fst snd] in Hb.
    destruct (IH (length rest) ltac:(lia) (set_buffer self' rest) env'
                more self2 env2) as (self1 & env1 & E1 & E2).
    + cbn [set_buffer buffer]. lia.
    + exact H.
    + exists self1, env1. split; assumption.
  - exists self, env. split; [reflexivity|exact H].
Qed.

(** After the loop nothing complete is left in the buffer. *)
Lemma run_done (n : nat) :
  forall self env self1 env1,
    (length (buffer self) <= n)%nat ->
    run listener self env = (Ok tt, self1, env1) ->
    next_frame (buffer self1) = None.
Proof.
  induction n as [n IH] using lt_wf_ind.
  intros self env self1 env1 Hn H. rewrite run_unfold in H.
  destruct (next_frame (buffer self)) as [[m rest]|] eqn:Enf.
  - pose proof (next_frame_progress _ _ _ Enf) as Hprog.
    pose proof (dispatch_buffer listener m (set_buffer self rest) env) as Hb.
    destruct (_dispatch listener m (set_buffer self rest) env)
      as [[[u|e] self'] env']; cbn [after_dispatch] in H; [|discriminate].
    cbn [fst snd set_buffer buffer] in Hb.
    eapply (IH (length rest) ltac:(lia) self' env'); [|exact H].
    rewrite Hb. lia.
  - inversion H; subst. exact Enf.
Qed.

Lemma run_idle (self : t) (env : Env) :
  next_frame (buffer self) = None -> run listener self env = (Ok tt, self, env).
Proof. intros H. now rewrite run_unfold, H. Qed.

(** Any cutting of the input into chunks gives what the whole input
    gives in one piece, when that raises nothing. *)
Lemma feed_concat (chunks : list bytes) :
  forall self env self2 env2,
    chunks <> [] ->
    add_data listener (concat chunks) self env = (Ok tt, self2, env2) ->
    feed listener chunks self env = (Ok tt, self2, env2).
Proof.
  induction chunks as [|c chunks IH]; intros self env self2 env2 Hne H;
    [contradiction|].
  cbn [feed concat] in *. rewrite add_data_run in H.
  replace (set_buffer self (buffer self ++ c ++ concat chunks))
    with (set_buffer (set_buffer self (buffer self ++ c))
            (buffer (set_buffer self (buffer self ++ c)) ++ concat chunks))
    in H by (cbn [set_buffer buffer]; now rewrite <- app_assoc).
  apply (run_app _ _ _ _ _ _ (Nat.le_refl _)) in H.
  destruct H as (self1 & env1 & E1 & E2).
  rewrite add_data_run, E1.
  destruct chunks as [|c' chunks'].
  - cbn [concat feed] in *. rewrite app_nil_r, set_buffer_same in E2.
    rewrite run_idle in E2; [exact E2|].
    eapply run_done; [apply Nat.le_refl|exact E1].
  - apply IH; [discriminate|]. rewrite add_data_run. exact E2.
Qed.

(** ** Whole frames *)

Lemma dispatch_all_set_buffer (ms : list TuyaMessage) :
  forall self env b,
    dispatch_all listener ms (set_buffer self b) env
    = let '(r, self', env') := dispatch_all listener ms self env in
      (r, set_buffer self' b, env').
Proof.
  induction ms as [|m ms IH]; intros self env b; [reflexivity|].
  cbn [dispatch_all]. rewrite dispatch_set_buffer.
  destruct (_dispatch listener m self env) as [[[u|e] self'] env'];
    [apply IH|reflexivity].
Qed.

(** The frames [ms], followed by the beginning [part] of one more:
    the loop dispatches [ms] in order and keeps [part]. *)
Lemma run_frames (ms : list TuyaMessage) :
  forall self env part tail next self' env',
    Forall frame_ok ms -> frame_ok next ->
    recv_frame next = part ++ tail -> tail <> [] ->
    buffer self = concat (map recv_frame ms) ++ part ->
    dispatch_all listener ms self env = (Ok tt, self', env') ->
    run listener self env = (Ok tt, set_buffer self' part, env').
Proof.
  induction ms as [|m ms IH];
    intros self env part tail next self' env' Hms Hnext Epart Htail Hbuf Hd.
  - cbn in Hbuf, Hd. inversion Hd; subst self' env'.
    rewrite run_idle.
    + rewrite <- Hbuf. now rewrite set_buffer_same.
    + rewrite Hbuf. eapply next_frame_incomplete; eassumption.
  - inversion Hms as [|? ? Hm Hms']; subst.
    cbn [map concat] in Hbuf. rewrite <- app_assoc in Hbuf.
    rewrite run_unfold, Hbuf, (next_frame_recv_frame m _ Hm).
    rewrite dispatch_set_buffer. cbn [dispatch_all] in Hd.
    destruct (_dispatch listener m self env) as [[[u|e] self1] env1];
      [|discriminate].
    cbn [after_dispatch].
    rewrite (IH (set_buffer self1 (concat (map recv_frame ms) ++ part)) env1
                part tail next
                (set_buffer self' (concat (map recv_frame ms) ++ part)) env');
      try assumption; try reflexivity.
    rewrite dispatch_all_set_buffer, Hd. reflexivity.
Qed.

End Loop.

(** C8 (as amended) : the bytes of the valid frames [ms], followed by
    an incomplete beginning [part] of one more frame (possibly empty),
    are fed in any number [M >= 1] of chunks cut at any offsets.  When
    dispatching the frames of [ms] one after the other raises nothing,
    feeding the chunks raises nothing either and leaves the dispatcher
    and the callback's state exactly as these [N] dispatches, in the
    order of the stream, leave them, with [part] kept in the buffer. *)
Theorem demux_reassembly {Env : Type}
    (listener : TuyaMessage -> Env -> result unit * Env)
    (ms : list TuyaMessage) (next : TuyaMessage) (part tail : bytes)
    (chunks : list bytes) (self self' : t) (env env' : Env) :
  Forall frame_ok ms -> frame_ok next ->
  recv_frame next = part ++ tail -> tail <> [] ->
  chunks <> [] -> buffer self = [] ->
  concat chunks = concat (map recv_frame ms) ++ part ->
  dispatch_all listener ms self env = (Ok tt, self', env') ->
  feed listener chunks self env = (Ok tt, set_buffer self' part, env').
Proof.
  intros Hms Hnext Epart Htail Hne Hbuf Hcat Hd.
  apply feed_concat; [exact Hne|]. rewrite add_data_run.
  rewrite Hbuf, Hcat. cbn [app].
  rewrite (run_frames listener ms _ env part tail next
             (set_buffer self' (concat (map recv_frame ms) ++ part)) env');
    try assumption; try reflexivity.
  rewrite dispatch_all_set_buffer, Hd. reflexivity.
Qed.

Ltac frame_ok_tac :=
  unfold frame_ok; cbn; change (2 ^ 32) with 4294967296; lia.

(** The theorem with two status pushes and ten bytes of a third
    frame, cut into three chunks inside the frames; the callback keeps
    the messages it is given. *)
Lemma demux_reassembly_witness :
  let listener := fun (m : TuyaMessage) (log : list TuyaMessage) =>
                    (Ok tt, log ++ [m]) in
  let m1 := mkTuyaMessage 0 8 0 (b_lit "{}") 7 in
  let m2 := mkTuyaMessage 1 8 0 (b_lit "abc") 9 in
  let next := mkTuyaMessage 2 9 0 [] 0 in
  let part := firstn 10 (recv_frame next) in
  let tail := skipn 10 (recv_frame next) in
  let stream := recv_frame m1 ++ recv_frame m2 ++ part in
  let chunks := [firstn 5 stream; firstn 28 (skipn 5 stream);
                 skipn 33 stream] in
  Forall frame_ok [m1; m2] /\ frame_ok next /\
  recv_frame next = part ++ tail /\ tail <> [] /\
  chunks <> [] /\ buffer init = [] /\
  concat chunks = concat (map recv_frame [m1; m2]) ++ part /\
  dispatch_all listener [m1; m2] init []
  = (Ok tt, set_last_seqno init 1, [m1; m2]) /\
  feed listener chunks init []
  = (Ok tt, set_buffer (set_last_seqno init 1) part, [m1; m2]).
Proof.
  intros listener m1 m2 next part tail stream chunks.
  assert (H1 : Forall frame_ok [m1; m2])
    by (repeat constructor; frame_ok_tac).
  assert (H2 : frame_ok next) by (repeat constructor; frame_ok_tac).
  assert (H3 : recv_frame next = part ++ tail)
    by (symmetry; apply firstn_skipn).
  assert (H4 : tail <> []) by (vm_compute; discriminate).
  assert (H5 : chunks <> []) by discriminate.
  assert (H6 : buffer init = []) by reflexivity.
  assert (H7 : concat chunks = concat (map recv_frame [m1; m2]) ++ part)
    by (vm_compute; reflexivity).
  assert (H8 : dispatch_all listener [m1; m2] init []
               = (Ok tt, set_last_seqno init 1, [m1; m2]))
    by (vm_compute; reflexivity).
  repeat (split; [assumption|]).
  exact (demux_reassembly listener [m1; m2] next part tail chunks
           init (set_last_seqno init 1) [] [m1; m2]
           H1 H2 H3 H4 H5 H6 H7 H8).
Defined.

(** C8, as stated, fails: two status pushes arrive in one chunk at a
    session of protocol 3.1, and the payload of the first is neither
    empty, nor tagged [3.1], nor JSON.  The callback of the session
    raises the [Exception] of [_decode_payload] on it; the exception
    leaves [add_data], and the second frame stays in the buffer and is
    not dispatched. *)
Lemma demux_reassembly_counterexample :
  let json_loads := fun _ : str => Ok (JObj []) in
  let session := demo_session TuyaProtocol.v3_1 type_0a in
  let m1 := mkTuyaMessage 0 8 0 (b_lit "x") 7 in
  let m2 := mkTuyaMessage 1 8 0 (b_lit "{}") 9 in
  Forall frame_ok [m1; m2] /\
  feed (TuyaProtocol._status_update json_loads)
    [recv_frame m1 ++ recv_frame m2] init session
  = (Raise PlainException,
     set_buffer (set_last_seqno init 0) (recv_frame m2), session) /\
  TuyaProtocol.status_calls session = [].
Proof.
  split; [repeat constructor; frame_ok_tac|].
  split; [vm_compute; reflexivity|reflexivity].
Qed.

Lemma add_data_loop_last_seqno {Env : Type}
    (listener : TuyaMessage -> Env -> result unit * Env) (fuel : nat) :
  forall self env,
    last_seqno self
    <= last_seqno (snd (fst (add_data_loop listener fuel self env))).
Proof.
  induction fuel as [|fuel IH]; intros self env; [cbn; lia|].
  rewrite add_data_loop_step.
  destruct (next_frame (buffer self)) as [[m rest]|]; [|cbn; lia].
  pose proof (dispatch_last_seqno listener m (set_buffer self rest) env) as Hd.
  destruct (_dispatch listener m (set_buffer self rest) env)
    as [[[u|e] self'] env']; cbn [after_dispatch fst snd] in *.
  - specialize (IH self' env'). cbn [set_buffer last_seqno] in Hd. lia.
  - cbn [set_buffer last_seqno] in Hd. lia.
Qed.

Lemma add_data_last_seqno {Env : Type}
    (listener : TuyaMessage -> Env -> result unit * Env) (data : bytes)
    (self : t) (env : Env) :
  last_seqno self
  <= last_seqno (snd (fst (add_data listener data self env))).
Proof.
  unfold add_data.
  exact (add_data_loop_last_seqno listener _
           (set_buffer self (buffer self ++ data)) env).
Qed.

(** The same happens without any callback when the first frame is one
    that nobody waits for, with a command other than 0x08 and 0x09: the
    [AttributeError] of [_dispatch] leaves [add_data] and the status
    push behind it stays in the buffer. *)
Lemma add_data_stops_at_unmatched :
  let listener := fun (m : TuyaMessage) (log : list TuyaMessage) =>
                    (Ok tt, log ++ [m]) in
  let m1 := mkTuyaMessage 0 7 0 (b_lit "{}") 7 in
  let m2 := mkTuyaMessage 1 8 0 (b_lit "abc") 9 in
  add_data listener (recv_frame m1 ++ recv_frame m2) init []
  = (Raise AttributeError,
     set_buffer (set_last_seqno init 0) (recv_frame m2), []).
Proof. vm_compute. reflexivity. Qed.

(* ================================================================== *)
(** * [TuyaProtocol] *)

(** ** Dictionaries with [str] keys *)

Lemma str_eqb_eq (a b : str) : str_eqb a b = true <-> a = b.
Proof.
  unfold str_eqb. revert b. induction a as [|x a IH]; intros [|y b];
    cbn [length combine forallb Nat.eqb andb fst snd]; split; intros H;
    try reflexivity; try discriminate.
  - apply andb_true_iff in H. destruct H as [Hl H].
    apply andb_true_iff in H. destruct H as [Hxy H].
    apply Z.eqb_eq in Hxy. subst y. f_equal. apply IH.
    now rewrite Hl, H.
  - inversion H; subst. rewrite Z.eqb_refl.
    destruct (IH b) as [_ IH']. specialize (IH' eq_refl).
    apply andb_true_iff in IH'. destruct IH' as [Hl Hf].
    now rewrite Hl, Hf.
Qed.

Lemma str_eqb_refl (a : str) : str_eqb a a = true.
Proof. now apply str_eqb_eq. Qed.

Lemma str_eqb_neq (a b : str) : a <> b -> str_eqb a b = false.
Proof.
  intros H. destruct (str_eqb a b) eqn:E; [|reflexivity].
  apply str_eqb_eq in E. contradiction.
Qed.

Section StrDict.
Context {V : Type}.
Implicit Types (d : list (str * V)) (k : str) (v : V).

Lemma dict_get_set_same d k v :
  dict_get str_eqb (dict_set str_eqb d k v) k = Some v.
Proof.
  induction d as [|[k' v'] d IH]; cbn [dict_set dict_get].
  - now rewrite str_eqb_refl.
  - destruct (str_eqb k' k) eqn:E; cbn [dict_get]; rewrite E;
      [reflexivity|exact IH].
Qed.

Lemma dict_get_set_other d k k2 v :
  k <> k2 ->
  dict_get str_eqb (dict_set str_eqb d k v) k2 = dict_get str_eqb d k2.
Proof.
  intros Hne. induction d as [|[k' v'] d IH]; cbn [dict_set dict_get].
  - now rewrite str_eqb_neq.
  - destruct (str_eqb k' k) eqn:E; cbn [dict_get].
    + apply str_eqb_eq in E. subst k'. now rewrite !str_eqb_neq.
    + destruct (str_eqb k' k2); [reflexivity|exact IH].
Qed.

Lemma dict_set_same d k v :
  dict_get str_eqb d k = Some v -> dict_set str_eqb d k v = d.
Proof.
  induction d as [|[k' v'] d IH]; cbn [dict_set dict_get]; [discriminate|].
  destruct (str_eqb k' k).
  - intros H. now inversion H.
  - intros H. now rewrite IH.
Qed.

End StrDict.

Lemma get_set_if_present_other (d : list (str * json)) (name : string)
    (k2 : str) (v : json) :
  s_lit name <> k2 ->
  dict_get str_eqb (TuyaProtocol.set_if_present d name v) k2 = dict_get str_eqb d k2.
Proof.
  intros Hne. unfold TuyaProtocol.set_if_present.
  destruct (dict_mem str_eqb d (s_lit name)); [|reflexivity].
  now apply dict_get_set_other.
Qed.

(** ** The shared store *)

Lemma pd_get_set_command_same (g : payload_dict) (dt : device_type)
    (c : command_name) (jd : list (str * json)) :
  pd_get (pd_set_command g dt c jd) dt c
  = mk_cmd_data (hexByte (pd_get g dt c)) jd.
Proof. destruct dt, c; reflexivity. Qed.

Lemma pd_get_set_command_other (g : payload_dict) (dt dt' : device_type)
    (c c' : command_name) (jd : list (str * json)) :
  (dt, c) <> (dt', c') ->
  pd_get (pd_set_command g dt c jd) dt' c' = pd_get g dt' c'.
Proof. destruct dt, c, dt', c'; intros H; try reflexivity; contradiction. Qed.

Lemma hexByte_pd_set_command (g : payload_dict) (dt dt' : device_type)
    (c c' : command_name) (jd : list (str * json)) :
  hexByte (pd_get (pd_set_command g dt c jd) dt' c') = hexByte (pd_get g dt' c').
Proof. destruct dt, c, dt', c'; reflexivity. Qed.

Lemma generate_payload_store (now : Z) (command : command_name)
    (data : option json) (self : TuyaProtocol.t) (g : payload_dict) :
  snd (TuyaProtocol._generate_payload now command data self g)
  = pd_set_command g (TuyaProtocol.dev_type self) command
      (json_data_of now command data self g).
Proof.
  unfold TuyaProtocol._generate_payload, json_data_of. cbv zeta.
  match goal with
  | |- snd (match ?r with Ok _ => _ | Raise _ => _ end) = _ => destruct r
  end; reflexivity.
Qed.

(** The frame is packed from the entry's [hexByte] and the session's
    sequence number, which is then incremented. *)
Lemma generate_payload_ok (now : Z) (command : command_name)
    (data : option json) (self : TuyaProtocol.t) (g : payload_dict)
    (frame : bytes) (self' : TuyaProtocol.t) (g' : payload_dict) :
  TuyaProtocol._generate_payload now command data self g = (Ok frame, self', g') ->
  exists payload,
    pack_message (mkTuyaMessage (TuyaProtocol.seqno self)
                    (hexByte (pd_get g (TuyaProtocol.dev_type self) command)) 0 payload 0)
    = Ok frame /\
    self' = TuyaProtocol.set_seqno self (TuyaProtocol.seqno self + 1).
Proof.
  unfold TuyaProtocol._generate_payload. cbv zeta.
  match goal with
  | |- (match ?r with Ok _ => _ | Raise _ => _ end) = _ -> _ =>
      destruct r as [payload|e]
  end; [|discriminate].
  intros H. injection H as H1 H2 H3. exists payload.
  split; [exact H1|now symmetry].
Qed.

Lemma hexByte_run_calls (calls : list call) (g : payload_dict)
    (dt : device_type) (c : command_name) :
  hexByte (pd_get (run_calls calls g) dt c) = hexByte (pd_get g dt c).
Proof.
  revert g. induction calls as [|k calls IH]; intros g; [reflexivity|].
  cbn [run_calls fold_left]. fold (run_calls calls).
  rewrite IH, generate_payload_store. apply hexByte_pd_set_command.
Qed.

Lemma hexByte_PAYLOAD_DICT (dt : device_type) (c : command_name) :
  hexByte (pd_get PAYLOAD_DICT dt c)
  = match c, dt with
    | STATUS, type_0a => 0x0A
    | STATUS, type_0d => 0x0D
    | SET, _ => 0x07
    | HEARTBEAT, _ => 0x09
    end.
Proof. destruct dt, c; reflexivity. Qed.

Lemma frame_cmd_pack_message (m : TuyaMessage) (frame : bytes) :
  pack_message m = Ok frame -> frame_cmd frame = Some (cmd m).
Proof.
  intros H. apply pack_message_inv in H. cbv zeta in H.
  destruct H as (F & _ & ->). unfold frame_cmd.
  change 4%nat with (length [PREFIX_VALUE; seqno m; cmd m; len (payload m) + 8]).
  now rewrite unpack_words_flat_map.
Qed.

(** C3 (as amended) : whatever calls came before, the frame generated
    for STATUS carries 0x0A on a type-A session and 0x0D on a type-D
    session; for SET it carries 0x07 and for HEARTBEAT 0x09 on both.  A
    frame without waiter reaches the status callback when its command
    is 0x08, and only then. *)
Theorem generate_payload_command_code (calls : list call) (now : Z)
    (command : command_name) (data : option json) (self : TuyaProtocol.t)
    (frame : bytes) (self' : TuyaProtocol.t) (g' : payload_dict) :
  TuyaProtocol._generate_payload now command data self (run_calls calls PAYLOAD_DICT)
  = (Ok frame, self', g') ->
  frame_cmd frame
  = Some (match command, TuyaProtocol.dev_type self with
          | STATUS, type_0a => 0x0A
          | STATUS, type_0d => 0x0D
          | SET, _ => 0x07
          | HEARTBEAT, _ => 0x09
          end) /\
  forall (Env : Type) (listener : TuyaMessage -> Env -> result unit * Env)
         (msg : TuyaMessage) (d : t) (env : Env),
    dict_mem Z.eqb (listeners d) (seqno msg) = false ->
    (cmd msg = 0x08 ->
     _dispatch listener msg d env
     = (fst (listener msg env),
        set_last_seqno d
          (Z.max (last_seqno d) (seqno msg)),
        snd (listener msg env))) /\
    (cmd msg <> 0x08 ->
     snd (_dispatch listener msg d env) = env).
Proof.
  intros H. split.
  - apply generate_payload_ok in H. destruct H as (p & Hp & _).
    apply frame_cmd_pack_message in Hp. rewrite Hp. cbn [cmd].
    rewrite hexByte_run_calls, hexByte_PAYLOAD_DICT. reflexivity.
  - intros Env listener msg d env Hmem. split.
    + now apply dispatch_status_push.
    + now apply dispatch_env_unless_push.
Qed.

(** The sessions used below are what [__init__] and [connection_made]
    build. *)
Lemma demo_session_init (v : TuyaProtocol.protocol_version) :
  TuyaProtocol.init demo_id demo_key v
  = Ok (TuyaProtocol.mk demo_id (b_lit "0123456789abcdef") v type_0a []
          (AESCipher.mk 16 (key_expansion (b_lit "0123456789abcdef")))
          0 None init None [])
  /\ option_map TuyaProtocol.connection_made
       (match TuyaProtocol.init demo_id demo_key v with
        | Ok s => Some s
        | Raise _ => None
        end)
     = Some (demo_session v type_0a).
Proof. destruct v; split; vm_compute; reflexivity. Qed.

(** The theorem on a type-D session of protocol 3.3. *)
Lemma generate_payload_command_code_witness :
  let self := demo_session TuyaProtocol.v3_3 type_0d in
  exists frame self' g',
    TuyaProtocol._generate_payload 1604492800 STATUS None self
      (run_calls [] PAYLOAD_DICT) = (Ok frame, self', g') /\
    frame_cmd frame = Some 0x0D.
Proof.
  intros self.
  assert (H : exists frame self' g',
             TuyaProtocol._generate_payload 1604492800 STATUS None self
               (run_calls [] PAYLOAD_DICT) = (Ok frame, self', g')).
  { do 3 eexists. vm_compute. reflexivity. }
  destruct H as (frame & self' & g' & H).
  exists frame, self', g'. split; [exact H|].
  exact (proj1 (generate_payload_command_code [] 1604492800 STATUS None self
                  frame self' g' H)).
Defined.

(** C3, as stated, fails: the STATUS frame of a type-D session carries
    0x0D, not the 0x07 of SET. *)
Lemma generate_payload_command_code_counterexample :
  let self := demo_session TuyaProtocol.v3_3 type_0d in
  exists frame self' g',
    TuyaProtocol._generate_payload 1604492800 STATUS None self PAYLOAD_DICT
    = (Ok frame, self', g') /\
    frame_cmd frame = Some 0x0D /\
    frame_cmd frame <> Some 0x07.
Proof.
  do 3 eexists. split; [vm_compute; reflexivity|].
  split; [vm_compute; reflexivity | vm_compute; discriminate].
Qed.

(* ================================================================== *)
(** ** The shared templates *)

Lemma s_lit_neq_dps (name : string) :
  String.eqb name "dps" = false -> s_lit name <> s_lit "dps".
Proof.
  intros H E. apply String.eqb_neq in H. apply H.
  unfold s_lit in E.
  assert (Hinj : forall a b : list byte,
             map Z_of_byte a = map Z_of_byte b -> a = b).
  { induction a as [|x a IH]; intros [|y b] Hm; try discriminate;
      [reflexivity|].
    cbn [map] in Hm. inversion Hm as [[Hxy Hab]].
    apply Z_of_byte_inj in Hxy. subst. f_equal. now apply IH. }
  apply Hinj in E.
  rewrite <- (string_of_list_byte_of_string name).
  rewrite <- (string_of_list_byte_of_string "dps"). now rewrite E.
Qed.

(** The writes of the identifiers and of the time leave the ["dps"]
    entry as it is. *)
Lemma dps_after_ids (jd : list (str * json)) (i : str) (now : Z) :
  dict_get str_eqb
    (TuyaProtocol.set_if_present
       (TuyaProtocol.set_if_present
          (TuyaProtocol.set_if_present
             (TuyaProtocol.set_if_present jd "gwId" (JStr i))
             "devId" (JStr i))
          "uid" (JStr i))
       "t" (JStr (str_of_int now)))
    (s_lit "dps")
  = dict_get str_eqb jd (s_lit "dps").
Proof.
  rewrite !get_set_if_present_other; try reflexivity;
    apply s_lit_neq_dps; reflexivity.
Qed.

Lemma hexByte_SET (calls : list call) (dt : device_type) :
  hexByte (pd_get (run_calls calls PAYLOAD_DICT) dt SET) = 0x07.
Proof. rewrite hexByte_run_calls. destruct dt; reflexivity. Qed.

Lemma holds_dps_after_set (calls : list call) (now : Z) (d : json)
    (self : TuyaProtocol.t) :
  holds_dps
    (snd (TuyaProtocol._generate_payload now SET (Some d) self
            (run_calls calls PAYLOAD_DICT)))
    (TuyaProtocol.dev_type self) d.
Proof.
  rewrite generate_payload_store. unfold holds_dps.
  rewrite hexByte_pd_set_command, pd_get_set_command_same, hexByte_SET.
  split; [reflexivity|]. cbn [command]. unfold json_data_of. cbv zeta.
  rewrite hexByte_SET. cbn [Z.eqb Pos.eqb]. apply dict_get_set_same.
Qed.

Lemma holds_dps_call (c : call) (g : payload_dict) (dt : device_type)
    (d : json) :
  (call_command c = SET -> TuyaProtocol.dev_type (call_self c) = dt ->
   call_data c = None) ->
  holds_dps g dt d ->
  holds_dps
    (snd (TuyaProtocol._generate_payload (call_now c) (call_command c)
            (call_data c) (call_self c) g)) dt d.
Proof.
  intros Hc [Hhex Hdps]. rewrite generate_payload_store. unfold holds_dps.
  rewrite hexByte_pd_set_command. split; [exact Hhex|].
  destruct (call_command c) eqn:Ecmd;
    destruct (TuyaProtocol.dev_type (call_self c)) eqn:Edt; destruct dt;
    try (rewrite pd_get_set_command_other by discriminate; exact Hdps);
    rewrite pd_get_set_command_same; cbn [command];
    unfold json_data_of; cbv zeta; rewrite Edt, Hhex;
    rewrite (Hc eq_refl eq_refl); cbn [Z.eqb Pos.eqb];
    rewrite dps_after_ids; exact Hdps.
Qed.

Lemma holds_dps_run_calls (calls : list call) (g : payload_dict)
    (dt : device_type) (d : json) :
  Forall (fun c => call_command c = SET ->
                   TuyaProtocol.dev_type (call_self c) = dt ->
                   call_data c = None) calls ->
  holds_dps g dt d -> holds_dps (run_calls calls g) dt d.
Proof.
  intros H. revert g. induction H as [|c calls Hc _ IH]; intros g Hg;
    [exact Hg|].
  cbn [run_calls fold_left]. fold (run_calls calls).
  apply IH. now apply holds_dps_call.
Qed.

(** With the entry in place, leaving the data out or giving it again
    makes no difference. *)
Lemma generate_payload_leak (now : Z) (d : json) (self : TuyaProtocol.t)
    (g : payload_dict) :
  holds_dps g (TuyaProtocol.dev_type self) d ->
  TuyaProtocol._generate_payload now SET None self g
  = TuyaProtocol._generate_payload now SET (Some d) self g.
Proof.
  intros [Hhex Hdps]. unfold TuyaProtocol._generate_payload. cbv zeta.
  rewrite (dict_set_same _ (s_lit "dps") d); [reflexivity|].
  unfold command_of. rewrite dps_after_ids. exact Hdps.
Qed.

(** C10 (as amended) : [_generate_payload] writes into the shared
    template of the entry it uses.  After a call for SET with data [d]
    on a session of some device type, the SET template of that device
    type holds [d] under ["dps"], and keeps it through any later calls
    that are not themselves SET calls with data on that device type: a
    later call for SET without data, on the same or on any other
    session of that device type, produces exactly the frame it would
    produce if [d] were given to it. *)
Theorem shared_template_leak (calls between : list call)
    (s1 s2 : TuyaProtocol.t) (now1 now2 : Z) (d : json) :
  let g0 := run_calls calls PAYLOAD_DICT in
  let g1 := snd (TuyaProtocol._generate_payload now1 SET (Some d) s1 g0) in
  let g2 := run_calls between g1 in
  TuyaProtocol.dev_type s2 = TuyaProtocol.dev_type s1 ->
  Forall (fun c => call_command c = SET ->
                   TuyaProtocol.dev_type (call_self c)
                   = TuyaProtocol.dev_type s1 ->
                   call_data c = None) between ->
  command (pd_get g1 (TuyaProtocol.dev_type s1) SET)
  = json_data_of now1 SET (Some d) s1 g0 /\
  dict_get str_eqb (command (pd_get g2 (TuyaProtocol.dev_type s1) SET))
    (s_lit "dps") = Some d /\
  TuyaProtocol._generate_payload now2 SET None s2 g2
  = TuyaProtocol._generate_payload now2 SET (Some d) s2 g2.
Proof.
  intros g0 g1 g2 Hdt Hbetween.
  assert (H1 : holds_dps g1 (TuyaProtocol.dev_type s1) d)
    by apply holds_dps_after_set.
  assert (H2 : holds_dps g2 (TuyaProtocol.dev_type s1) d)
    by (apply holds_dps_run_calls; assumption).
  split; [|split].
  - unfold g1. rewrite generate_payload_store.
    now rewrite pd_get_set_command_same.
  - exact (proj2 H2).
  - apply generate_payload_leak. now rewrite Hdt.
Qed.

(** The theorem with two sessions of protocol 3.3 and a heartbeat of
    the first one in between. *)
Lemma shared_template_leak_witness :
  let s1 := demo_session TuyaProtocol.v3_3 type_0a in
  let s2 := TuyaProtocol.set_seqno (demo_session TuyaProtocol.v3_3 type_0a) 7 in
  let d := JObj [(s_lit "1", JBool true)] in
  let between := [mk_call s1 1604492810 HEARTBEAT None] in
  let g0 := run_calls [] PAYLOAD_DICT in
  let g1 := snd (TuyaProtocol._generate_payload 1604492800 SET (Some d) s1 g0) in
  let g2 := run_calls between g1 in
  TuyaProtocol.dev_type s2 = TuyaProtocol.dev_type s1 /\
  Forall (fun c => call_command c = SET ->
                   TuyaProtocol.dev_type (call_self c)
                   = TuyaProtocol.dev_type s1 ->
                   call_data c = None) between /\
  command (pd_get g1 (TuyaProtocol.dev_type s1) SET)
  = json_data_of 1604492800 SET (Some d) s1 g0 /\
  dict_get str_eqb (command (pd_get g2 (TuyaProtocol.dev_type s1) SET))
    (s_lit "dps") = Some d /\
  TuyaProtocol._generate_payload 1604492820 SET None s2 g2
  = TuyaProtocol._generate_payload 1604492820 SET (Some d) s2 g2.
Proof.
  intros s1 s2 d between g0 g1 g2.
  assert (H1 : TuyaProtocol.dev_type s2 = TuyaProtocol.dev_type s1)
    by reflexivity.
  assert (H2 : Forall (fun c => call_command c = SET ->
                   TuyaProtocol.dev_type (call_self c)
                   = TuyaProtocol.dev_type s1 ->
                   call_data c = None) between)
    by (repeat constructor).
  split; [exact H1|]. split; [exact H2|].
  exact (shared_template_leak [] between s1 s2 1604492800 1604492820 d H1 H2).
Defined.

(** The frame of a call depends on the store, not only on the session
    and the arguments: the same call gives one frame on the initial
    templates and another after the SET call of another session. *)
Lemma generate_payload_depends_on_store :
  let s1 := demo_session TuyaProtocol.v3_1 type_0a in
  let s2 := TuyaProtocol.set_seqno (demo_session TuyaProtocol.v3_1 type_0a) 7 in
  let d := JObj [(s_lit "1", JBool true)] in
  let g1 := snd (TuyaProtocol._generate_payload 1604492800 SET (Some d) s1
                   PAYLOAD_DICT) in
  fst (fst (TuyaProtocol._generate_payload 1604492820 SET None s2 g1))
  <> fst (fst (TuyaProtocol._generate_payload 1604492820 SET None s2
                 PAYLOAD_DICT)).
Proof. vm_compute. discriminate. Qed.

(** C10, as stated, fails for a session of the other device type: the
    SET call of a type-A session leaves the type-D template without
    ["dps"], and the SET frame of a type-D session is the one the
    initial templates give. *)
Lemma shared_template_leak_counterexample :
  let s1 := demo_session TuyaProtocol.v3_3 type_0a in
  let s2 := demo_session TuyaProtocol.v3_3 type_0d in
  let d := JObj [(s_lit "1", JBool true)] in
  let g1 := snd (TuyaProtocol._generate_payload 1604492800 SET (Some d) s1
                   PAYLOAD_DICT) in
  dict_get str_eqb (command (pd_get g1 type_0a SET)) (s_lit "dps") = Some d /\
  dict_get str_eqb (command (pd_get g1 type_0d SET)) (s_lit "dps") = None /\
  fst (fst (TuyaProtocol._generate_payload 1604492820 SET None s2 g1))
  = fst (fst (TuyaProtocol._generate_payload 1604492820 SET None s2
                PAYLOAD_DICT)) /\
  fst (fst (TuyaProtocol._generate_payload 1604492820 SET None s2 g1))
  <> fst (fst (TuyaProtocol._generate_payload 1604492820 SET (Some d) s2 g1)).
Proof.
  split; [vm_compute; reflexivity|]. split; [vm_compute; reflexivity|].
  split; [vm_compute; reflexivity|vm_compute; discriminate].
Qed.

(* ================================================================== *)
(** ** [exchange] *)

Lemma set_dispatcher_same (self : TuyaProtocol.t) :
  TuyaProtocol.set_dispatcher self (TuyaProtocol.dispatcher self) = self.
Proof. destruct self; reflexivity. Qed.

(** C9 : once a frame with a sequence number of at least [S] has been
    dispatched, [last_seqno] is at least [S], in the state [d] this
    leaves and in any later one; there [wait_for S] returns [None]
    without suspending and leaves the dispatcher as it is (no waiter,
    no semaphore), and an [exchange] whose frame has the sequence
    number [S] returns [None] right after writing its frame. *)
Theorem stale_sequence_guard {Env : Type}
    (listener : TuyaMessage -> Env -> result unit * Env)
    (json_loads : str -> result json)
    (msg : TuyaMessage) (d0 d : MessageDispatcher.t) (env : Env) (S : Z) :
  S <= seqno msg ->
  last_seqno (snd (fst (_dispatch listener msg d0 env))) <= last_seqno d ->
  S <= last_seqno d /\
  wait_for_start S d = (Returned PyNone, d) /\
  forall (now : Z) (command : command_name) (dps : option json)
         (self self1 : TuyaProtocol.t) (g g1 : payload_dict)
         (frame : bytes) (written : list bytes),
    TuyaProtocol._generate_payload now command dps self g
    = (Ok frame, self1, g1) ->
    TuyaProtocol.transport self1 = Some written ->
    TuyaProtocol.dispatcher self1 = d ->
    TuyaProtocol.seqno self1 - 1 = S ->
    TuyaProtocol.exchange_start json_loads now command dps self g
    = (TuyaProtocol.Returned TuyaProtocol.VNone,
       TuyaProtocol.set_transport self1 (Some (written ++ [frame])), g1).
Proof.
  intros Hmsg Hlater. rewrite dispatch_last_seqno in Hlater.
  assert (HS : S <= last_seqno d) by lia.
  split; [exact HS|]. split; [now apply wait_for_start_stale|].
  intros now command dps self self1 g g1 frame written Hgen Htr Hd Hseq.
  unfold TuyaProtocol.exchange_start. rewrite Hgen.
  unfold TuyaProtocol.transport_write. rewrite Htr.
  cbn [TuyaProtocol.set_transport TuyaProtocol.seqno TuyaProtocol.dispatcher].
  rewrite Hseq, Hd, wait_for_start_stale by exact HS.
  cbn [TuyaProtocol.exchange_finish]. f_equal. f_equal.
  rewrite <- Hd. destruct self1; reflexivity.
Qed.

(** The theorem after a status push numbered 5, for the first
    exchange of a session. *)
Lemma stale_sequence_guard_witness :
  let listener := fun (m : TuyaMessage) (log : list TuyaMessage) =>
                    (Ok tt, log ++ [m]) in
  let json_loads := fun _ : str => Ok JNull in
  let msg := mkTuyaMessage 5 8 0 [] 0 in
  let d := snd (fst (_dispatch listener msg init [])) in
  let self := TuyaProtocol.set_dispatcher
                (demo_session TuyaProtocol.v3_1 type_0a) d in
  0 <= seqno msg /\
  last_seqno (snd (fst (_dispatch listener msg init []))) <= last_seqno d /\
  0 <= last_seqno d /\
  wait_for_start 0 d = (Returned PyNone, d) /\
  exists frame self1 g1,
    TuyaProtocol._generate_payload 1604492800 STATUS None self PAYLOAD_DICT
    = (Ok frame, self1, g1) /\
    TuyaProtocol.exchange_start json_loads 1604492800 STATUS None self
      PAYLOAD_DICT
    = (TuyaProtocol.Returned TuyaProtocol.VNone,
       TuyaProtocol.set_transport self1 (Some ([] ++ [frame])), g1).
Proof.
  intros listener json_loads msg d self.
  assert (H1 : 0 <= seqno msg) by (simpl; lia).
  assert (H2 : last_seqno (snd (fst (_dispatch listener msg init [])))
               <= last_seqno d) by (simpl; lia).
  pose proof (stale_sequence_guard listener json_loads msg init d [] 0 H1 H2)
    as (H3 & H4 & H5).
  split; [exact H1|]. split; [exact H2|]. split; [exact H3|].
  split; [exact H4|].
  assert (H : exists frame self1 g1,
             TuyaProtocol._generate_payload 1604492800 STATUS None self
               PAYLOAD_DICT = (Ok frame, self1, g1)
             /\ TuyaProtocol.transport self1 = Some []
             /\ TuyaProtocol.dispatcher self1 = d
             /\ TuyaProtocol.seqno self1 - 1 = 0).
  { do 3 eexists. split; [vm_compute; reflexivity|].
    split; [reflexivity|]. split; reflexivity. }
  destruct H as (frame & self1 & g1 & Hg & Ht & Hd & Hs).
  exists frame, self1, g1. split; [exact Hg|].
  exact (H5 1604492800 STATUS None self self1 PAYLOAD_DICT g1 frame []
            Hg Ht Hd Hs).
Defined.

(** The end of [exchange] when the decoded text of a protocol 3.3
    response has the ["data unvalid"] mark: the device type flips, and
    what is returned is the coroutine object of the call
    [self.exchange(command, dps)], which has not run. *)
Lemma exchange_finish_flip (json_loads : str -> result json)
    (command : command_name) (dps : option json) (m : TuyaMessage)
    (self : TuyaProtocol.t) (text : str) :
  TuyaProtocol.version self = TuyaProtocol.v3_3 ->
  TuyaProtocol.dev_type self = type_0a ->
  len (payload m) <> 0 ->
  startswith PROTOCOL_VERSION_BYTES_31 (payload m) = false ->
  startswith PROTOCOL_VERSION_BYTES_33 (payload m) = false ->
  AESCipher.decrypt (TuyaProtocol.cipher self) (payload m) false = Ok text ->
  str_contains (s_lit "data unvalid") text = true ->
  TuyaProtocol.exchange_finish json_loads command dps type_0a (Msg m) self
  = (Ok (TuyaProtocol.VCoroutine command dps),
     TuyaProtocol.set_dev_type self type_0d).
Proof.
  intros Hv Hdt Hlen H31 H33 Hdec Hmark.
  unfold TuyaProtocol.exchange_finish, TuyaProtocol._decode_payload.
  apply Z.eqb_neq in Hlen. rewrite Hlen, H31, Hv. cbn [TuyaProtocol.is_v3_3].
  rewrite Hdt, H33. cbn [device_type_eqb negb orb]. rewrite Hdec, Hmark.
  reflexivity.
Qed.

(** C1 (the code at the scenario of the claim) : a type-A session of
    protocol 3.3 starts [exchange(STATUS)] and is suspended; the
    response to its frame decrypts to a text with the ["data unvalid"]
    mark.  When the exchange resumes, the device type has flipped to
    type-D and the caller is handed a coroutine object that was never
    started: one frame only has been written to the transport, the
    sequence counter has advanced once, and no second response is
    awaited or decoded. *)
Theorem exchange_fallback_not_awaited (json_loads : str -> result json) :
  let s0 := demo_session TuyaProtocol.v3_3 type_0a in
  exists k s1 g1 frame0 response s2 s3,
    TuyaProtocol.exchange_start json_loads 1604492800 STATUS None s0
      PAYLOAD_DICT = (TuyaProtocol.Waiting k, s1, g1) /\
    TuyaProtocol.transport s1 = Some [frame0] /\
    AESCipher.encrypt (TuyaProtocol.cipher s0)
      (b_lit "json obj data unvalid") false = Ok response /\
    TuyaProtocol.data_received json_loads
      (recv_frame (mkTuyaMessage 0 0x0A 0 response 0)) s1 = (Ok tt, s2) /\
    TuyaProtocol.exchange_resume json_loads k s2
    = Some (Ok (TuyaProtocol.VCoroutine STATUS None), s3) /\
    TuyaProtocol.dev_type s3 = type_0d /\
    TuyaProtocol.transport s3 = Some [frame0] /\
    TuyaProtocol.seqno s3 = 1 /\
    listeners (TuyaProtocol.dispatcher s3) = [].
Proof.
  intros s0. do 7 eexists.
  split; [vm_compute; reflexivity|].
  split; [vm_compute; reflexivity|].
  split; [vm_compute; reflexivity|].
  split; [vm_compute; reflexivity|].
  split; [vm_compute; reflexivity|].
  repeat split.
Qed.

(* ================================================================== *)
(** * Frame codec: sizes, errors, and what is not checked *)

Lemma uint32_ok_false (v : Z) : uint32_ok v = false <-> ~ 0 <= v < 2 ^ 32.
Proof.
  rewrite <- uint32_ok_iff. destruct (uint32_ok v); split; intros H;
    try reflexivity; try discriminate; try (intros H'; discriminate).
  exfalso. apply H. reflexivity.
Qed.

(** X1 [pack_message]: a frame is produced exactly when the sequence
    number, the command and the length field (payload length plus 8)
    fit 32 unsigned bits, and every failure is a [struct.error]; the
    frame has 24 bytes more than the payload, and its checksum and
    suffix never make packing fail.  The [retcode] and [crc] fields of
    the message are not used. *)
Theorem pack_message_fits (m : TuyaMessage) :
  pack_message m
  = if uint32_ok (seqno m) && uint32_ok (cmd m)
       && uint32_ok (len (payload m) + 8)
    then
      let header :=
        flat_map be32 [PREFIX_VALUE; seqno m; cmd m; len (payload m) + 8] in
      Ok (header ++ payload m
          ++ flat_map be32 [crc32 (header ++ payload m); SUFFIX_VALUE])
    else Raise StructError.
Proof.
  unfold pack_message. cbn [struct_pack].
  change (uint32_ok PREFIX_VALUE) with true. cbv iota.
  change (calcsize MESSAGE_END_FMT) with 8.
  destruct (uint32_ok (seqno m)); [|reflexivity].
  destruct (uint32_ok (cmd m)); [|reflexivity].
  destruct (uint32_ok (len (payload m) + 8)); [|reflexivity].
  cbn [bind andb]. cbv zeta.
  pose proof (crc32_range
                ((be32 PREFIX_VALUE ++ be32 (seqno m) ++ be32 (cmd m)
                  ++ be32 (len (payload m) + 8) ++ []) ++ payload m)) as Hc.
  apply uint32_ok_iff in Hc. rewrite Hc.
  change (uint32_ok SUFFIX_VALUE) with true. cbn [bind].
  cbn [flat_map]. rewrite <- !app_assoc. reflexivity.
Qed.

Lemma list_length5 {A} (l : list A) :
  length l = 5%nat -> exists a b c d e, l = [a; b; c; d; e].
Proof.
  destruct l as [|a [|b [|c [|d [|e [|f l]]]]]]; try discriminate.
  intros _. now exists a, b, c, d, e.
Qed.

Lemma list_length2 {A} (l : list A) :
  length l = 2%nat -> exists a b, l = [a; b].
Proof.
  destruct l as [|a [|b [|c l]]]; try discriminate.
  intros _. now exists a, b.
Qed.

(** [unpack_message] on a short and on a long enough input. *)
Lemma unpack_message_short (data : bytes) :
  len data < 20 -> unpack_message data = Raise StructError.
Proof.
  intros Hs. unfold unpack_message.
  change (calcsize MESSAGE_RECV_HEADER_FMT) with 20.
  rewrite slice_to_spec by lia. change (Z.to_nat 20) with 20%nat.
  rewrite firstn_all2 by (unfold len in Hs; lia).
  unfold struct_unpack.
  change (calcsize MESSAGE_RECV_HEADER_FMT) with 20.
  replace (len data =? 20) with false by (symmetry; apply Z.eqb_neq; lia).
  reflexivity.
Qed.

Lemma unpack_message_long (data : bytes) :
  20 <= len data ->
  exists m first length last,
    unpack_message data = Ok m /\
    unpack_words 5 data
    = Some [first; seqno m; cmd m; length; retcode m] /\
    unpack_words 2 (slice_from data (- (8))) = Some [crc m; last] /\
    payload m = slice data 20 (- (8)).
Proof.
  intros Hl.
  assert (Hn : (20 <= length data)%nat) by (unfold len in Hl; lia).
  destruct (unpack_words_length 5 data ltac:(lia)) as (hd & Ehd & Lhd).
  destruct (list_length5 hd Lhd) as (w0 & w1 & w2 & w3 & w4 & ->).
  assert (Ltl : length (slice_from data (- (8))) = 8%nat).
  { rewrite slice_from_neg by lia. change (Z.to_nat 8) with 8%nat.
    rewrite length_skipn. lia. }
  destruct (unpack_words_length 2 (slice_from data (- (8))) ltac:(lia))
    as (tl & Etl & Ltl2).
  destruct (list_length2 tl Ltl2) as (c & l & ->).
  exists (mkTuyaMessage w1 w2 w4 (slice data 20 (- (8))) c), w0, w3, l.
  split; [|split; [exact Ehd|split; [exact Etl|reflexivity]]].
  unfold unpack_message.
  change (calcsize MESSAGE_RECV_HEADER_FMT) with 20.
  change (calcsize MESSAGE_END_FMT) with 8.
  unfold struct_unpack.
  rewrite slice_to_spec by lia. change (Z.to_nat 20) with 20%nat.
  replace (len (firstn 20 data) =? calcsize MESSAGE_RECV_HEADER_FMT) with true.
  2:{ symmetry. apply Z.eqb_eq. unfold len. rewrite length_firstn.
      change (calcsize MESSAGE_RECV_HEADER_FMT) with 20. lia. }
  change MESSAGE_RECV_HEADER_FMT with 5%nat.
  rewrite (unpack_words_firstn 5 20 data _ ltac:(lia) Ehd). cbn [bind].
  replace (len (slice_from data (- (8))) =? calcsize MESSAGE_END_FMT) with true.
  2:{ symmetry. apply Z.eqb_eq. unfold len. rewrite Ltl. reflexivity. }
  change MESSAGE_END_FMT with 2%nat.
  rewrite Etl. reflexivity.
Qed.

(** X2 [unpack_message]: on fewer than 20 bytes it raises
    [struct.error]; on 20 bytes or more it always returns a message,
    whose sequence number, command and return code are the second,
    third and fifth big-endian words, whose checksum is the word 8
    bytes before the end and whose payload is [data[20:-8]].  The first
    word, the length word and the last word are read and dropped:
    prefix, length, checksum and suffix are not verified. *)
Theorem unpack_message_length (data : bytes) :
  (len data < 20 /\ unpack_message data = Raise StructError)
  \/ (20 <= len data /\
      exists m first length last,
        unpack_message data = Ok m /\
        unpack_words 5 data
        = Some [first; seqno m; cmd m; length; retcode m] /\
        unpack_words 2 (slice_from data (- (8))) = Some [crc m; last] /\
        payload m = slice data 20 (- (8))).
Proof.
  destruct (Z.ltb_spec (len data) 20) as [Hs|Hl]; [left|right].
  - split; [exact Hs|]. now apply unpack_message_short.
  - split; [exact Hl|]. now apply unpack_message_long.
Qed.

(** ** Frames with any first and last word *)

Section WireFrame.
Variables (first last : Z) (m : TuyaMessage).
Hypothesis Hfirst : 0 <= first < 2 ^ 32.
Hypothesis Hlast : 0 <= last < 2 ^ 32.
Hypothesis Hm : frame_ok m.

Lemma wire_words :
  Forall (fun v => 0 <= v < 2 ^ 32)
    [first; seqno m; cmd m; len (payload m) + 12; retcode m] /\
  Forall (fun v => 0 <= v < 2 ^ 32) [crc m; last].
Proof.
  destruct Hm as (Hs & Hc & Hr & Hcrc & Hl).
  pose proof (len_nonneg (payload m)) as Hp.
  split; repeat constructor; lia.
Qed.

Lemma wire_frame_length :
  length (wire_frame first last m) = (28 + length (payload m))%nat.
Proof.
  unfold wire_frame. rewrite !length_app, !length_flat_map_be32. simpl. lia.
Qed.

Lemma unpack_message_wire_frame :
  unpack_message (wire_frame first last m) = Ok m.
Proof.
  pose (hd := [first; seqno m; cmd m; len (payload m) + 12; retcode m]).
  pose (tl := [crc m; last]).
  destruct wire_words as (Fhd & Ftl). fold hd in Fhd. fold tl in Ftl.
  assert (Lhd : length (flat_map be32 hd) = 20%nat) by reflexivity.
  assert (Ltl : length (flat_map be32 tl) = 8%nat) by reflexivity.
  assert (Eframe : wire_frame first last m
                   = flat_map be32 hd ++ payload m ++ flat_map be32 tl)
    by reflexivity.
  destruct (unpack_message_long (wire_frame first last m))
    as (m' & w0 & w3 & l & E & E5 & E2 & Ep).
  { unfold len. rewrite wire_frame_length. lia. }
  rewrite E. f_equal.
  rewrite Eframe in E5.
  rewrite (unpack_words_flat_map hd _ Fhd) in E5.
  assert (Etail : slice_from (wire_frame first last m) (- (8))
                  = flat_map be32 tl ++ []).
  { rewrite slice_from_neg by lia. change (Z.to_nat 8) with 8%nat.
    rewrite Eframe, app_assoc, app_nil_r.
    replace (length ((flat_map be32 hd ++ payload m) ++ flat_map be32 tl) - 8)%nat
      with (length (flat_map be32 hd ++ payload m))
      by (rewrite !length_app, Ltl; lia).
    now rewrite skipn_app, skipn_all, Nat.sub_diag. }
  rewrite Etail in E2.
  rewrite (unpack_words_flat_map tl _ Ftl) in E2.
  assert (Epay : slice (wire_frame first last m) 20 (- (8)) = payload m).
  { rewrite slice_neg_stop by lia.
    change (Z.to_nat 8) with 8%nat. change (Z.to_nat 20) with 20%nat.
    rewrite Eframe, skipn_app, Lhd. rewrite skipn_all2 by lia.
    cbn [app Nat.sub skipn]. rewrite !length_app, Lhd, Ltl.
    replace (20 + (length (payload m) + 8) - 8 - 20)%nat
      with (length (payload m)) by lia.
    now rewrite firstn_app, firstn_all, Nat.sub_diag, firstn_O, app_nil_r. }
  rewrite Epay in Ep. unfold hd, tl in E5, E2.
  injection E5 as _ H1 H2 _ H4. injection E2 as H5 _.
  destruct m, m'; cbn in *. congruence.
Qed.

Lemma next_frame_wire_frame (rest : bytes) :
  next_frame (wire_frame first last m ++ rest) = Some (m, rest).
Proof.
  pose (hd := [first; seqno m; cmd m; len (payload m) + 12; retcode m]).
  pose (tl := [crc m; last]).
  destruct wire_words as (Fhd & Ftl). fold hd in Fhd. fold tl in Ftl.
  destruct Hm as (Hs & Hc & Hr & Hcrc & Hl).
  pose proof (len_nonneg (payload m)) as Hp.
  assert (Lhd : length (flat_map be32 hd) = 20%nat) by reflexivity.
  assert (Ltl : length (flat_map be32 tl) = 8%nat) by reflexivity.
  assert (Eframe : wire_frame first last m ++ rest
                   = flat_map be32 hd ++ payload m ++ flat_map be32 tl ++ rest).
  { unfold wire_frame. now rewrite <- !app_assoc. }
  assert (E5 : unpack_words 5 (wire_frame first last m ++ rest) = Some hd).
  { rewrite Eframe. apply (unpack_words_flat_map hd _ Fhd). }
  assert (Esk8 : skipn (Z.to_nat (8 + (len (payload m) + 12)))
                   (wire_frame first last m ++ rest) = flat_map be32 tl ++ rest).
  { rewrite Eframe, app_assoc.
    replace (Z.to_nat (8 + (len (payload m) + 12)))
      with (length (flat_map be32 hd ++ payload m))
      by (rewrite length_app, Lhd; unfold len; lia).
    rewrite skipn_app, skipn_all, Nat.sub_diag. reflexivity. }
  assert (E2 : unpack_words 2 (flat_map be32 tl ++ rest) = Some tl).
  { apply (unpack_words_flat_map tl _ Ftl). }
  assert (Epay : firstn (Z.to_nat (len (payload m) + 12 - 12))
                   (skipn 20 (wire_frame first last m ++ rest)) = payload m).
  { rewrite Eframe, skipn_app, Lhd. rewrite skipn_all2 by lia.
    cbn [app Nat.sub skipn]. rewrite firstn_app.
    replace (Z.to_nat (len (payload m) + 12 - 12)) with (length (payload m))
      by (unfold len; lia).
    now rewrite firstn_all, Nat.sub_diag, firstn_O, app_nil_r. }
  assert (Erest : skipn (Z.to_nat (16 + (len (payload m) + 12)))
                    (wire_frame first last m ++ rest) = rest).
  { rewrite Eframe.
    rewrite (app_assoc (flat_map be32 hd)), (app_assoc _ (flat_map be32 tl)).
    replace (Z.to_nat (16 + (len (payload m) + 12)))
      with (length ((flat_map be32 hd ++ payload m) ++ flat_map be32 tl)).
    - rewrite skipn_app, skipn_all, Nat.sub_diag. reflexivity.
    - rewrite !length_app, Lhd, Ltl. unfold len. lia. }
  unfold next_frame.
  replace (len (wire_frame first last m ++ rest) <? 20) with false.
  2:{ symmetry. apply Z.ltb_ge. unfold len.
      rewrite length_app, wire_frame_length. lia. }
  rewrite E5. unfold hd. cbv iota.
  replace (len (wire_frame first last m ++ rest) - 16 <? len (payload m) + 12)
    with false.
  2:{ symmetry. apply Z.ltb_ge. unfold len.
      rewrite length_app, wire_frame_length. lia. }
  rewrite Esk8, E2. unfold tl. cbv iota. rewrite Epay, Erest.
  destruct m; reflexivity.
Qed.
End WireFrame.

(** X3 One complete received frame: [unpack_message] returns its
    fields, and [add_data], on an empty buffer, dispatches exactly that
    message and leaves the buffer empty; both whatever the first word
    (the prefix), the last word (the suffix) and the checksum field of
    the frame are.  Neither the codec nor the dispatcher validates
    them. *)
Theorem frame_not_validated {Env : Type}
    (listener : TuyaMessage -> Env -> result unit * Env)
    (first last : Z) (m : TuyaMessage) (self : t) (env : Env) :
  0 <= first < 2 ^ 32 -> 0 <= last < 2 ^ 32 -> frame_ok m ->
  buffer self = [] ->
  unpack_message (wire_frame first last m) = Ok m /\
  add_data listener (wire_frame first last m) self env
  = _dispatch listener m self env.
Proof.
  intros Hf Hl Hm Hb. split; [now apply unpack_message_wire_frame|].
  rewrite add_data_run, run_unfold. cbn [buffer set_buffer].
  rewrite Hb. cbn [app].
  rewrite <- (app_nil_r (wire_frame first last m)).
  rewrite next_frame_wire_frame by assumption.
  rewrite set_buffer_set_buffer. rewrite <- Hb, set_buffer_same.
  pose proof (dispatch_buffer listener m self env) as Hbuf.
  destruct (_dispatch listener m self env) as [[r self1] env1] eqn:Ed.
  cbn [fst snd] in Hbuf. unfold after_dispatch.
  destruct r as [[]|e]; [|reflexivity].
  apply run_idle. rewrite Hbuf, Hb. reflexivity.
Qed.

Lemma frame_not_validated_witness :
  let listener := fun (m : TuyaMessage) (log : list TuyaMessage) =>
                    (Ok tt, log ++ [m]) in
  let m := mkTuyaMessage 3 8 0 (b_lit "{}") 0 in
  unpack_message (wire_frame 0xDEADBEEF 0 m) = Ok m /\
  add_data listener (wire_frame 0xDEADBEEF 0 m) init []
  = (Ok tt, set_last_seqno init 3, [m]).
Proof.
  assert (H1 : 0 <= 0xDEADBEEF < 2 ^ 32) by lia.
  assert (H2 : 0 <= 0 < 2 ^ 32) by lia.
  assert (H3 : frame_ok (mkTuyaMessage 3 8 0 (b_lit "{}") 0)).
  { unfold frame_ok, len. cbn. lia. }
  exact (frame_not_validated
           (fun (m : TuyaMessage) (log : list TuyaMessage) => (Ok tt, log ++ [m]))
           0xDEADBEEF 0 (mkTuyaMessage 3 8 0 (b_lit "{}") 0) init []
           H1 H2 H3 eq_refl).
Defined.

(* ================================================================== *)
(** * UTF-8: an encoded text decodes back to itself *)

Lemma utf8_decode_1 (b : byte) (r : bytes) :
  Z_of_byte b < 0x80 ->
  utf8_decode (b :: r) = (rest <- utf8_decode r ;; Ok (Z_of_byte b :: rest)).
Proof.
  intros H. cbn [utf8_decode]. cbv zeta.
  now replace (Z_of_byte b <? 128) with true by (symmetry; apply Z.ltb_lt; lia).
Qed.

Lemma utf8_decode_2 (b0 b1 : byte) (r : bytes) :
  0xC2 <= Z_of_byte b0 <= 0xDF -> 0x80 <= Z_of_byte b1 <= 0xBF ->
  utf8_decode (b0 :: b1 :: r)
  = (rest <- utf8_decode r ;;
     Ok (((Z_of_byte b0 - 0xC0) * 64 + cont_bits b1) :: rest)).
Proof.
  intros H0 H1. cbn [utf8_decode]. cbv zeta. unfold is_cont.
  decide_tests. reflexivity.
Qed.

Lemma utf8_decode_3 (b0 b1 b2 : byte) (r : bytes) :
  0xE0 <= Z_of_byte b0 <= 0xEF ->
  0x80 <= Z_of_byte b1 <= 0xBF -> 0x80 <= Z_of_byte b2 <= 0xBF ->
  (Z_of_byte b0 = 0xE0 -> 0xA0 <= Z_of_byte b1) ->
  (Z_of_byte b0 = 0xED -> Z_of_byte b1 < 0xA0) ->
  utf8_decode (b0 :: b1 :: b2 :: r)
  = (rest <- utf8_decode r ;;
     Ok (((Z_of_byte b0 - 0xE0) * 4096 + cont_bits b1 * 64 + cont_bits b2)
         :: rest)).
Proof.
  intros H0 H1 H2 Ha Hb. cbn [utf8_decode]. cbv zeta. unfold is_cont.
  decide_tests.
  replace ((Z_of_byte b0 =? 224) && (Z_of_byte b1 <? 160)) with false.
  2:{ symmetry. apply andb_false_iff.
      destruct (Z.eqb_spec (Z_of_byte b0) 224) as [E|E]; [right|now left].
      apply Z.ltb_ge. auto. }
  replace ((Z_of_byte b0 =? 237) && (160 <=? Z_of_byte b1)) with false.
  2:{ symmetry. apply andb_false_iff.
      destruct (Z.eqb_spec (Z_of_byte b0) 237) as [E|E]; [right|now left].
      apply Z.leb_gt. auto. }
  reflexivity.
Qed.

Lemma utf8_decode_4 (b0 b1 b2 b3 : byte) (r : bytes) :
  0xF0 <= Z_of_byte b0 <= 0xF4 ->
  0x80 <= Z_of_byte b1 <= 0xBF -> 0x80 <= Z_of_byte b2 <= 0xBF ->
  0x80 <= Z_of_byte b3 <= 0xBF ->
  (Z_of_byte b0 = 0xF0 -> 0x90 <= Z_of_byte b1) ->
  (Z_of_byte b0 = 0xF4 -> Z_of_byte b1 < 0x90) ->
  utf8_decode (b0 :: b1 :: b2 :: b3 :: r)
  = (rest <- utf8_decode r ;;
     Ok (((Z_of_byte b0 - 0xF0) * 262144 + cont_bits b1 * 4096
          + cont_bits b2 * 64 + cont_bits b3) :: rest)).
Proof.
  intros H0 H1 H2 H3 Ha Hb. cbn [utf8_decode]. cbv zeta. unfold is_cont.
  decide_tests.
  replace ((Z_of_byte b0 =? 240) && (Z_of_byte b1 <? 144)) with false.
  2:{ symmetry. apply andb_false_iff.
      destruct (Z.eqb_spec (Z_of_byte b0) 240) as [E|E]; [right|now left].
      apply Z.ltb_ge. auto. }
  replace ((Z_of_byte b0 =? 244) && (144 <=? Z_of_byte b1)) with false.
  2:{ symmetry. apply andb_false_iff.
      destruct (Z.eqb_spec (Z_of_byte b0) 244) as [E|E]; [right|now left].
      apply Z.leb_gt. auto. }
  reflexivity.
Qed.

Lemma utf8_decode_encode (s : str) :
  forall p, utf8_encode s = Ok p -> utf8_decode p = Ok s.
Proof.
  induction s as [|c s IH]; intros p H.
  { inversion H. reflexivity. }
  cbn [utf8_encode] in H.
  destruct (utf8_encode_char c) as [b|] eqn:Ec; [|discriminate].
  destruct (utf8_encode s) as [rest|] eqn:Es; [|discriminate].
  cbn [bind] in H. injection H as <-.
  specialize (IH rest eq_refl).
  unfold utf8_encode_char in Ec.
  destruct ((c <? 0) || (1114111 <? c)) eqn:T0; [discriminate|].
  apply orb_false_iff in T0. destruct T0 as [T0 T0'].
  apply Z.ltb_ge in T0, T0'.
  destruct (c <? 128) eqn:T1.
  { apply Z.ltb_lt in T1. injection Ec as <-. cbn [app].
    rewrite (utf8_decode_1 (byte_of_Z c))
      by (rewrite Z_of_byte_of_Z_small; lia).
    rewrite IH. cbn [bind]. rewrite Z_of_byte_of_Z_small by lia. reflexivity. }
  apply Z.ltb_ge in T1.
  destruct (c <? 2048) eqn:T2.
  { apply Z.ltb_lt in T2. injection Ec as <-. cbn [app].
    assert (E0 : Z_of_byte (byte_of_Z (192 + c / 64)) = 192 + c / 64).
    { apply Z_of_byte_of_Z_small. Z.div_mod_to_equations. lia. }
    assert (E1 : Z_of_byte (byte_of_Z (128 + c mod 64)) = 128 + c mod 64).
    { apply Z_of_byte_of_Z_small. Z.div_mod_to_equations. lia. }
    rewrite (utf8_decode_2 (byte_of_Z (192 + c / 64))
               (byte_of_Z (128 + c mod 64)))
      by (rewrite ?E0, ?E1; Z.div_mod_to_equations; lia).
    rewrite IH. cbn [bind]. unfold cont_bits. rewrite E0, E1.
    do 2 f_equal. Z.div_mod_to_equations. lia. }
  apply Z.ltb_ge in T2.
  destruct ((55296 <=? c) && (c <=? 57343)) eqn:T3; [discriminate|].
  assert (Hsur : c < 55296 \/ 57343 < c).
  { apply andb_false_iff in T3. destruct T3 as [T3|T3];
      [left; now apply Z.leb_gt in T3|right; now apply Z.leb_gt in T3]. }
  destruct (c <? 65536) eqn:T4.
  { apply Z.ltb_lt in T4. injection Ec as <-. cbn [app].
    assert (E0 : Z_of_byte (byte_of_Z (224 + c / 4096)) = 224 + c / 4096).
    { apply Z_of_byte_of_Z_small. Z.div_mod_to_equations. lia. }
    assert (E1 : Z_of_byte (byte_of_Z (128 + (c / 64) mod 64))
                 = 128 + (c / 64) mod 64).
    { apply Z_of_byte_of_Z_small. Z.div_mod_to_equations. lia. }
    assert (E2 : Z_of_byte (byte_of_Z (128 + c mod 64)) = 128 + c mod 64).
    { apply Z_of_byte_of_Z_small. Z.div_mod_to_equations. lia. }
    rewrite (utf8_decode_3 (byte_of_Z (224 + c / 4096))
               (byte_of_Z (128 + (c / 64) mod 64)) (byte_of_Z (128 + c mod 64)))
      by (rewrite ?E0, ?E1, ?E2; Z.div_mod_to_equations; lia).
    rewrite IH. cbn [bind]. unfold cont_bits. rewrite E0, E1, E2.
    do 2 f_equal. Z.div_mod_to_equations. lia. }
  apply Z.ltb_ge in T4.
  injection Ec as <-. cbn [app].
  assert (E0 : Z_of_byte (byte_of_Z (240 + c / 262144)) = 240 + c / 262144).
  { apply Z_of_byte_of_Z_small. Z.div_mod_to_equations. lia. }
  assert (E1 : Z_of_byte (byte_of_Z (128 + (c / 4096) mod 64))
               = 128 + (c / 4096) mod 64).
  { apply Z_of_byte_of_Z_small. Z.div_mod_to_equations. lia. }
  assert (E2 : Z_of_byte (byte_of_Z (128 + (c / 64) mod 64))
               = 128 + (c / 64) mod 64).
  { apply Z_of_byte_of_Z_small. Z.div_mod_to_equations. lia. }
  assert (E3 : Z_of_byte (byte_of_Z (128 + c mod 64)) = 128 + c mod 64).
  { apply Z_of_byte_of_Z_small. Z.div_mod_to_equations. lia. }
  rewrite (utf8_decode_4 (byte_of_Z (240 + c / 262144))
             (byte_of_Z (128 + (c / 4096) mod 64))
             (byte_of_Z (128 + (c / 64) mod 64)) (byte_of_Z (128 + c mod 64)))
    by (rewrite ?E0, ?E1, ?E2, ?E3; Z.div_mod_to_equations; lia).
  rewrite IH. cbn [bind]. unfold cont_bits. rewrite E0, E1, E2, E3.
  do 2 f_equal. Z.div_mod_to_equations. lia.
Qed.

(* ================================================================== *)
(** * [AESCipher]: edge cases and key sizes *)

Lemma skipn_last {A} (s : list A) (d : A) :
  s <> [] -> skipn (length s - 1) s = [last s d].
Proof.
  intros Hs. rewrite (app_removelast_last d Hs) at 1 2.
  rewrite length_app. cbn [length].
  replace (length (removelast s) + 1 - 1)%nat with (length (removelast s)) by lia.
  now rewrite skipn_app, skipn_all, Nat.sub_diag.
Qed.

(** X4 [_unpad]: on the empty [bytes] it raises [TypeError] (the
    [ord] of an empty slice); on any other input it returns, without
    looking at the pad bytes, the input less as many trailing bytes as
    the value [n] of its last byte says: nothing is left when [n]
    exceeds the length, and nothing is left either when [n] is 0, since
    [s[:-0]] is [s[:0]]. *)
Theorem unpad_total (s : bytes) :
  AESCipher._unpad s
  = match s with
    | [] => Raise TypeError
    | _ :: _ =>
        let n := Z_of_byte (last s x00) in
        Ok (if n =? 0 then [] else firstn (length s - Z.to_nat n) s)
    end.
Proof.
  destruct s as [|b s']; [reflexivity|].
  set (s := b :: s'). assert (Hs : s <> []) by discriminate.
  unfold AESCipher._unpad.
  rewrite slice_from_spec by (unfold len, s; simpl length; lia).
  replace (Z.to_nat (len s - 1)) with (length s - 1)%nat
    by (unfold len, s; simpl length; lia).
  rewrite (skipn_last s x00 Hs). cbn [AESCipher.ord bind]. cbv zeta.
  pose proof (Z_of_byte_range (last s x00)) as Hr.
  f_equal. destruct (Z.eqb_spec (Z_of_byte (last s x00)) 0) as [E|E].
  - rewrite E. reflexivity.
  - apply slice_to_neg. lia.
Qed.

(** Encryption followed by decryption, for any cipher object. *)
Lemma decrypt_encrypt_bs (self : AESCipher.t) (p : bytes) (use_base64 : bool) :
  AESCipher.bs self = 16 ->
  exists enc,
    AESCipher.encrypt self p use_base64 = Ok enc /\
    AESCipher.decrypt self enc use_base64 = utf8_decode p.
Proof.
  intros Hbs.
  destruct (encrypt_spec self p use_base64 Hbs) as (out & Eecb & L & E).
  eexists. split; [exact E|].
  unfold AESCipher.decrypt.
  assert (Ed : (if use_base64
                then b64decode (if use_base64 then b64encode out else out)
                else Ok (if use_base64 then b64encode out else out)) = Ok out).
  { destruct use_base64; [apply b64decode_b64encode|reflexivity]. }
  rewrite Ed. cbn [bind].
  rewrite (ecb_decrypt_encrypt _ _ _ Eecb). cbn [bind].
  pose proof (padnum_range p).
  rewrite unpad_pad by lia. reflexivity.
Qed.

(** X5 [AESCipher.__init__] accepts keys of 16, 24 and 32 bytes and
    raises [ValueError] on every other length; with any accepted key,
    and in both variants, [encrypt] raises nothing and [decrypt] of its
    output is the UTF-8 decoding of the plaintext: when the plaintext
    is the UTF-8 encoding of a text, [decrypt] returns that text. *)
Theorem cipher_key_sizes (key p : bytes) (use_base64 : bool) :
  if (len key =? 16) || (len key =? 24) || (len key =? 32)
  then exists self enc,
         AESCipher.init key = Ok self /\
         AESCipher.encrypt self p use_base64 = Ok enc /\
         AESCipher.decrypt self enc use_base64 = utf8_decode p /\
         forall text, utf8_encode text = Ok p ->
                      AESCipher.decrypt self enc use_base64 = Ok text
  else AESCipher.init key = Raise ValueError.
Proof.
  unfold AESCipher.init, Cipher_AES_ECB.
  destruct ((len key =? 16) || (len key =? 24) || (len key =? 32));
    [|reflexivity].
  cbn [bind].
  destruct (decrypt_encrypt_bs (AESCipher.mk 16 (key_expansion key)) p
              use_base64 eq_refl) as (enc & E & D).
  exists (AESCipher.mk 16 (key_expansion key)), enc.
  repeat split; try assumption.
  intros text Ht. rewrite D. now apply utf8_decode_encode.
Qed.

Lemma blocks_of_bytes_ragged (l : bytes) :
  (length l mod 16 <> 0)%nat -> blocks_of_bytes l = None.
Proof.
  remember (length l) as n eqn:Hn. revert l Hn.
  induction n as [n IH] using lt_wf_ind. intros l Hn H.
  destruct l as [|x0 l]; [subst n; simpl in H; contradiction|].
  do 15 (destruct l as [|? l]; [reflexivity|]).
  cbn [blocks_of_bytes].
  rewrite (IH (length l)); [reflexivity|subst n; simpl; lia|reflexivity|].
  subst n. cbn [length] in H.
  replace (S (S (S (S (S (S (S (S (S (S (S (S (S (S (S (S (length l)))))))))))))))))
    with (length l + 1 * 16)%nat in H by lia.
  now rewrite Nat.Div0.mod_add in H.
Qed.

(** X6 [decrypt]: the empty ciphertext raises [TypeError] in both
    variants (nothing to take the pad count from), and in the raw
    variant a ciphertext that is not a whole number of 16-byte blocks
    raises [ValueError]. *)
Theorem decrypt_rejects (self : AESCipher.t) (enc : bytes) :
  len enc mod 16 <> 0 ->
  AESCipher.decrypt self enc false = Raise ValueError /\
  AESCipher.decrypt self [] false = Raise TypeError /\
  AESCipher.decrypt self [] true = Raise TypeError.
Proof.
  intros H. split; [|split; reflexivity].
  unfold AESCipher.decrypt, ecb_decrypt. cbn [bind].
  rewrite blocks_of_bytes_ragged; [reflexivity|].
  unfold len in H. intros E. apply H.
  change 16 with (Z.of_nat 16). rewrite <- Nat2Z.inj_mod, E. reflexivity.
Qed.

Lemma decrypt_rejects_witness :
  let self := AESCipher.mk 16 (key_expansion (b_lit "0123456789abcdef")) in
  AESCipher.decrypt self (b_lit "0123456789abcdefX") false = Raise ValueError /\
  AESCipher.decrypt self [] false = Raise TypeError /\
  AESCipher.decrypt self [] true = Raise TypeError.
Proof.
  assert (H : len (b_lit "0123456789abcdefX") mod 16 <> 0)
    by (vm_compute; discriminate).
  exact (decrypt_rejects
           (AESCipher.mk 16 (key_expansion (b_lit "0123456789abcdef")))
           (b_lit "0123456789abcdefX") H).
Defined.

Lemma blocks_of_bytes_app (bs : list block) (rest : bytes) :
  blocks_of_bytes (bytes_of_blocks bs ++ rest)
  = option_map (app bs) (blocks_of_bytes rest).
Proof.
  induction bs as [|b bs IH].
  - cbn. destruct (blocks_of_bytes rest); reflexivity.
  - destruct b as [[[[[[a0 a1] a2] a3] [[[b0 b1] b2] b3]]
                    [[[c0 c1] c2] c3]] [[[d0 d1] d2] d3]].
    unfold bytes_of_blocks in *.
    cbn [map concat bytes_of_block bytes_of_word app].
    cbn [blocks_of_bytes]. rewrite IH.
    destruct (blocks_of_bytes rest); reflexivity.
Qed.

Lemma padnum_of_app (a b : bytes) :
  len a mod 16 = 0 -> padnum_of (a ++ b) = padnum_of b.
Proof.
  intros H. unfold padnum_of. rewrite len_app.
  f_equal. rewrite Z.add_mod by lia. rewrite H, Z.add_0_l.
  apply Z.mod_mod. lia.
Qed.

(** X7 Electronic-codebook mode: when [a] is a whole number of
    16-byte blocks, the raw [encrypt] of [a + b] is the block-by-block
    encryption of [a], which has the length of [a] and does not depend
    on [b], followed by the raw [encrypt] of [b] alone. *)
Theorem encrypt_blockwise (self : AESCipher.t) (a b : bytes) :
  AESCipher.bs self = 16 -> len a mod 16 = 0 ->
  exists ca cb,
    ecb_encrypt (AESCipher.cipher self) a = Ok ca /\
    len ca = len a /\
    AESCipher.encrypt self b false = Ok cb /\
    AESCipher.encrypt self (a ++ b) false = Ok (ca ++ cb).
Proof.
  intros Hbs Ha.
  assert (La : length a = (16 * (length a / 16))%nat).
  { unfold len in Ha. change 16 with (Z.of_nat 16) in Ha.
    rewrite <- Nat2Z.inj_mod in Ha.
    pose proof (Nat.div_mod_eq (length a) 16). lia. }
  destruct (blocks_of_bytes_total _ a La) as (bs & Ebs & Bbs & _).
  destruct (encrypt_spec self b false Hbs) as (cb & Eb & Lb & Eeb).
  exists (bytes_of_blocks (map (cipher (AESCipher.cipher self)) bs)), cb.
  split; [unfold ecb_encrypt; now rewrite Ebs|].
  split.
  { unfold len. rewrite length_bytes_of_blocks, length_map.
    rewrite <- Bbs. now rewrite length_bytes_of_blocks. }
  split; [exact Eeb|].
  unfold AESCipher.encrypt. rewrite pad_spec by assumption. cbn [bind].
  rewrite padnum_of_app by assumption. rewrite <- app_assoc.
  unfold ecb_encrypt in *. rewrite <- Bbs at 1. rewrite blocks_of_bytes_app.
  destruct (blocks_of_bytes
              (b ++ repeat (byte_of_Z (padnum_of b)) (Z.to_nat (padnum_of b))))
    as [bb|]; [|discriminate].
  cbn [option_map bind]. inversion Eb; subst cb.
  unfold bytes_of_blocks. now rewrite map_app, map_app, concat_app.
Qed.

Lemma encrypt_blockwise_witness :
  let self := AESCipher.mk 16 (key_expansion (b_lit "0123456789abcdef")) in
  let a := b_lit "0123456789abcdef" in
  let b := b_lit "{}" in
  exists ca cb,
    ecb_encrypt (AESCipher.cipher self) a = Ok ca /\
    len ca = len a /\
    AESCipher.encrypt self b false = Ok cb /\
    AESCipher.encrypt self (a ++ b) false = Ok (ca ++ cb).
Proof.
  assert (H : len (b_lit "0123456789abcdef") mod 16 = 0)
    by (vm_compute; reflexivity).
  exact (encrypt_blockwise
           (AESCipher.mk 16 (key_expansion (b_lit "0123456789abcdef")))
           (b_lit "0123456789abcdef") (b_lit "{}") eq_refl H).
Defined.

(* ================================================================== *)
(** * [MessageDispatcher]: the life of a registration *)

Ltac simpl_state :=
  cbn [set_semaphores set_listeners set_last_seqno set_buffer release
       semaphores buffer listeners last_seqno].

Lemma dict_mem_false {V} (d : list (Z * V)) (k : Z) :
  dict_mem Z.eqb d k = false -> ~ In k (map fst d).
Proof.
  unfold dict_mem. intros H Hin.
  destruct (dict_get_in d k Hin) as (v & E & _). now rewrite E in H.
Qed.

Lemma dict_get_new {V} (d : list (Z * V)) (k : Z) (v : V) :
  ~ In k (map fst d) -> dict_get Z.eqb (d ++ [(k, v)]) k = Some v.
Proof.
  intros H. rewrite dict_get_app_notin by assumption.
  cbn [dict_get]. now rewrite Z.eqb_refl.
Qed.

Lemma dict_set_new {V} (d : list (Z * V)) (k : Z) (v v' : V) :
  ~ In k (map fst d) -> dict_set Z.eqb (d ++ [(k, v)]) k v' = d ++ [(k, v')].
Proof.
  intros H. rewrite dict_set_app_notin by assumption.
  cbn [dict_set]. now rewrite Z.eqb_refl.
Qed.

Lemma dict_del_new {V} (d : list (Z * V)) (k : Z) (v : V) :
  ~ In k (map fst d) -> dict_del Z.eqb (d ++ [(k, v)]) k = d.
Proof.
  induction d as [|[k' v'] d IH]; intros H.
  - cbn [app dict_del]. now rewrite Z.eqb_refl.
  - cbn [app dict_del]. destruct (Z.eqb_spec k' k) as [->|_].
    + exfalso. apply H. now left.
    + f_equal. apply IH. intros Hin. apply H. now right.
Qed.

Lemma list_update_last {A} (l : list A) (x : A) (f : A -> A) :
  list_update (l ++ [x]) (length l) f = l ++ [f x].
Proof. induction l as [|y l IH]; [reflexivity|]. cbn. now rewrite IH. Qed.

Lemma nth_last {A} (l : list A) (x d : A) : nth (length l) (l ++ [x]) d = x.
Proof. induction l as [|y l IH]; [reflexivity|]. exact IH. Qed.

(** The state in which [wait_for_start] leaves the dispatcher. *)
Lemma wait_for_start_registers (s : Z) (self : t) :
  last_seqno self < s ->
  dict_mem Z.eqb (listeners self) s = false ->
  wait_for_start s self
  = (Waiting (length (semaphores self)),
     mk (buffer self) (listeners self ++ [(s, Sem (length (semaphores self)))])
        (last_seqno self) (semaphores self ++ [0])).
Proof.
  intros Hlast Hmem. unfold wait_for_start.
  replace (s <=? last_seqno self) with false by (symmetry; apply Z.leb_gt; lia).
  rewrite Hmem. unfold new_semaphore.
  cbn [set_listeners set_semaphores listeners semaphores buffer last_seqno].
  rewrite dict_set_notin by now apply dict_mem_false.
  reflexivity.
Qed.

(** X8 Delivery to a waiter.  A [wait_for] on a sequence number that
    is newer than every dispatched one and not yet registered stays
    blocked until a frame with that number is dispatched; the frame,
    whatever its command (0x08 and 0x09 included), goes to the waiter
    and not to the status callback; the waiter then returns that very
    message and takes its entry out, so the registry is what it was
    before the call, and [last_seqno] is the number delivered. *)
Theorem wait_for_delivery {Env : Type}
    (listener : TuyaMessage -> Env -> result unit * Env)
    (msg : TuyaMessage) (self : t) (env : Env) :
  last_seqno self < seqno msg ->
  dict_mem Z.eqb (listeners self) (seqno msg) = false ->
  let sem := length (semaphores self) in
  exists self1 self2,
    wait_for_start (seqno msg) self = (Waiting sem, self1) /\
    wait_for_resume (seqno msg) sem self1 = None /\
    _dispatch listener msg self1 env = (Ok tt, self2, env) /\
    wait_for_resume (seqno msg) sem self2
    = Some (Ok (Msg msg),
            mk (buffer self) (listeners self) (seqno msg)
               (semaphores self ++ [0])).
Proof.
  intros Hlast Hmem sem.
  pose proof (dict_mem_false _ _ Hmem) as Hnotin.
  eexists. eexists.
  split; [now apply wait_for_start_registers|].
  split.
  { unfold wait_for_resume, can_resume, sem_value. cbn [semaphores].
    unfold sem. now rewrite nth_last. }
  split.
  { unfold _dispatch.
    simpl_state. rewrite dict_get_new by assumption.
    simpl_state. rewrite dict_set_new by assumption.
    simpl_state. unfold sem. rewrite list_update_last. reflexivity. }
  unfold wait_for_resume, can_resume, sem_value. simpl_state.
  unfold sem. rewrite nth_last. cbn [Z.ltb Z.compare Z.add Pos.add].
  simpl_state. rewrite dict_get_new by assumption.
  simpl_state. rewrite dict_del_new by assumption. rewrite list_update_last.
  rewrite Z.max_r by lia. reflexivity.
Qed.

Lemma wait_for_delivery_witness :
  let listener := fun (m : TuyaMessage) (log : list TuyaMessage) =>
                    (Ok tt, log ++ [m]) in
  let msg := mkTuyaMessage 0 8 0 (b_lit "{}") 0 in
  exists self1 self2,
    wait_for_start 0 init = (Waiting 0%nat, self1) /\
    wait_for_resume 0 0%nat self1 = None /\
    _dispatch listener msg self1 [] = (Ok tt, self2, []) /\
    wait_for_resume 0 0%nat self2 = Some (Ok (Msg msg), mk [] [] 0 [0]).
Proof.
  assert (H1 : last_seqno init < 0) by (cbn; lia).
  exact (wait_for_delivery
           (fun (m : TuyaMessage) (log : list TuyaMessage) => (Ok tt, log ++ [m]))
           (mkTuyaMessage 0 8 0 (b_lit "{}") 0) init [] H1 eq_refl).
Defined.

(** X9 A second frame with the sequence number of a response that
    its waiter has not picked up yet: [_dispatch] takes the stored
    message for the semaphore, puts the new frame in its place and
    raises [AttributeError] on [release]; the waiter, when it runs,
    returns the second frame, and the first one is lost. *)
Theorem duplicate_frame_before_pickup {Env : Type}
    (listener : TuyaMessage -> Env -> result unit * Env)
    (msg dup : TuyaMessage) (self : t) (env : Env) :
  last_seqno self < seqno msg ->
  dict_mem Z.eqb (listeners self) (seqno msg) = false ->
  seqno dup = seqno msg ->
  let sem := length (semaphores self) in
  exists self1 self2 self3,
    wait_for_start (seqno msg) self = (Waiting sem, self1) /\
    _dispatch listener msg self1 env = (Ok tt, self2, env) /\
    _dispatch listener dup self2 env = (Raise AttributeError, self3, env) /\
    wait_for_resume (seqno msg) sem self3
    = Some (Ok (Msg dup),
            mk (buffer self) (listeners self) (seqno msg)
               (semaphores self ++ [0])).
Proof.
  intros Hlast Hmem Hdup sem.
  pose proof (dict_mem_false _ _ Hmem) as Hnotin.
  eexists. eexists. eexists.
  split; [now apply wait_for_start_registers|].
  split.
  { unfold _dispatch.
    simpl_state. rewrite dict_get_new by assumption.
    simpl_state. rewrite dict_set_new by assumption.
    simpl_state. unfold sem. rewrite list_update_last. reflexivity. }
  split.
  { unfold _dispatch.
    simpl_state. rewrite Hdup. rewrite dict_get_new by assumption.
    simpl_state. rewrite dict_set_new by assumption.
    simpl_state. reflexivity. }
  unfold wait_for_resume, can_resume, sem_value. simpl_state.
  unfold sem. rewrite nth_last. cbn [Z.ltb Z.compare Z.add Pos.add].
  simpl_state. rewrite dict_get_new by assumption.
  simpl_state. rewrite dict_del_new by assumption. rewrite list_update_last.
  simpl_state. rewrite !Z.max_r by lia. reflexivity.
Qed.

Lemma duplicate_frame_before_pickup_witness :
  let listener := fun (m : TuyaMessage) (log : list TuyaMessage) =>
                    (Ok tt, log ++ [m]) in
  let msg := mkTuyaMessage 0 7 0 (b_lit "first") 0 in
  let dup := mkTuyaMessage 0 7 0 (b_lit "second") 0 in
  exists self1 self2 self3,
    wait_for_start 0 init = (Waiting 0%nat, self1) /\
    _dispatch listener msg self1 [] = (Ok tt, self2, []) /\
    _dispatch listener dup self2 [] = (Raise AttributeError, self3, []) /\
    wait_for_resume 0 0%nat self3 = Some (Ok (Msg dup), mk [] [] 0 [0]).
Proof.
  assert (H1 : last_seqno init < 0) by (cbn; lia).
  exact (duplicate_frame_before_pickup
           (fun (m : TuyaMessage) (log : list TuyaMessage) => (Ok tt, log ++ [m]))
           (mkTuyaMessage 0 7 0 (b_lit "first") 0)
           (mkTuyaMessage 0 7 0 (b_lit "second") 0) init [] H1 eq_refl eq_refl).
Defined.

(** X10 A registration that times out.  While the waiter is
    registered, a second [wait_for] on the same sequence number raises
    [Exception] and changes nothing; when the timeout expires,
    [wait_for] deletes its entry and raises [TimeoutError], and the
    registry is again what it was before the call. *)
Theorem wait_for_timeout_unregisters (s : Z) (self : t) :
  last_seqno self < s ->
  dict_mem Z.eqb (listeners self) s = false ->
  exists self1,
    wait_for_start s self = (Waiting (length (semaphores self)), self1) /\
    wait_for_start s self1 = (Raised PlainException, self1) /\
    wait_for_timeout s self1
    = (Raise TimeoutError, set_listeners self1 (listeners self)).
Proof.
  intros Hlast Hmem.
  pose proof (dict_mem_false _ _ Hmem) as Hnotin.
  eexists. split; [now apply wait_for_start_registers|].
  split.
  - unfold wait_for_start. cbn [last_seqno listeners].
    replace (s <=? last_seqno self) with false by (symmetry; apply Z.leb_gt; lia).
    unfold dict_mem. now rewrite dict_get_new.
  - unfold wait_for_timeout. cbn [listeners]. unfold dict_mem.
    rewrite dict_get_new by assumption.
    now rewrite dict_del_new.
Qed.

Lemma wait_for_timeout_unregisters_witness :
  exists self1,
    wait_for_start 4 init = (Waiting 0%nat, self1) /\
    wait_for_start 4 self1 = (Raised PlainException, self1) /\
    wait_for_timeout 4 self1 = (Raise TimeoutError, set_listeners self1 []).
Proof.
  assert (H1 : last_seqno init < 4) by (cbn; lia).
  exact (wait_for_timeout_unregisters 4 init H1 eq_refl).
Defined.

(* ================================================================== *)
(** * [abort] on a registry that holds more than semaphores *)

Lemma abort_loop_prefix (sems done : list waiter) (tail : list (Z * slot))
    (more : list Z) (self : t) :
  listeners self = map to_none done ++ map to_sem sems ++ tail ->
  NoDup (map fst (done ++ sems)) ->
  abort_loop (map fst sems ++ more) self
  = abort_loop more
      (mk (buffer self) (map to_none (done ++ sems) ++ tail) (last_seqno self)
          (release_all (map snd sems) (semaphores self))).
Proof.
  revert done self. induction sems as [|w sems IH]; intros done self HL Hnd.
  - cbn [map app] in *. rewrite app_nil_r.
    cbn [release_all fold_left]. rewrite <- HL. destruct self; reflexivity.
  - destruct w as [s id]. cbn [map app abort_loop fst snd]. unfold abort_key.
    assert (Hnotin : ~ In s (map fst (map to_none done))).
    { rewrite map_fst_to_none. rewrite map_app in Hnd.
      apply NoDup_remove_2 in Hnd. intros Hin. apply Hnd.
      apply in_or_app. now left. }
    rewrite HL, dict_get_app_notin by assumption.
    unfold to_sem at 1. cbn [map app dict_get fst snd]. rewrite Z.eqb_refl.
    rewrite dict_set_app_notin by assumption.
    unfold to_sem at 1. cbn [map app dict_set fst snd]. rewrite Z.eqb_refl.
    cbn [release set_listeners set_semaphores semaphores buffer last_seqno
         listeners].
    rewrite (IH (done ++ [(s, id)])).
    + cbn [buffer last_seqno semaphores listeners].
      rewrite <- !app_assoc. reflexivity.
    + cbn [listeners]. rewrite map_app, <- !app_assoc. reflexivity.
    + now rewrite <- app_assoc.
Qed.

(** The loop of [abort] from an entry that holds no semaphore. *)
Lemma abort_loop_stops (k : Z) (v : slot) (more : list Z) (self : t) :
  dict_get Z.eqb (listeners self) k = Some v ->
  (forall id, v <> Sem id) ->
  abort_loop (k :: more) self
  = (Raise AttributeError,
     set_listeners self (dict_set Z.eqb (listeners self) k PyNone)).
Proof.
  intros Hget Hv. cbn [abort_loop]. unfold abort_key. rewrite Hget.
  destruct v as [id| |]; [now destruct (Hv id)|reflexivity|reflexivity].
Qed.

(** X11 [abort] expects every value of the registry to be a
    semaphore.  At the first entry that holds something else (the
    response [_dispatch] stored for a waiter that has not run yet, or
    the [None] of an earlier [abort]) it overwrites the entry with
    [None] and raises [AttributeError] on [release]: the waiters before
    it have been released, the entries behind it are left untouched.
    In particular a stored response is lost, and [abort] called twice
    in a row raises. *)
Theorem abort_stops_at_non_semaphore (pre : list waiter) (k : Z) (v : slot)
    (rest : list (Z * slot)) (self : t) :
  listeners self = map to_sem pre ++ (k, v) :: rest ->
  NoDup (map fst (listeners self)) ->
  (forall id, v <> Sem id) ->
  abort self
  = (Raise AttributeError,
     mk (buffer self) (map to_none pre ++ (k, PyNone) :: rest)
        (last_seqno self) (release_all (map snd pre) (semaphores self))).
Proof.
  intros HL Hnd Hv. unfold abort, dict_keys.
  rewrite HL in Hnd |- *. rewrite map_app, map_fst_to_sem in *.
  cbn [map fst] in *.
  assert (Hpre : NoDup (map fst pre)).
  { now apply NoDup_app_remove_r in Hnd. }
  assert (Hk : ~ In k (map fst (map to_none pre))).
  { rewrite map_fst_to_none. apply NoDup_remove_2 in Hnd. intros Hin.
    apply Hnd. apply in_or_app. now left. }
  rewrite (abort_loop_prefix pre [] ((k, v) :: rest));
    [|exact HL|exact Hpre].
  cbn [app]. rewrite (abort_loop_stops k v).
  - unfold set_listeners. cbn [listeners buffer last_seqno semaphores].
    rewrite dict_set_app_notin by assumption.
    cbn [dict_set]. now rewrite Z.eqb_refl.
  - cbn [listeners]. rewrite dict_get_app_notin by assumption.
    cbn [dict_get]. now rewrite Z.eqb_refl.
  - exact Hv.
Qed.

Lemma abort_stops_at_non_semaphore_witness :
  let m := mkTuyaMessage 1 7 0 (b_lit "{}") 0 in
  let self := mk [] [(3, Sem 0); (1, Msg m); (5, Sem 2)] 1 [0; 1; 0] in
  abort self
  = (Raise AttributeError,
     mk [] [(3, PyNone); (1, PyNone); (5, Sem 2)] 1 [1; 1; 0]).
Proof.
  assert (H1 : NoDup (map fst [(3, Sem 0); (1, Msg (mkTuyaMessage 1 7 0 (b_lit "{}") 0));
                               (5, Sem 2)])).
  { cbn. repeat constructor; cbn; intuition discriminate. }
  assert (H2 : forall id, Msg (mkTuyaMessage 1 7 0 (b_lit "{}") 0) <> Sem id)
    by discriminate.
  exact (abort_stops_at_non_semaphore [(3, 0%nat)] 1
           (Msg (mkTuyaMessage 1 7 0 (b_lit "{}") 0)) [(5, Sem 2)]
           (mk [] [(3, Sem 0); (1, Msg (mkTuyaMessage 1 7 0 (b_lit "{}") 0));
                   (5, Sem 2)] 1 [0; 1; 0])
           eq_refl H1 H2).
Defined.

(* ================================================================== *)
(** * [add_data]: what it raises and what it keeps *)

Section AddDataFacts.
Context {Env : Type}.
Variable listener : TuyaMessage -> Env -> result unit * Env.

Lemma dispatch_raise (msg : TuyaMessage) (self self' : t) (env env' : Env)
    (e : exn) :
  _dispatch listener msg self env = (Raise e, self', env') ->
  e = AttributeError \/ fst (listener msg env) = Raise e.
Proof.
  unfold _dispatch.
  destruct (dict_get Z.eqb (listeners
              (set_last_seqno self (Z.max (last_seqno self) (seqno msg))))
              (seqno msg)) as [sem|].
  - destruct sem; cbn; intros H; inversion H; now left.
  - destruct (cmd msg =? 9); [discriminate|].
    destruct (cmd msg =? 8).
    + destruct (listener msg env) as [r env1]. cbn [fst].
      intros H. inversion H. now right.
    + cbn. intros H. inversion H. now left.
Qed.

Lemma run_raise (n : nat) :
  forall self env self' env' e,
    (length (buffer self) <= n)%nat ->
    run listener self env = (Raise e, self', env') ->
    e = AttributeError \/ exists m env0, fst (listener m env0) = Raise e.
Proof.
  induction n as [n IH] using lt_wf_ind.
  intros self env self' env' e Hn H. rewrite run_unfold in H.
  destruct (next_frame (buffer self)) as [[m rest]|] eqn:Enf; [|discriminate].
  pose proof (next_frame_progress _ _ _ Enf) as Hprog.
  pose proof (dispatch_buffer listener m (set_buffer self rest) env) as Hb.
  destruct (_dispatch listener m (set_buffer self rest) env)
    as [[[u|e1] self1] env1] eqn:Ed; cbn [after_dispatch] in H.
  - cbn [fst snd set_buffer buffer] in Hb.
    apply (IH (length rest) ltac:(lia) self1 env1 self' env' e);
      [rewrite Hb; lia|exact H].
  - inversion H; subst. apply dispatch_raise in Ed.
    destruct Ed as [Ed|Ed]; [now left|right; eauto].
Qed.

Lemma run_keeps_tail (n : nat) :
  forall self env r self' env',
    (length (buffer self) <= n)%nat ->
    run listener self env = (r, self', env') ->
    exists consumed, buffer self = consumed ++ buffer self'.
Proof.
  induction n as [n IH] using lt_wf_ind.
  intros self env r self' env' Hn H. rewrite run_unfold in H.
  destruct (next_frame (buffer self)) as [[m rest]|] eqn:Enf.
  2:{ inversion H; subst. now exists []. }
  pose proof (next_frame_progress _ _ _ Enf) as Hprog.
  destruct (next_frame_inv _ _ _ Enf)
    as (pre & length & rc & _ & _ & _ & _ & Erest & _).
  pose proof (dispatch_buffer listener m (set_buffer self rest) env) as Hb.
  destruct (_dispatch listener m (set_buffer self rest) env)
    as [[[u|e1] self1] env1] eqn:Ed; cbn [after_dispatch] in H;
    cbn [fst snd set_buffer buffer] in Hb.
  - destruct (IH (Datatypes.length rest) ltac:(lia) self1 env1 r self' env')
      as (c & Ec); [rewrite Hb; lia|exact H|].
    exists (firstn (Z.to_nat (16 + length)) (buffer self) ++ c).
    rewrite <- app_assoc, <- Ec, Hb, Erest. now rewrite firstn_skipn.
  - inversion H; subst.
    exists (firstn (Z.to_nat (16 + length)) (buffer self)).
    rewrite Hb. now rewrite firstn_skipn.
Qed.

(** X12 The exceptions of [add_data].  Whatever bytes arrive,
    [add_data] raises only what [_dispatch] raises: the
    [AttributeError] of [_dispatch] itself or an exception of the
    status callback.  The parsing of the buffer never raises; in
    particular no [struct.error] comes from a malformed or truncated
    frame. *)
Theorem add_data_raises (data : bytes) (self self' : t) (env env' : Env)
    (e : exn) :
  add_data listener data self env = (Raise e, self', env') ->
  e = AttributeError \/ exists m env0, fst (listener m env0) = Raise e.
Proof.
  rewrite add_data_run. apply run_raise with (n := length (buffer self ++ data)).
  cbn [set_buffer buffer]. lia.
Qed.

(** X13 The buffer of [add_data].  Whether it returns or raises,
    [add_data] only removes bytes from the front of the old buffer
    followed by the new data: no byte behind the last extracted frame
    is lost or reordered.  When it returns, no complete frame is left
    in the buffer: a further call with no data does nothing. *)
Theorem add_data_keeps_tail (data : bytes) (self self' : t) (env env' : Env)
    (r : result unit) :
  add_data listener data self env = (r, self', env') ->
  (exists consumed, buffer self ++ data = consumed ++ buffer self') /\
  (r = Ok tt -> add_data listener [] self' env' = (Ok tt, self', env')).
Proof.
  rewrite add_data_run. intros H. split.
  - apply (run_keeps_tail _ _ _ _ _ _ (Nat.le_refl _)) in H.
    exact H.
  - intros ->. rewrite add_data_run, app_nil_r, set_buffer_same.
    apply run_idle. eapply run_done; [apply Nat.le_refl|exact H].
Qed.
End AddDataFacts.

Lemma add_data_raises_witness :
  let listener := fun (m : TuyaMessage) (log : list TuyaMessage) =>
                    (Ok tt, log ++ [m]) in
  let m1 := mkTuyaMessage 0 7 0 (b_lit "{}") 7 in
  add_data listener (recv_frame m1) init []
  = (Raise AttributeError, set_last_seqno init 0, []) /\
  (AttributeError = AttributeError \/
   exists m env0, fst (listener m env0) = @Raise unit AttributeError).
Proof.
  assert (H : add_data
                (fun (m : TuyaMessage) (log : list TuyaMessage) => (Ok tt, log ++ [m]))
                (recv_frame (mkTuyaMessage 0 7 0 (b_lit "{}") 7)) init []
              = (Raise AttributeError, set_last_seqno init 0, []))
    by (vm_compute; reflexivity).
  split; [exact H|].
  exact (add_data_raises _ _ _ _ _ _ _ H).
Defined.

Lemma add_data_keeps_tail_witness :
  let listener := fun (m : TuyaMessage) (log : list TuyaMessage) =>
                    (Ok tt, log ++ [m]) in
  let m1 := mkTuyaMessage 0 8 0 (b_lit "{}") 7 in
  let self' := mk (b_lit "abc") [] 0 [] in
  add_data listener (recv_frame m1 ++ b_lit "abc") init []
  = (Ok tt, self', [m1]) /\
  (exists consumed,
     buffer init ++ (recv_frame m1 ++ b_lit "abc") = consumed ++ buffer self') /\
  (Ok tt = Ok tt -> add_data listener [] self' [m1] = (Ok tt, self', [m1])).
Proof.
  assert (H : add_data
                (fun (m : TuyaMessage) (log : list TuyaMessage) => (Ok tt, log ++ [m]))
                (recv_frame (mkTuyaMessage 0 8 0 (b_lit "{}") 7) ++ b_lit "abc")
                init []
              = (Ok tt, mk (b_lit "abc") [] 0 [],
                 [mkTuyaMessage 0 8 0 (b_lit "{}") 7]))
    by (vm_compute; reflexivity).
  split; [exact H|].
  exact (add_data_keeps_tail _ _ _ _ _ _ _ H).
Defined.

(* ================================================================== *)
(** * [TuyaProtocol]: sequence numbers, sending, closing *)

Ltac simpl_session :=
  cbn [TuyaProtocol.set_dev_type TuyaProtocol.set_dps_to_request
       TuyaProtocol.set_seqno TuyaProtocol.set_transport
       TuyaProtocol.set_dispatcher TuyaProtocol.set_heartbeater
       TuyaProtocol.set_status_calls
       TuyaProtocol.id TuyaProtocol.local_key TuyaProtocol.version
       TuyaProtocol.dev_type TuyaProtocol.dps_to_request TuyaProtocol.cipher
       TuyaProtocol.seqno TuyaProtocol.transport TuyaProtocol.dispatcher
       TuyaProtocol.heartbeater TuyaProtocol.status_calls].

(** [_generate_payload], step by step. *)
Lemma generate_payload_unfold (now : Z) (command : command_name)
    (data : option json) (self : TuyaProtocol.t) (g : payload_dict) :
  TuyaProtocol._generate_payload now command data self g
  = let hb := hexByte (pd_get g (TuyaProtocol.dev_type self) command) in
    let jd := json_data_of now command data self g in
    let g' := pd_set_command g (TuyaProtocol.dev_type self) command jd in
    match (payload <- utf8_encode (remove_spaces (dumps (JObj jd))) ;;
           TuyaProtocol.wrap_payload self command hb payload) with
    | Raise e => (Raise e, self, g')
    | Ok payload =>
        (pack_message (mkTuyaMessage (TuyaProtocol.seqno self) hb 0 payload 0),
         TuyaProtocol.set_seqno self (TuyaProtocol.seqno self + 1), g')
    end.
Proof. reflexivity. Qed.

Lemma frame_seqno_pack_message (m : TuyaMessage) (frame : bytes) :
  pack_message m = Ok frame -> frame_seqno frame = Some (seqno m).
Proof.
  intros H. apply pack_message_inv in H. cbv zeta in H.
  destruct H as (F & _ & ->). unfold frame_seqno.
  change 4%nat with (length [PREFIX_VALUE; seqno m; cmd m; len (payload m) + 8]).
  now rewrite unpack_words_flat_map.
Qed.

Lemma struct_pack_raise (vs : list Z) (e : exn) :
  struct_pack vs = Raise e -> e = StructError.
Proof.
  induction vs as [|v vs IH]; cbn [struct_pack]; [discriminate|].
  destruct (uint32_ok v); [|intros H; now inversion H].
  destruct (struct_pack vs); cbn [bind]; [discriminate|].
  intros H. apply IH. now inversion H.
Qed.

Lemma pack_message_raise (m : TuyaMessage) (e : exn) :
  pack_message m = Raise e -> e = StructError.
Proof.
  unfold pack_message.
  destruct (struct_pack [PREFIX_VALUE; seqno m; cmd m;
                         len (payload m) + calcsize MESSAGE_END_FMT])
    as [header|e1] eqn:E1; cbn [bind].
  - destruct (struct_pack [crc32 (header ++ payload m); SUFFIX_VALUE])
      as [trailer|e2] eqn:E2; cbn [bind]; [discriminate|].
    intros H. inversion H; subst. now apply struct_pack_raise in E2.
  - intros H. inversion H; subst. now apply struct_pack_raise in E1.
Qed.

(** X14 Sequence numbers.  When [_generate_payload] returns a frame,
    the session's sequence number was below 2^32, the frame carries it
    in its second word, and the session's counter is one more than
    before, nothing else of the session having changed.  When it
    raises, either nothing of the session has changed (the payload
    could not be built) or the exception is the [struct.error] of
    [pack_message] and the counter has been incremented all the same:
    from 2^32 on, no frame can be produced any more. *)
Theorem generate_payload_seqno (now : Z) (command : command_name)
    (data : option json) (self : TuyaProtocol.t) (g : payload_dict) :
  match TuyaProtocol._generate_payload now command data self g with
  | (Ok frame, self', _) =>
      0 <= TuyaProtocol.seqno self < 2 ^ 32 /\
      frame_seqno frame = Some (TuyaProtocol.seqno self) /\
      self' = TuyaProtocol.set_seqno self (TuyaProtocol.seqno self + 1)
  | (Raise e, self', _) =>
      self' = self \/
      (e = StructError /\
       self' = TuyaProtocol.set_seqno self (TuyaProtocol.seqno self + 1))
  end.
Proof.
  rewrite generate_payload_unfold. cbv zeta.
  destruct (payload <- utf8_encode _ ;; TuyaProtocol.wrap_payload _ _ _ payload)
    as [payload|e]; [|now left].
  destruct (pack_message _) as [frame|e] eqn:Ep.
  - split; [|split; [|reflexivity]].
    + pose proof (pack_message_inv _ _ Ep) as H. cbv zeta in H.
      destruct H as (F & _). apply Forall_inv_tail in F.
      apply Forall_inv in F. exact F.
    + apply frame_seqno_pack_message in Ep. exact Ep.
  - right. split; [|reflexivity]. now apply pack_message_raise in Ep.
Qed.

Lemma generate_payload_session (now : Z) (command : command_name)
    (data : option json) (self : TuyaProtocol.t) (g : payload_dict)
    (frame : bytes) (self1 : TuyaProtocol.t) (g1 : payload_dict) :
  TuyaProtocol._generate_payload now command data self g = (Ok frame, self1, g1) ->
  self1 = TuyaProtocol.set_seqno self (TuyaProtocol.seqno self + 1) /\
  frame_seqno frame = Some (TuyaProtocol.seqno self).
Proof.
  intros H. apply generate_payload_ok in H. destruct H as (p & Hp & ->).
  split; [reflexivity|]. now apply frame_seqno_pack_message in Hp.
Qed.

(** X15 [exchange] up to its [await].  On an open transport, with a
    sequence number newer than every dispatched one and not yet
    waited for, [exchange] writes exactly one frame, the one
    [_generate_payload] made, and suspends in [wait_for] on the
    sequence number that frame carries (the counter less one, after
    its increment): the waiter is entered last in the registry with a
    fresh semaphore, and the device type at the time of sending is
    kept for the comparison after the response. *)
Theorem exchange_start_waits (json_loads : str -> result json) (now : Z)
    (command : command_name) (dps : option json) (self : TuyaProtocol.t)
    (g : payload_dict) (frame : bytes) (self1 : TuyaProtocol.t)
    (g1 : payload_dict) (w : list bytes) :
  TuyaProtocol._generate_payload now command dps self g = (Ok frame, self1, g1) ->
  TuyaProtocol.transport self = Some w ->
  last_seqno (TuyaProtocol.dispatcher self) < TuyaProtocol.seqno self ->
  dict_mem Z.eqb (listeners (TuyaProtocol.dispatcher self))
    (TuyaProtocol.seqno self) = false ->
  let d := TuyaProtocol.dispatcher self in
  let sem := length (semaphores d) in
  frame_seqno frame = Some (TuyaProtocol.seqno self) /\
  TuyaProtocol.exchange_start json_loads now command dps self g
  = (TuyaProtocol.Waiting
       (TuyaProtocol.mk_suspended command dps (TuyaProtocol.dev_type self)
          (TuyaProtocol.seqno self) sem),
     TuyaProtocol.set_dispatcher
       (TuyaProtocol.set_transport
          (TuyaProtocol.set_seqno self (TuyaProtocol.seqno self + 1))
          (Some (w ++ [frame])))
       (mk (buffer d) (listeners d ++ [(TuyaProtocol.seqno self, Sem sem)])
           (last_seqno d) (semaphores d ++ [0])),
     g1).
Proof.
  intros Hgen Htr Hlast Hmem d sem.
  destruct (generate_payload_session _ _ _ _ _ _ _ _ Hgen) as (-> & Hseq).
  split; [exact Hseq|].
  unfold TuyaProtocol.exchange_start. rewrite Hgen.
  unfold TuyaProtocol.transport_write.
  simpl_session. rewrite Htr. simpl_session.
  replace (TuyaProtocol.seqno self + 1 - 1) with (TuyaProtocol.seqno self) by lia.
  rewrite wait_for_start_registers by assumption.
  reflexivity.
Qed.


Lemma exchange_start_waits_witness :
  let json_loads := fun _ : str => Ok JNull in
  let self := demo_session TuyaProtocol.v3_3 type_0a in
  exists frame self1 g1,
    TuyaProtocol._generate_payload 1604492800 STATUS None self PAYLOAD_DICT
    = (Ok frame, self1, g1) /\
    frame_seqno frame = Some 0 /\
    TuyaProtocol.exchange_start json_loads 1604492800 STATUS None self
      PAYLOAD_DICT
    = (TuyaProtocol.Waiting (TuyaProtocol.mk_suspended STATUS None type_0a 0 0%nat),
       TuyaProtocol.set_dispatcher
         (TuyaProtocol.set_transport (TuyaProtocol.set_seqno self 1)
            (Some [frame]))
         (mk [] [(0, Sem 0)] (-1) [0]),
       g1).
Proof.
  intros json_loads self.
  assert (H : exists frame self1 g1,
             TuyaProtocol._generate_payload 1604492800 STATUS None self
               PAYLOAD_DICT = (Ok frame, self1, g1)).
  { do 3 eexists. vm_compute. reflexivity. }
  destruct H as (frame & self1 & g1 & H).
  assert (Hlast : last_seqno (TuyaProtocol.dispatcher self)
                  < TuyaProtocol.seqno self) by (cbn; lia).
  exists frame, self1, g1. split; [exact H|].
  exact (exchange_start_waits json_loads 1604492800 STATUS None self
           PAYLOAD_DICT frame self1 g1 [] H eq_refl Hlast eq_refl).
Defined.


(* ================================================================== *)
(** ** [close] *)

(** X17 [close] is idempotent.  Whenever it returns, the transport
    is [None], and a further [close] (or [connection_lost]) returns at
    once without touching the session. *)
Theorem close_idempotent (self self' : TuyaProtocol.t) :
  TuyaProtocol.close self = (Ok tt, self') ->
  TuyaProtocol.transport self' = None /\
  TuyaProtocol.close self' = (Ok tt, self') /\
  TuyaProtocol.connection_lost self' = (Ok tt, self').
Proof.
  unfold TuyaProtocol.connection_lost, TuyaProtocol.close.
  destruct (TuyaProtocol.transport self) as [w|] eqn:Htr.
  - destruct (abort (TuyaProtocol.dispatcher self)) as [[u|e] d];
      [|discriminate].
    simpl_session.
    destruct (TuyaProtocol.heartbeater self); [|discriminate].
    intros H. injection H as <-. simpl_session. repeat split.
  - intros H. injection H as <-. rewrite Htr. repeat split.
Qed.

Lemma close_idempotent_witness :
  let self := demo_session TuyaProtocol.v3_3 type_0a in
  let self' := TuyaProtocol.set_transport
                 (TuyaProtocol.set_heartbeater self (Some false)) None in
  TuyaProtocol.close self = (Ok tt, self') /\
  TuyaProtocol.transport self' = None /\
  TuyaProtocol.close self' = (Ok tt, self') /\
  TuyaProtocol.connection_lost self' = (Ok tt, self').
Proof.
  assert (H : TuyaProtocol.close (demo_session TuyaProtocol.v3_3 type_0a)
              = (Ok tt, TuyaProtocol.set_transport
                          (TuyaProtocol.set_heartbeater
                             (demo_session TuyaProtocol.v3_3 type_0a)
                             (Some false)) None))
    by (vm_compute; reflexivity).
  split; [exact H|].
  exact (close_idempotent _ _ H).
Defined.

Lemma dict_get_to_none (ws : list waiter) (s : Z) (id : nat) :
  In (s, id) ws -> dict_get Z.eqb (map to_none ws) s = Some PyNone.
Proof.
  intros Hin.
  assert (Hk : In s (map fst (map to_none ws))).
  { rewrite map_fst_to_none. apply in_map_iff. now exists (s, id). }
  destruct (dict_get_in _ _ Hk) as (v & E & Hv). rewrite E.
  apply in_map_iff in Hv. destruct Hv as (w & Ew & _).
  unfold to_none in Ew. now inversion Ew.
Qed.

Lemma dict_del_removes {V} (d : list (Z * V)) (k : Z) :
  NoDup (map fst d) -> ~ In k (map fst (dict_del Z.eqb d k)).
Proof.
  induction d as [|[k' v'] d IH]; intros Hnd; [intros []|].
  cbn [map fst] in Hnd. inversion Hnd as [|? ? Hnotin Hnd']; subst.
  cbn [dict_del]. destruct (Z.eqb_spec k' k) as [->|Hne]; [exact Hnotin|].
  cbn [map fst]. intros [H|H]; [contradiction|]. now apply IH.
Qed.

(** X18 [close] wakes the exchanges in flight.  On a connected
    session whose registry holds blocked waiters only, [close] returns
    with the heartbeat task cancelled and the transport set to [None],
    and every suspended [exchange] then continues, returns [None]
    without decoding anything, and takes its entry out of the
    registry. *)
Theorem close_wakes_exchange (json_loads : str -> result json)
    (ws : list waiter) (self : TuyaProtocol.t) (w : list bytes) (h : bool)
    (k : TuyaProtocol.suspended) :
  TuyaProtocol.transport self = Some w ->
  TuyaProtocol.heartbeater self = Some h ->
  outstanding ws (TuyaProtocol.dispatcher self) ->
  In (TuyaProtocol.s_seqno k, TuyaProtocol.s_sem k) ws ->
  exists self1 self2,
    TuyaProtocol.close self = (Ok tt, self1) /\
    TuyaProtocol.transport self1 = None /\
    TuyaProtocol.heartbeater self1 = Some false /\
    TuyaProtocol.exchange_resume json_loads k self1
    = Some (Ok TuyaProtocol.VNone, self2) /\
    ~ In (TuyaProtocol.s_seqno k)
        (map fst (listeners (TuyaProtocol.dispatcher self2))).
Proof.
  intros Htr Hhb Hout Hin.
  pose proof (abort_outstanding ws _ Hout) as Hab.
  destruct Hout as (HL & Hk & Hs & Hv).
  rewrite Forall_forall in Hv. destruct (Hv _ Hin) as (Hlt & Hval).
  cbn [fst snd] in Hlt, Hval.
  unfold TuyaProtocol.close. rewrite Htr, Hab. simpl_session. rewrite Hhb.
  eexists. eexists. split; [reflexivity|].
  simpl_session. split; [reflexivity|]. split; [reflexivity|].
  unfold TuyaProtocol.exchange_resume, wait_for_resume, can_resume, sem_value.
  simpl_session. simpl_state.
  rewrite nth_release_all_in;
    [|exact Hs|apply in_map_iff; now exists (TuyaProtocol.s_seqno k, TuyaProtocol.s_sem k)
     |exact Hlt].
  unfold sem_value in Hval. rewrite Hval. cbn [Z.add Z.ltb Z.compare].
  rewrite (dict_get_to_none ws _ _ Hin).
  cbn [TuyaProtocol.exchange_finish]. split; [reflexivity|].
  simpl_session. simpl_state. apply dict_del_removes.
  now rewrite map_fst_to_none.
Qed.

Lemma close_wakes_exchange_witness :
  let json_loads := fun _ : str => Ok JNull in
  let self := TuyaProtocol.set_dispatcher
                (demo_session TuyaProtocol.v3_3 type_0a)
                (snd (register_all [0; 1] init)) in
  let k := TuyaProtocol.mk_suspended STATUS None type_0a 1 1%nat in
  outstanding [(0, 0%nat); (1, 1%nat)] (TuyaProtocol.dispatcher self) /\
  exists self1 self2,
    TuyaProtocol.close self = (Ok tt, self1) /\
    TuyaProtocol.transport self1 = None /\
    TuyaProtocol.heartbeater self1 = Some false /\
    TuyaProtocol.exchange_resume json_loads k self1
    = Some (Ok TuyaProtocol.VNone, self2) /\
    ~ In (TuyaProtocol.s_seqno k)
        (map fst (listeners (TuyaProtocol.dispatcher self2))).
Proof.
  intros json_loads self k.
  assert (H1 : outstanding [(0, 0%nat); (1, 1%nat)] (TuyaProtocol.dispatcher self)).
  { unfold outstanding. split; [reflexivity|]. split; [|split].
    - repeat constructor; simpl; intuition discriminate.
    - repeat constructor; simpl; intuition discriminate.
    - repeat constructor; simpl; lia. }
  assert (H2 : In (TuyaProtocol.s_seqno k, TuyaProtocol.s_sem k)
                 [(0, 0%nat); (1, 1%nat)]) by (right; left; reflexivity).
  split; [exact H1|].
  exact (close_wakes_exchange json_loads [(0, 0%nat); (1, 1%nat)] self []
           true k eq_refl eq_refl H1 H2).
Defined.

(** X19 [close] while a response waits to be picked up.  When the
    registry holds the response that [_dispatch] stored for an
    [exchange] that has not continued yet, [close] raises
    [AttributeError] (from [abort]) before it cancels the heartbeat
    task and before it drops the transport: the session stays
    connected.  The stored response has been replaced by [None], so
    the exchange it was for returns [None]. *)
Theorem close_with_stored_response (json_loads : str -> result json)
    (pre : list waiter) (m : TuyaMessage) (rest : list (Z * slot))
    (self : TuyaProtocol.t) (w : list bytes) (k : TuyaProtocol.suspended) :
  TuyaProtocol.transport self = Some w ->
  listeners (TuyaProtocol.dispatcher self)
  = map to_sem pre ++ (TuyaProtocol.s_seqno k, Msg m) :: rest ->
  NoDup (map fst (listeners (TuyaProtocol.dispatcher self))) ->
  0 < sem_value (TuyaProtocol.dispatcher self) (TuyaProtocol.s_sem k) ->
  ~ In (TuyaProtocol.s_sem k) (map snd pre) ->
  exists self1 self2,
    TuyaProtocol.close self = (Raise AttributeError, self1) /\
    TuyaProtocol.transport self1 = Some w /\
    TuyaProtocol.heartbeater self1 = TuyaProtocol.heartbeater self /\
    TuyaProtocol.exchange_resume json_loads k self1
    = Some (Ok TuyaProtocol.VNone, self2).
Proof.
  intros Htr HL Hnd Hsem Hnotin.
  assert (Hv : forall id, Msg m <> Sem id) by discriminate.
  assert (Hnd' : NoDup (map fst pre ++ TuyaProtocol.s_seqno k :: map fst rest)).
  { rewrite HL, map_app, map_fst_to_sem in Hnd. exact Hnd. }
  assert (Hk : ~ In (TuyaProtocol.s_seqno k) (map fst (map to_none pre))).
  { apply NoDup_remove_2 in Hnd'. rewrite map_fst_to_none.
    intros Hin. apply Hnd'. apply in_or_app. now left. }
  assert (Hab : abort (TuyaProtocol.dispatcher self)
                = (Raise AttributeError,
                   mk (buffer (TuyaProtocol.dispatcher self))
                      (map to_none pre ++ (TuyaProtocol.s_seqno k, PyNone) :: rest)
                      (last_seqno (TuyaProtocol.dispatcher self))
                      (release_all (map snd pre)
                         (semaphores (TuyaProtocol.dispatcher self))))).
  { unfold abort, dict_keys. rewrite HL, map_app, map_fst_to_sem.
    cbn [map fst].
    rewrite (abort_loop_prefix pre [] ((TuyaProtocol.s_seqno k, Msg m) :: rest));
      [|exact HL|now apply NoDup_app_remove_r in Hnd'].
    cbn [app]. rewrite (abort_loop_stops _ (Msg m)).
    - unfold set_listeners. cbn [listeners buffer last_seqno semaphores].
      rewrite dict_set_app_notin by assumption.
      cbn [dict_set]. now rewrite Z.eqb_refl.
    - cbn [listeners]. rewrite dict_get_app_notin by assumption.
      cbn [dict_get]. now rewrite Z.eqb_refl.
    - exact Hv. }
  unfold TuyaProtocol.close. rewrite Htr, Hab.
  eexists. eexists. split; [reflexivity|].
  simpl_session. split; [exact Htr|]. split; [reflexivity|].
  unfold TuyaProtocol.exchange_resume, wait_for_resume, can_resume, sem_value.
  simpl_session. simpl_state.
  rewrite nth_release_all_notin by assumption.
  unfold sem_value in Hsem.
  replace (0 <? nth (TuyaProtocol.s_sem k)
                  (semaphores (TuyaProtocol.dispatcher self)) 0)
    with true by (symmetry; now apply Z.ltb_lt).
  rewrite dict_get_app_notin by assumption.
  cbn [dict_get]. rewrite Z.eqb_refl. reflexivity.
Qed.

Lemma close_with_stored_response_witness :
  let json_loads := fun _ : str => Ok JNull in
  let m := mkTuyaMessage 0 10 0 (b_lit "{}") 0 in
  let self := TuyaProtocol.set_dispatcher
                (demo_session TuyaProtocol.v3_1 type_0a)
                (mk [] [(0, Msg m)] 0 [1]) in
  let k := TuyaProtocol.mk_suspended STATUS None type_0a 0 0%nat in
  TuyaProtocol.exchange_resume json_loads k self
  = Some (Ok (TuyaProtocol.VJson JNull),
          TuyaProtocol.set_dispatcher self (mk [] [] 0 [0])) /\
  exists self1 self2,
    TuyaProtocol.close self = (Raise AttributeError, self1) /\
    TuyaProtocol.transport self1 = Some [] /\
    TuyaProtocol.heartbeater self1 = TuyaProtocol.heartbeater self /\
    TuyaProtocol.exchange_resume json_loads k self1
    = Some (Ok TuyaProtocol.VNone, self2).
Proof.
  intros json_loads m self k.
  assert (H1 : NoDup (map fst (listeners (TuyaProtocol.dispatcher self)))).
  { cbn. repeat constructor. intros []. }
  assert (H2 : 0 < sem_value (TuyaProtocol.dispatcher self)
                     (TuyaProtocol.s_sem k)) by (cbn; lia).
  assert (H3 : ~ In (TuyaProtocol.s_sem k) (map snd (@nil waiter)))
    by (intros []).
  split; [vm_compute; reflexivity|].
  exact (close_with_stored_response json_loads [] m [] self [] k
           eq_refl eq_refl H1 H2 H3).
Defined.

(* ================================================================== *)
(** * What [_generate_payload] writes, [_decode_payload] reads *)

Lemma length_md5_hexdigest (msg : bytes) : length (md5_hexdigest msg) = 32%nat.
Proof.
  unfold md5_hexdigest, md5_digest.
  destruct (md5_chunks _ _ _) as [[[a b] c] d]. reflexivity.
Qed.

Lemma hex_digit_range (n : Z) : 0 <= n < 16 -> 0 <= hex_digit n < 256.
Proof. intros H. unfold hex_digit. destruct (n <? 10); lia. Qed.

Lemma md5_hexdigest_latin1 (msg : bytes) :
  Forall (fun c => 0 <= c < 256) (md5_hexdigest msg).
Proof.
  unfold md5_hexdigest. induction (md5_digest msg) as [|b l IH];
    [constructor|].
  cbn [flat_map app]. pose proof (Z_of_byte_range b) as Hb.
  constructor; [|constructor; [|exact IH]];
    apply hex_digit_range; Z.div_mod_to_equations; lia.
Qed.

Lemma latin1_encode_ok (s : str) :
  Forall (fun c => 0 <= c < 256) s -> latin1_encode s = Ok (map byte_of_Z s).
Proof.
  induction 1 as [|c s Hc _ IH]; [reflexivity|].
  cbn [latin1_encode map].
  replace ((0 <=? c) && (c <? 256)) with true.
  - now rewrite IH.
  - symmetry. apply andb_true_iff. split; [apply Z.leb_le|apply Z.ltb_lt]; lia.
Qed.

Lemma Forall_firstn {A} (P : A -> Prop) (n : nat) (l : list A) :
  Forall P l -> Forall P (firstn n l).
Proof.
  intros H. revert n. induction H as [|x l Hx _ IH]; intros [|n];
    cbn [firstn]; constructor; auto.
Qed.

Lemma Forall_skipn {A} (P : A -> Prop) (n : nat) (l : list A) :
  Forall P l -> Forall P (skipn n l).
Proof.
  intros H. revert n. induction H as [|x l Hx Hl IH]; intros [|n];
    cbn [skipn]; try constructor; auto.
Qed.

(** The signature of a protocol 3.1 payload: 16 ASCII characters. *)
Lemma signature_ok (msg : bytes) :
  exists sig,
    latin1_encode (slice_to (slice_from (md5_hexdigest msg) 8) 16) = Ok sig /\
    length sig = 16%nat.
Proof.
  rewrite slice_from_spec, slice_to_spec by lia.
  change (Z.to_nat 8) with 8%nat. change (Z.to_nat 16) with 16%nat.
  eexists. split.
  - apply latin1_encode_ok. apply Forall_firstn, Forall_skipn.
    apply md5_hexdigest_latin1.
  - rewrite length_map, length_firstn, length_skipn, length_md5_hexdigest.
    reflexivity.
Qed.

Lemma encrypt_then_decrypt (c : AESCipher.t) (text : str) (p enc : bytes)
    (use_base64 : bool) :
  AESCipher.bs c = 16 ->
  utf8_encode text = Ok p ->
  AESCipher.encrypt c p use_base64 = Ok enc ->
  AESCipher.decrypt c enc use_base64 = Ok text.
Proof.
  intros Hbs Ht He.
  destruct (decrypt_encrypt_bs c p use_base64 Hbs) as (enc' & E & D).
  rewrite He in E. injection E as <-. rewrite D.
  now apply utf8_decode_encode.
Qed.

(** X20 Protocol 3.3, from sender to receiver.  For a command whose
    code is not 0x0A, the payload of the frame [_generate_payload]
    makes starts with the 15-byte header [b"3.3" + 12 * b"\x00"], and
    [_decode_payload], on any protocol 3.3 session with the same
    cipher and whatever its device type, strips the header, decrypts
    and hands to [json.loads] exactly the JSON text that was
    serialised, leaving the session unchanged, provided the text does
    not contain the marker [data unvalid]. *)
Theorem decode_generated_v33 (json_loads : str -> result json) (now : Z)
    (command : command_name) (data : option json)
    (self peer : TuyaProtocol.t) (g : payload_dict)
    (frame : bytes) (self' : TuyaProtocol.t) (g' : payload_dict) :
  TuyaProtocol.version self = TuyaProtocol.v3_3 ->
  AESCipher.bs (TuyaProtocol.cipher self) = 16 ->
  hexByte (pd_get g (TuyaProtocol.dev_type self) command) <> 0x0A ->
  TuyaProtocol.version peer = TuyaProtocol.v3_3 ->
  TuyaProtocol.cipher peer = TuyaProtocol.cipher self ->
  TuyaProtocol._generate_payload now command data self g = (Ok frame, self', g') ->
  let text :=
    remove_spaces (dumps (JObj (json_data_of now command data self g))) in
  str_contains (s_lit "data unvalid") text = false ->
  exists enc,
    pack_message
      (mkTuyaMessage (TuyaProtocol.seqno self)
         (hexByte (pd_get g (TuyaProtocol.dev_type self) command)) 0
         (PROTOCOL_33_HEADER ++ enc) 0) = Ok frame /\
    len PROTOCOL_33_HEADER = 15 /\
    TuyaProtocol._decode_payload json_loads (PROTOCOL_33_HEADER ++ enc) peer
    = (j <- json_loads text ;; Ok (Some j), peer).
Proof.
  intros Hver Hbs Hhb Hpv Hpc Hgen text Hmark.
  rewrite generate_payload_unfold in Hgen. cbv zeta in Hgen. fold text in Hgen.
  destruct (utf8_encode text) as [p|] eqn:Ep; cbn [bind] in Hgen;
    [|discriminate].
  unfold TuyaProtocol.wrap_payload in Hgen. rewrite Hver in Hgen.
  cbn [TuyaProtocol.is_v3_3] in Hgen.
  destruct (AESCipher.encrypt (TuyaProtocol.cipher self) p false)
    as [enc|] eqn:Eenc; cbn [bind] in Hgen; [|discriminate].
  replace (hexByte (pd_get g (TuyaProtocol.dev_type self) command) =? 10)
    with false in Hgen by (symmetry; now apply Z.eqb_neq).
  cbn [negb] in Hgen. injection Hgen as Hpack _ _.
  exists enc. split; [exact Hpack|]. split; [reflexivity|].
  unfold TuyaProtocol._decode_payload.
  replace (len (PROTOCOL_33_HEADER ++ enc) =? 0) with false.
  2:{ symmetry. apply Z.eqb_neq. rewrite len_app.
      pose proof (len_nonneg enc). change (len PROTOCOL_33_HEADER) with 15. lia. }
  change (startswith PROTOCOL_VERSION_BYTES_31 (PROTOCOL_33_HEADER ++ enc))
    with false.
  change (startswith PROTOCOL_VERSION_BYTES_33 (PROTOCOL_33_HEADER ++ enc))
    with true.
  rewrite Hpv. cbn [TuyaProtocol.is_v3_3]. rewrite orb_true_r.
  change (slice_from (PROTOCOL_33_HEADER ++ enc) (len PROTOCOL_33_HEADER))
    with (slice_from (PROTOCOL_33_HEADER ++ enc) 15).
  rewrite slice_from_spec by lia.
  change (skipn (Z.to_nat 15) (PROTOCOL_33_HEADER ++ enc)) with enc.
  rewrite Hpc.
  rewrite (encrypt_then_decrypt _ text p enc false Hbs Ep Eenc).
  rewrite Hmark. reflexivity.
Qed.

Lemma decode_generated_v33_witness :
  let json_loads := fun _ : str => Ok JNull in
  let self := demo_session TuyaProtocol.v3_3 type_0a in
  let peer := demo_session TuyaProtocol.v3_3 type_0d in
  let data := Some (JObj [(s_lit "1", JBool true)]) in
  let text :=
    q_lit "{'devId':'01234567891234567890','uid':'01234567891234567890','t':'1604492800','dps':{'1':true}}" in
  remove_spaces (dumps (JObj (json_data_of 1604492800 SET data self PAYLOAD_DICT)))
  = text /\
  exists frame enc,
    fst (fst (TuyaProtocol._generate_payload 1604492800 SET data self PAYLOAD_DICT))
    = Ok frame /\
    pack_message (mkTuyaMessage 0 7 0 (PROTOCOL_33_HEADER ++ enc) 0) = Ok frame /\
    len PROTOCOL_33_HEADER = 15 /\
    TuyaProtocol._decode_payload json_loads (PROTOCOL_33_HEADER ++ enc) peer
    = (j <- json_loads text ;; Ok (Some j), peer).
Proof.
  intros json_loads self peer data text.
  assert (Ht : remove_spaces
                 (dumps (JObj (json_data_of 1604492800 SET data self PAYLOAD_DICT)))
               = text) by (vm_compute; reflexivity).
  assert (H : exists frame self' g',
             TuyaProtocol._generate_payload 1604492800 SET data self
               PAYLOAD_DICT = (Ok frame, self', g')).
  { do 3 eexists. vm_compute. reflexivity. }
  destruct H as (frame & self' & g' & H).
  assert (Hhb : hexByte (pd_get PAYLOAD_DICT (TuyaProtocol.dev_type self) SET)
                <> 10) by (cbn; lia).
  assert (Hm : str_contains (s_lit "data unvalid")
                 (remove_spaces
                    (dumps (JObj (json_data_of 1604492800 SET data self
                                    PAYLOAD_DICT)))) = false)
    by (vm_compute; reflexivity).
  split; [exact Ht|].
  destruct (decode_generated_v33 json_loads 1604492800 SET data self peer
              PAYLOAD_DICT frame self' g' eq_refl eq_refl Hhb eq_refl eq_refl
              H Hm) as (enc & H1 & H2 & H3).
  exists frame, enc. rewrite H. rewrite Ht in H3.
  split; [reflexivity|]. split; [exact H1|]. split; [exact H2|exact H3].
Defined.

(** X21 Protocol 3.1, SET, from sender to receiver.  The payload of
    the frame is [b"3.1"], then a signature of 16 hexadecimal
    characters (characters 8 to 23 of the MD5 hex digest of
    [b"data=" + text + b"||lpv=3.1||" + local_key], where [text] is
    the base64 text of the encrypted JSON), then that base64 text.
    [_decode_payload], on a session of either protocol version with
    the same cipher, drops the three bytes of the version and the next
    16 bytes whatever they are (the signature is not verified),
    decodes and decrypts the rest, and hands to [json.loads] exactly
    the JSON text that was serialised. *)
Theorem decode_generated_v31_set (json_loads : str -> result json) (now : Z)
    (data : option json) (self peer : TuyaProtocol.t) (g : payload_dict)
    (frame : bytes) (self' : TuyaProtocol.t) (g' : payload_dict) :
  TuyaProtocol.version self = TuyaProtocol.v3_1 ->
  AESCipher.bs (TuyaProtocol.cipher self) = 16 ->
  TuyaProtocol.cipher peer = TuyaProtocol.cipher self ->
  TuyaProtocol._generate_payload now SET data self g = (Ok frame, self', g') ->
  let text := remove_spaces (dumps (JObj (json_data_of now SET data self g))) in
  exists sig enc,
    pack_message
      (mkTuyaMessage (TuyaProtocol.seqno self)
         (hexByte (pd_get g (TuyaProtocol.dev_type self) SET)) 0
         (PROTOCOL_VERSION_BYTES_31 ++ sig ++ enc) 0) = Ok frame /\
    latin1_encode
      (slice_to
         (slice_from
            (md5_hexdigest
               (b_lit "data=" ++ enc ++ b_lit "||lpv="
                ++ PROTOCOL_VERSION_BYTES_31 ++ b_lit "||"
                ++ TuyaProtocol.local_key self)) 8) 16) = Ok sig /\
    len sig = 16 /\
    forall sig', len sig' = 16 ->
      TuyaProtocol._decode_payload json_loads
        (PROTOCOL_VERSION_BYTES_31 ++ sig' ++ enc) peer
      = (j <- json_loads text ;; Ok (Some j), peer).
Proof.
  intros Hver Hbs Hpc Hgen text.
  rewrite generate_payload_unfold in Hgen. cbv zeta in Hgen. fold text in Hgen.
  destruct (utf8_encode text) as [p|] eqn:Ep; cbn [bind] in Hgen;
    [|discriminate].
  unfold TuyaProtocol.wrap_payload in Hgen. rewrite Hver in Hgen.
  cbn [TuyaProtocol.is_v3_3 command_name_eqb] in Hgen.
  destruct (AESCipher.encrypt (TuyaProtocol.cipher self) p true)
    as [enc|] eqn:Eenc; cbn [bind] in Hgen; [|discriminate].
  destruct (signature_ok (b_lit "data=" ++ enc ++ b_lit "||lpv="
                          ++ PROTOCOL_VERSION_BYTES_31 ++ b_lit "||"
                          ++ TuyaProtocol.local_key self))
    as (sig & Esig & Lsig).
  rewrite Esig in Hgen. cbn [bind] in Hgen. injection Hgen as Hpack _ _.
  exists sig, enc. split; [exact Hpack|]. split; [exact Esig|].
  split; [unfold len; now rewrite Lsig|].
  intros sig' Lsig'. unfold TuyaProtocol._decode_payload.
  replace (len (PROTOCOL_VERSION_BYTES_31 ++ sig' ++ enc) =? 0) with false.
  2:{ symmetry. apply Z.eqb_neq. rewrite !len_app.
      pose proof (len_nonneg enc).
      change (len PROTOCOL_VERSION_BYTES_31) with 3. lia. }
  change (startswith PROTOCOL_VERSION_BYTES_31
            (PROTOCOL_VERSION_BYTES_31 ++ sig' ++ enc)) with true.
  cbv iota.
  change (len PROTOCOL_VERSION_BYTES_31) with 3.
  rewrite (slice_from_spec _ 3) by lia.
  change (skipn (Z.to_nat 3) (PROTOCOL_VERSION_BYTES_31 ++ sig' ++ enc))
    with (sig' ++ enc).
  rewrite slice_from_spec by lia.
  replace (Z.to_nat 16) with (length sig') by (unfold len in Lsig'; lia).
  rewrite skipn_app, skipn_all, Nat.sub_diag. cbn [app skipn].
  rewrite Hpc.
  rewrite (encrypt_then_decrypt _ text p enc true Hbs Ep Eenc).
  reflexivity.
Qed.

Lemma decode_generated_v31_set_witness :
  let json_loads := fun _ : str => Ok JNull in
  let self := demo_session TuyaProtocol.v3_1 type_0a in
  let peer := demo_session TuyaProtocol.v3_3 type_0d in
  let data := Some (JObj [(s_lit "1", JBool true)]) in
  let text := remove_spaces
                (dumps (JObj (json_data_of 1604492800 SET data self PAYLOAD_DICT))) in
  exists frame sig enc,
    fst (fst (TuyaProtocol._generate_payload 1604492800 SET data self PAYLOAD_DICT))
    = Ok frame /\
    pack_message
      (mkTuyaMessage 0 7 0 (PROTOCOL_VERSION_BYTES_31 ++ sig ++ enc) 0)
    = Ok frame /\
    latin1_encode
      (slice_to
         (slice_from
            (md5_hexdigest
               (b_lit "data=" ++ enc ++ b_lit "||lpv="
                ++ PROTOCOL_VERSION_BYTES_31 ++ b_lit "||"
                ++ TuyaProtocol.local_key self)) 8) 16) = Ok sig /\
    len sig = 16 /\
    forall sig', len sig' = 16 ->
      TuyaProtocol._decode_payload json_loads
        (PROTOCOL_VERSION_BYTES_31 ++ sig' ++ enc) peer
      = (j <- json_loads text ;; Ok (Some j), peer).
Proof.
  intros json_loads self peer data text.
  assert (H : exists frame self' g',
             TuyaProtocol._generate_payload 1604492800 SET data self
               PAYLOAD_DICT = (Ok frame, self', g')).
  { do 3 eexists. vm_compute. reflexivity. }
  destruct H as (frame & self' & g' & H).
  destruct (decode_generated_v31_set json_loads 1604492800 data self peer
              PAYLOAD_DICT frame self' g' eq_refl eq_refl eq_refl H)
    as (sig & enc & H1 & H2 & H3 & H4).
  exists frame, sig, enc. rewrite H.
  split; [reflexivity|]. split; [exact H1|]. split; [exact H2|].
  split; [exact H3|exact H4].
Defined.

(* ================================================================== *)
(** * [TuyaProtocol]: what a session keeps *)

Ltac solve_evolves :=
  unfold evolves; simpl_session; repeat split; try reflexivity; try lia; auto.

Lemma evolves_refl (a : TuyaProtocol.t) : evolves a a.
Proof. solve_evolves. Qed.

Lemma evolves_trans (a b c : TuyaProtocol.t) :
  evolves a b -> evolves b c -> evolves a c.
Proof.
  intros (A1 & A2 & A3 & A4 & A5 & A6 & A7) (B1 & B2 & B3 & B4 & B5 & B6 & B7).
  unfold evolves. repeat split; try congruence; try lia; auto.
Qed.

Section Keeps.
Variable json_loads : str -> result json.

Lemma decode_payload_evolves (p : bytes) (self : TuyaProtocol.t) :
  evolves self (snd (TuyaProtocol._decode_payload json_loads p self)).
Proof.
  unfold TuyaProtocol._decode_payload.
  repeat match goal with
         | |- context [if ?b then _ else _] => destruct b
         | |- context [match ?r with Ok _ => _ | Raise _ => _ end] =>
             destruct r
         end; cbn [snd]; solve_evolves.
Qed.

Lemma status_update_evolves (msg : TuyaMessage) (self : TuyaProtocol.t) :
  evolves self (snd (TuyaProtocol._status_update json_loads msg self)).
Proof.
  unfold TuyaProtocol._status_update.
  pose proof (decode_payload_evolves (payload msg) self) as H.
  destruct (TuyaProtocol._decode_payload json_loads (payload msg) self)
    as [[d|e] self1]; cbn [snd] in *; [|exact H].
  eapply evolves_trans; [exact H|]. solve_evolves.
Qed.

Lemma exchange_finish_evolves (command : command_name) (dps : option json)
    (dt : device_type) (msg : slot) (self : TuyaProtocol.t) :
  evolves self
    (snd (TuyaProtocol.exchange_finish json_loads command dps dt msg self)).
Proof.
  unfold TuyaProtocol.exchange_finish. destruct msg as [id|m|];
    cbn [snd]; try apply evolves_refl.
  pose proof (decode_payload_evolves (payload m) self) as H.
  destruct (TuyaProtocol._decode_payload json_loads (payload m) self)
    as [[d|e] self1]; cbn [snd] in *; [|exact H].
  destruct (negb _); exact H.
Qed.

(** The status callback works on the session; the loop of [add_data]
    hands it from one frame to the next. *)
Lemma dispatch_env_evolves (m : TuyaMessage) (d : t) (self : TuyaProtocol.t) :
  evolves self
    (snd (_dispatch (TuyaProtocol._status_update json_loads) m d self)).
Proof.
  unfold _dispatch.
  destruct (dict_get Z.eqb _ (seqno m)) as [sem|].
  - destruct (release sem _). cbn [snd]. apply evolves_refl.
  - destruct (cmd m =? 9); [apply evolves_refl|].
    destruct (cmd m =? 8); [|apply evolves_refl].
    pose proof (status_update_evolves m self) as H.
    destruct (TuyaProtocol._status_update json_loads m self). exact H.
Qed.

Lemma add_data_loop_env_evolves (fuel : nat) :
  forall (d : t) (self : TuyaProtocol.t),
    evolves self
      (snd (add_data_loop (TuyaProtocol._status_update json_loads)
              fuel d self)).
Proof.
  induction fuel as [|fuel IH]; intros d self; [apply evolves_refl|].
  rewrite add_data_loop_step.
  destruct (next_frame (buffer d)) as [[m rest]|]; [|apply evolves_refl].
  pose proof (dispatch_env_evolves m (set_buffer d rest) self) as Hd.
  destruct (_dispatch (TuyaProtocol._status_update json_loads) m
              (set_buffer d rest) self) as [[[u|e] d'] self'];
    cbn [after_dispatch snd] in *; [|exact Hd].
  eapply evolves_trans; [exact Hd|apply IH].
Qed.

Lemma data_received_evolves (data : bytes) (self : TuyaProtocol.t) :
  evolves self (snd (TuyaProtocol.data_received json_loads data self)).
Proof.
  unfold TuyaProtocol.data_received.
  pose proof (add_data_last_seqno (TuyaProtocol._status_update json_loads)
                data (TuyaProtocol.dispatcher self) self) as Hl.
  pose proof (add_data_loop_env_evolves
                (length (buffer (set_buffer (TuyaProtocol.dispatcher self)
                                   (buffer (TuyaProtocol.dispatcher self) ++ data))))
                (set_buffer (TuyaProtocol.dispatcher self)
                   (buffer (TuyaProtocol.dispatcher self) ++ data)) self) as He.
  fold (add_data (TuyaProtocol._status_update json_loads) data
          (TuyaProtocol.dispatcher self) self) in He.
  destruct (add_data (TuyaProtocol._status_update json_loads) data
              (TuyaProtocol.dispatcher self) self) as [[r d] self'].
  cbn [fst snd] in *.
  destruct He as (A1 & A2 & A3 & A4 & A5 & A6 & A7).
  solve_evolves.
Qed.

Lemma generate_payload_evolves (now : Z) (command : command_name)
    (data : option json) (self : TuyaProtocol.t) (g : payload_dict) :
  evolves self
    (snd (fst (TuyaProtocol._generate_payload now command data self g))).
Proof.
  rewrite generate_payload_unfold. cbv zeta.
  destruct (payload <- utf8_encode _ ;; TuyaProtocol.wrap_payload _ _ _ payload);
    cbn [fst snd]; solve_evolves.
Qed.

Lemma heartbeat_evolves (now : Z) (self : TuyaProtocol.t) (g : payload_dict) :
  evolves self (snd (fst (TuyaProtocol.heartbeat now self g))).
Proof.
  unfold TuyaProtocol.heartbeat.
  pose proof (generate_payload_evolves now HEARTBEAT None self g) as H.
  destruct (TuyaProtocol._generate_payload now HEARTBEAT None self g)
    as [[[frame|e] self1] g1]; cbn [fst snd] in *; [|exact H].
  unfold TuyaProtocol.transport_write.
  destruct (TuyaProtocol.transport self1); cbn [fst snd]; [|exact H].
  eapply evolves_trans; [exact H|]. solve_evolves.
Qed.

Lemma exchange_start_evolves (now : Z) (command : command_name)
    (dps : option json) (self : TuyaProtocol.t) (g : payload_dict) :
  evolves self
    (snd (fst (TuyaProtocol.exchange_start json_loads now command dps self g))).
Proof.
  unfold TuyaProtocol.exchange_start.
  pose proof (generate_payload_evolves now command dps self g) as H.
  destruct (TuyaProtocol._generate_payload now command dps self g)
    as [[[frame|e] self1] g1]; cbn [fst snd] in *; [|exact H].
  unfold TuyaProtocol.transport_write.
  destruct (TuyaProtocol.transport self1) as [w|]; cbn [fst snd]; [|exact H].
  simpl_session.
  pose proof (wait_for_start_last_seqno (TuyaProtocol.seqno self1 - 1)
                (TuyaProtocol.dispatcher self1)) as Hw.
  destruct (wait_for_start (TuyaProtocol.seqno self1 - 1)
              (TuyaProtocol.dispatcher self1)) as [st d]. cbn [snd] in Hw.
  assert (Hs : evolves self
                 (TuyaProtocol.set_dispatcher
                    (TuyaProtocol.set_transport self1 (Some (w ++ [frame]))) d)).
  { eapply evolves_trans; [exact H|]. solve_evolves. }
  destruct st as [msg|e|sem]; cbn [fst snd]; try exact Hs.
  pose proof (exchange_finish_evolves command dps
                (TuyaProtocol.dev_type self1) msg
                (TuyaProtocol.set_dispatcher
                   (TuyaProtocol.set_transport self1 (Some (w ++ [frame]))) d))
    as Hf.
  simpl_session.
  destruct (TuyaProtocol.exchange_finish _ _ _ _ _ _) as [[v|e] self2];
    cbn [fst snd] in *; eapply evolves_trans; eassumption.
Qed.

Lemma exchange_resume_evolves (k : TuyaProtocol.suspended)
    (self self' : TuyaProtocol.t) (r : result TuyaProtocol.value) :
  TuyaProtocol.exchange_resume json_loads k self = Some (r, self') ->
  evolves self self'.
Proof.
  unfold TuyaProtocol.exchange_resume.
  destruct (wait_for_resume _ _ _) as [[[msg|e] d]|] eqn:Ew; [| |discriminate].
  - apply wait_for_resume_last_seqno in Ew.
    pose proof (exchange_finish_evolves (TuyaProtocol.s_command k)
                  (TuyaProtocol.s_dps k) (TuyaProtocol.s_dev_type k) msg
                  (TuyaProtocol.set_dispatcher self d)) as Hf.
    intros H. injection H as H. rewrite H in Hf. cbn [snd] in Hf.
    eapply evolves_trans; [|exact Hf]. solve_evolves.
  - apply wait_for_resume_last_seqno in Ew.
    intros H. injection H as _ <-. solve_evolves.
Qed.

Lemma exchange_timeout_evolves (k : TuyaProtocol.suspended)
    (self : TuyaProtocol.t) :
  evolves self (snd (TuyaProtocol.exchange_timeout k self)).
Proof.
  unfold TuyaProtocol.exchange_timeout.
  pose proof (wait_for_timeout_last_seqno (TuyaProtocol.s_seqno k)
                (TuyaProtocol.dispatcher self)) as Hw.
  destruct (wait_for_timeout _ _) as [r d]. cbn [snd] in *. solve_evolves.
Qed.

Lemma close_evolves (self : TuyaProtocol.t) :
  evolves self (snd (TuyaProtocol.close self)).
Proof.
  unfold TuyaProtocol.close.
  destruct (TuyaProtocol.transport self); [|apply evolves_refl].
  pose proof (abort_last_seqno (TuyaProtocol.dispatcher self)) as Ha.
  destruct (abort (TuyaProtocol.dispatcher self)) as [[u|e] d];
    cbn [snd] in *; [|solve_evolves].
  simpl_session. destruct (TuyaProtocol.heartbeater self); cbn [snd];
    solve_evolves.
Qed.

Lemma add_dps_to_request_many_evolves (l : list Z) :
  forall self, evolves self (TuyaProtocol.add_dps_to_request_many l self).
Proof.
  unfold TuyaProtocol.add_dps_to_request_many.
  induction l as [|i l IH]; intros self; [apply evolves_refl|].
  cbn [fold_left]. eapply evolves_trans; [|apply IH].
  unfold TuyaProtocol.add_dps_to_request. solve_evolves.
Qed.

Lemma step_evolves (e : event) (self : TuyaProtocol.t) (g : payload_dict) :
  evolves self (fst (step json_loads e (self, g))).
Proof.
  destruct e as [|data| | |now|now cmd_name dps|k|k|i|l]; cbn [step].
  - unfold TuyaProtocol.connection_made. cbn [fst]. solve_evolves.
  - apply data_received_evolves.
  - apply close_evolves.
  - apply close_evolves.
  - pose proof (heartbeat_evolves now self g) as H.
    destruct (TuyaProtocol.heartbeat now self g) as [[r s] g']. exact H.
  - pose proof (exchange_start_evolves now cmd_name dps self g) as H.
    destruct (TuyaProtocol.exchange_start json_loads now cmd_name dps self g)
      as [[r s] g']. exact H.
  - destruct (TuyaProtocol.exchange_resume json_loads k self)
      as [[r s]|] eqn:E; cbn [fst]; [|apply evolves_refl].
    eapply exchange_resume_evolves. exact E.
  - apply exchange_timeout_evolves.
  - cbn [fst]. unfold TuyaProtocol.add_dps_to_request. solve_evolves.
  - apply add_dps_to_request_many_evolves.
Qed.

(** X22 What a session keeps.  Through any sequence of calls (the
    transport callbacks [connection_made], [data_received] and
    [connection_lost], [close], [heartbeat], [add_dps_to_request],
    and [exchange] from its start to its end, by response or by
    timeout), returning or raising: the device id, the key, the
    protocol version and the cipher never change; the sequence
    counter never decreases; the dispatcher's [last_seqno] never
    decreases; and a session that has become [type_0d] never goes
    back to [type_0a]. *)
Theorem session_keeps (es : list event) (self : TuyaProtocol.t)
    (g : payload_dict) :
  evolves self (fst (run_events json_loads es (self, g))).
Proof.
  revert self g. induction es as [|e es IH]; intros self g;
    [apply evolves_refl|].
  unfold run_events. cbn [fold_left]. fold (run_events json_loads es).
  pose proof (step_evolves e self g) as H.
  destruct (step json_loads e (self, g)) as [self1 g1]. cbn [fst] in H.
  eapply evolves_trans; [exact H|apply IH].
Qed.
End Keeps.

(* ================================================================== *)
(** * [__init__], [heartbeat] and the requested datapoints *)

Lemma latin1_encode_cases (s : str) :
  latin1_encode s
  = if forallb (fun c => (0 <=? c) && (c <? 256)) s
    then Ok (map byte_of_Z s) else Raise UnicodeEncodeError.
Proof.
  induction s as [|c s IH]; [reflexivity|].
  cbn [latin1_encode forallb map].
  destruct ((0 <=? c) && (c <? 256)); [|reflexivity].
  rewrite IH. cbn [andb]. destruct (forallb _ s); reflexivity.
Qed.

(** X23 [TuyaProtocol.__init__].  The key is encoded as Latin-1: a
    key with a character above U+00FF raises [UnicodeEncodeError];
    otherwise the key has one byte per character, and a key that has
    not 16, 24 or 32 characters raises [ValueError] in [AESCipher].
    A session that is built starts as [type_0a], with sequence number
    0, no datapoints to request, no transport and no heartbeat task,
    and a dispatcher with [last_seqno = -1]. *)
Theorem init_outcomes (dev_id key : str)
    (protocol_version : TuyaProtocol.protocol_version) :
  TuyaProtocol.init dev_id key protocol_version
  = if forallb (fun c => (0 <=? c) && (c <? 256)) key
    then
      if (len key =? 16) || (len key =? 24) || (len key =? 32)
      then
        Ok (TuyaProtocol.mk dev_id (map byte_of_Z key) protocol_version
              type_0a []
              (AESCipher.mk 16 (key_expansion (map byte_of_Z key)))
              0 None (mk [] [] (-1) []) None [])
      else Raise ValueError
    else Raise UnicodeEncodeError.
Proof.
  unfold TuyaProtocol.init. rewrite latin1_encode_cases.
  destruct (forallb _ key); [|reflexivity]. cbn [bind].
  unfold AESCipher.init, Cipher_AES_ECB.
  replace (len (map byte_of_Z key)) with (len key)
    by (unfold len; now rewrite length_map).
  destruct ((len key =? 16) || (len key =? 24) || (len key =? 32));
    reflexivity.
Qed.

Lemma table_set_same (tb : command_table) (c : command_name) :
  table_set tb c (table_get tb c) = tb.
Proof. destruct tb, c; reflexivity. Qed.

Lemma pd_set_command_same (g : payload_dict) (dt : device_type)
    (c : command_name) :
  pd_set_command g dt c (command (pd_get g dt c)) = g.
Proof.
  unfold pd_set_command.
  replace (mk_cmd_data (hexByte (pd_get g dt c)) (command (pd_get g dt c)))
    with (pd_get g dt c) by (destruct (pd_get g dt c); reflexivity).
  destruct g as [ta td], dt; unfold pd_get; cbn;
    now rewrite table_set_same.
Qed.

(** X24 [heartbeat] under protocol 3.1.  As long as the HEARTBEAT
    template of the session's device type is the empty dictionary it
    is in [PAYLOAD_DICT], [heartbeat] on an open transport writes one
    frame, which is [pack_message] of the session's sequence number,
    command 0x09 and the clear text [{}], whatever the time and the
    device id; it increments the sequence number, registers no waiter
    and leaves [PAYLOAD_DICT] as it is. *)
Theorem heartbeat_v31 (now : Z) (self : TuyaProtocol.t) (g : payload_dict)
    (w : list bytes) :
  TuyaProtocol.version self = TuyaProtocol.v3_1 ->
  pd_get g (TuyaProtocol.dev_type self) HEARTBEAT = mk_cmd_data 0x09 [] ->
  TuyaProtocol.transport self = Some w ->
  0 <= TuyaProtocol.seqno self < 2 ^ 32 ->
  exists frame,
    pack_message (mkTuyaMessage (TuyaProtocol.seqno self) 0x09 0 (b_lit "{}") 0)
    = Ok frame /\
    len frame = 26 /\
    TuyaProtocol.heartbeat now self g
    = (Ok tt,
       TuyaProtocol.set_transport
         (TuyaProtocol.set_seqno self (TuyaProtocol.seqno self + 1))
         (Some (w ++ [frame])),
       g).
Proof.
  intros Hver Hpd Htr Hseq.
  destruct (pack_message_ok
              (mkTuyaMessage (TuyaProtocol.seqno self) 9 0 (b_lit "{}") 0))
    as (frame & Hp); cbn [seqno cmd payload]; try lia.
  { change (len (b_lit "{}")) with 2. lia. }
  exists frame. split; [exact Hp|]. split.
  { apply pack_message_inv in Hp. cbv zeta in Hp. destruct Hp as (_ & _ & ->).
    reflexivity. }
  unfold TuyaProtocol.heartbeat. rewrite generate_payload_unfold. cbv zeta.
  assert (Ej : json_data_of now HEARTBEAT None self g = []).
  { unfold json_data_of. rewrite Hpd. reflexivity. }
  rewrite Ej, Hpd. cbn [hexByte].
  change (utf8_encode (remove_spaces (dumps (JObj [])))) with (Ok (b_lit "{}")).
  cbn [bind]. unfold TuyaProtocol.wrap_payload. rewrite Hver.
  cbn [TuyaProtocol.is_v3_3 command_name_eqb]. rewrite Hp.
  unfold TuyaProtocol.transport_write. simpl_session. rewrite Htr.
  replace (pd_set_command g (TuyaProtocol.dev_type self) HEARTBEAT [])
    with g; [reflexivity|].
  rewrite <- (pd_set_command_same g (TuyaProtocol.dev_type self) HEARTBEAT) at 1.
  now rewrite Hpd.
Qed.

Lemma heartbeat_v31_witness :
  let self := demo_session TuyaProtocol.v3_1 type_0a in
  exists frame,
    pack_message (mkTuyaMessage 0 0x09 0 (b_lit "{}") 0) = Ok frame /\
    len frame = 26 /\
    TuyaProtocol.heartbeat 1604492800 self PAYLOAD_DICT
    = (Ok tt,
       TuyaProtocol.set_transport (TuyaProtocol.set_seqno self 1) (Some [frame]),
       PAYLOAD_DICT).
Proof.
  intros self.
  assert (H : 0 <= TuyaProtocol.seqno self < 2 ^ 32) by (cbn; lia).
  exact (heartbeat_v31 1604492800 self PAYLOAD_DICT [] eq_refl eq_refl eq_refl H).
Defined.

Lemma dict_set_set {V} (d : list (str * V)) (k : str) (v v' : V) :
  dict_set str_eqb (dict_set str_eqb d k v) k v' = dict_set str_eqb d k v'.
Proof.
  induction d as [|[k0 v0] d IH]; cbn [dict_set].
  - now rewrite str_eqb_refl.
  - destruct (str_eqb k0 k) eqn:E; cbn [dict_set]; rewrite E; [reflexivity|].
    now rewrite IH.
Qed.

(** X25 The STATUS request of a [type_0d] session.  When the command
    code of the entry is 0x0D, the [dps] member of the JSON that is
    sent is the session's [dps_to_request], in which every index given
    to [add_dps_to_request] is a key with the value [None]; the data
    given to [_generate_payload] is ignored: the call returns the same
    frame and leaves the same [PAYLOAD_DICT] with and without it. *)
Theorem status_0d_requests_dps (now : Z) (command : command_name) (d : json)
    (self : TuyaProtocol.t) (g : payload_dict) (dps_index : Z) :
  hexByte (pd_get g (TuyaProtocol.dev_type self) command) = 0x0D ->
  let self1 := TuyaProtocol.add_dps_to_request dps_index self in
  TuyaProtocol._generate_payload now command (Some d) self1 g
  = TuyaProtocol._generate_payload now command None self1 g /\
  dict_get str_eqb (json_data_of now command (Some d) self1 g) (s_lit "dps")
  = Some (JObj (TuyaProtocol.dps_to_request self1)) /\
  dict_get str_eqb (TuyaProtocol.dps_to_request self1) (str_of_int dps_index)
  = Some JNull.
Proof.
  intros Hhb self1.
  assert (Hhb1 : hexByte (pd_get g (TuyaProtocol.dev_type self1) command) = 13)
    by exact Hhb.
  split; [|split].
  - unfold TuyaProtocol._generate_payload. cbv zeta. rewrite Hhb1.
    change (13 =? 13) with true. cbv iota. now rewrite dict_set_set.
  - unfold json_data_of. rewrite Hhb1. change (13 =? 13) with true. cbv iota.
    apply dict_get_set_same.
  - unfold self1, TuyaProtocol.add_dps_to_request. simpl_session.
    apply dict_get_set_same.
Qed.

Lemma status_0d_requests_dps_witness :
  let self := TuyaProtocol.add_dps_to_request 1
                (demo_session TuyaProtocol.v3_3 type_0d) in
  let self1 := TuyaProtocol.add_dps_to_request 20 self in
  let d := JObj [(s_lit "7", JBool true)] in
  TuyaProtocol._generate_payload 1604492800 STATUS (Some d) self1 PAYLOAD_DICT
  = TuyaProtocol._generate_payload 1604492800 STATUS None self1 PAYLOAD_DICT /\
  dict_get str_eqb (json_data_of 1604492800 STATUS (Some d) self1 PAYLOAD_DICT)
    (s_lit "dps")
  = Some (JObj [(s_lit "1", JNull); (s_lit "20", JNull)]) /\
  dict_get str_eqb (TuyaProtocol.dps_to_request self1) (str_of_int 20)
  = Some JNull.
Proof.
  intros self self1 d.
  assert (H : hexByte (pd_get PAYLOAD_DICT (TuyaProtocol.dev_type self) STATUS)
              = 13) by reflexivity.
  exact (status_0d_requests_dps 1604492800 STATUS d self PAYLOAD_DICT 20 H).
Defined.

(* ================================================================== *)
(** * [detect_available_dps] *)

(** ** [exchange] leaves [dps_to_request] alone *)

Section DpsToRequest.
Variable json_loads : str -> result json.



End DpsToRequest.


Section DetectFacts.
Variable json_loads : str -> result json.



Lemma merge_abort (data : TuyaProtocol.value) (detected : list (json * json)) :
  data = TuyaProtocol.VNone \/
  (exists c d, data = TuyaProtocol.VCoroutine c d) ->
  Detect.merge data detected = Raise TypeError.
Proof. intros [->|(c & d & ->)]; reflexivity. Qed.

(** X27 [detect_available_dps] after [status()].  When the awaited
    [status()] gives [None] (the wait was aborted, or the sequence
    number was stale) or the coroutine object that [exchange] returns
    after a change of device type, [data["dps"]] raises [TypeError]
    and the detection ends with it.  When it gives a JSON object
    whose [dps] member is an object, the members are merged into the
    result, later values replacing earlier ones, and on a [type_0a]
    session the result is returned at once, however many ranges are
    left: one exchange is all that is made. *)
Theorem detect_after_status (k : Detect.suspended)
    (self self1 : TuyaProtocol.t) (g : payload_dict)
    (data : TuyaProtocol.value) :
  TuyaProtocol.exchange_resume json_loads (Detect.s_exchange k) self
  = Some (Ok data, self1) ->
  (data = TuyaProtocol.VNone \/
   (exists c d, data = TuyaProtocol.VCoroutine c d) ->
   Detect.detect_available_dps_resume json_loads k self g
   = Some (Detect.Raised TypeError, self1, g)) /\
  (forall kv dps,
      data = TuyaProtocol.VJson (JObj kv) ->
      dict_get str_eqb kv (s_lit "dps") = Some (JObj dps) ->
      TuyaProtocol.dev_type self1 = type_0a ->
      Detect.detect_available_dps_resume json_loads k self g
      = Some (Detect.Returned
                (fold_left
                   (fun d kv => dict_set key_eqb d (JStr (fst kv)) (snd kv))
                   dps (Detect.s_detected k)),
              self1, g)).
Proof.
  intros Hres. unfold Detect.detect_available_dps_resume. rewrite Hres.
  unfold Detect.after_status. split.
  - intros Hd. now rewrite merge_abort.
  - intros kv dps -> Hdps Hdt. unfold Detect.merge. cbn [getitem_dps].
    rewrite Hdps. cbn [bind dict_update]. now rewrite Hdt.
Qed.
End DetectFacts.

(** The theorem on the first detection made against a type-D device:
    the device answers the type-A request with the [data unvalid]
    marker. *)
Lemma detect_after_status_witness :
  let json_loads := fun _ : str => Ok JNull in
  let s0 := demo_session TuyaProtocol.v3_3 type_0a in
  exists k s1 g1 response s2 s3,
    Detect.detect_available_dps_start json_loads
      1604492800 1604492801 1604492802 1604492803 s0 PAYLOAD_DICT
    = (Detect.Waiting k, s1, g1) /\
    AESCipher.encrypt (TuyaProtocol.cipher s0)
      (b_lit "json obj data unvalid") false = Ok response /\
    TuyaProtocol.data_received json_loads
      (recv_frame (mkTuyaMessage 0 0x0A 0 response 0)) s1 = (Ok tt, s2) /\
    TuyaProtocol.exchange_resume json_loads (Detect.s_exchange k) s2
    = Some (Ok (TuyaProtocol.VCoroutine STATUS None), s3) /\
    TuyaProtocol.dev_type s3 = type_0d /\
    Detect.detect_available_dps_resume json_loads k s2 g1
    = Some (Detect.Raised TypeError, s3, g1).
Proof.
  intros json_loads s0.
  assert (H : exists k s1 g1 response s2 s3,
             Detect.detect_available_dps_start json_loads
               1604492800 1604492801 1604492802 1604492803 s0 PAYLOAD_DICT
             = (Detect.Waiting k, s1, g1) /\
             AESCipher.encrypt (TuyaProtocol.cipher s0)
               (b_lit "json obj data unvalid") false = Ok response /\
             TuyaProtocol.data_received json_loads
               (recv_frame (mkTuyaMessage 0 0x0A 0 response 0)) s1 = (Ok tt, s2) /\
             TuyaProtocol.exchange_resume json_loads (Detect.s_exchange k) s2
             = Some (Ok (TuyaProtocol.VCoroutine STATUS None), s3) /\
             TuyaProtocol.dev_type s3 = type_0d).
  { do 6 eexists.
    split; [vm_compute; reflexivity|].
    split; [vm_compute; reflexivity|].
    split; [vm_compute; reflexivity|].
    split; [vm_compute; reflexivity|].
    vm_compute; reflexivity. }
  destruct H as (k & s1 & g1 & response & s2 & s3 & H1 & H2 & H3 & H4 & H5).
  exists k, s1, g1, response, s2, s3.
  split; [exact H1|]. split; [exact H2|]. split; [exact H3|].
  split; [exact H4|]. split; [exact H5|].
  exact (proj1 (detect_after_status json_loads k s2 s3 g1
                  (TuyaProtocol.VCoroutine STATUS None) H4)
           (or_intror (ex_intro _ STATUS (ex_intro _ None eq_refl)))).
Defined.

(* ================================================================== *)
(** * A response and a push, from the bytes received to the caller *)

(** One frame received on an empty buffer is dispatched. *)
Lemma add_data_one_frame {Env : Type}
    (listener : TuyaMessage -> Env -> result unit * Env)
    (m : TuyaMessage) (d : t) (env : Env) :
  frame_ok m -> buffer d = [] ->
  add_data listener (recv_frame m) d env = _dispatch listener m d env.
Proof.
  intros Hm Hb. rewrite add_data_run, run_unfold. cbn [buffer set_buffer].
  rewrite Hb. cbn [app]. rewrite <- (app_nil_r (recv_frame m)).
  rewrite next_frame_recv_frame by assumption.
  rewrite set_buffer_set_buffer. rewrite <- Hb, set_buffer_same.
  pose proof (dispatch_buffer listener m d env) as Hbuf.
  destruct (_dispatch listener m d env) as [[r d1] env1] eqn:Ed.
  cbn [fst snd] in Hbuf. unfold after_dispatch.
  destruct r as [[]|e]; [|reflexivity].
  apply run_idle. rewrite Hbuf, Hb. reflexivity.
Qed.



Ltac simpl_suspended :=
  cbn [TuyaProtocol.s_command TuyaProtocol.s_dps TuyaProtocol.s_dev_type
       TuyaProtocol.s_seqno TuyaProtocol.s_sem].

Lemma device_type_eqb_refl (dt : device_type) : device_type_eqb dt dt = true.
Proof. destruct dt; reflexivity. Qed.

(** X29 An exchange that is answered.  [exchange] writes its frame
    and stays suspended until a frame with the sequence number it sent
    is received; [data_received] of that frame, whatever its command,
    stores it for the waiter without calling the status callback; the
    exchange then continues, decodes the payload of that frame and,
    the device type being unchanged, returns the decoded value.  The
    registry is then as it was before, and the counter one more. *)
Theorem exchange_returns_response (json_loads : str -> result json) (now : Z)
    (command : command_name) (dps : option json) (self : TuyaProtocol.t)
    (g : payload_dict) (frame : bytes) (self1 : TuyaProtocol.t)
    (g1 : payload_dict) (w : list bytes) (m : TuyaMessage) (j : json) :
  TuyaProtocol._generate_payload now command dps self g = (Ok frame, self1, g1) ->
  TuyaProtocol.transport self = Some w ->
  buffer (TuyaProtocol.dispatcher self) = [] ->
  last_seqno (TuyaProtocol.dispatcher self) < TuyaProtocol.seqno self ->
  dict_mem Z.eqb (listeners (TuyaProtocol.dispatcher self))
    (TuyaProtocol.seqno self) = false ->
  frame_ok m -> seqno m = TuyaProtocol.seqno self ->
  (forall s,
      TuyaProtocol.version s = TuyaProtocol.version self ->
      TuyaProtocol.dev_type s = TuyaProtocol.dev_type self ->
      TuyaProtocol.cipher s = TuyaProtocol.cipher self ->
      TuyaProtocol._decode_payload json_loads (payload m) s = (Ok (Some j), s)) ->
  exists k s1 s2 s3,
    TuyaProtocol.exchange_start json_loads now command dps self g
    = (TuyaProtocol.Waiting k, s1, g1) /\
    TuyaProtocol.transport s1 = Some (w ++ [frame]) /\
    TuyaProtocol.exchange_resume json_loads k s1 = None /\
    TuyaProtocol.data_received json_loads (recv_frame m) s1 = (Ok tt, s2) /\
    TuyaProtocol.status_calls s2 = TuyaProtocol.status_calls self /\
    TuyaProtocol.exchange_resume json_loads k s2
    = Some (Ok (TuyaProtocol.VJson j), s3) /\
    listeners (TuyaProtocol.dispatcher s3)
    = listeners (TuyaProtocol.dispatcher self) /\
    TuyaProtocol.seqno s3 = TuyaProtocol.seqno self + 1.
Proof.
  intros Hgen Htr Hb Hlast Hmem Hm Hs Hdec.
  pose proof (dict_mem_false _ _ Hmem) as Hnotin.
  destruct (generate_payload_session _ _ _ _ _ _ _ _ Hgen) as (-> & Hseq).
  set (d := TuyaProtocol.dispatcher self) in *.
  set (sem := length (semaphores d)).
  set (sent := TuyaProtocol.set_transport
                 (TuyaProtocol.set_seqno self (TuyaProtocol.seqno self + 1))
                 (Some (w ++ [frame]))).
  exists (TuyaProtocol.mk_suspended command dps (TuyaProtocol.dev_type self)
            (TuyaProtocol.seqno self) sem).
  exists (TuyaProtocol.set_dispatcher sent
            (mk (buffer d) (listeners d ++ [(TuyaProtocol.seqno self, Sem sem)])
               (last_seqno d) (semaphores d ++ [0]))).
  exists (TuyaProtocol.set_dispatcher sent
            (mk (buffer d) (listeners d ++ [(TuyaProtocol.seqno self, Msg m)])
               (Z.max (last_seqno d) (TuyaProtocol.seqno self))
               (semaphores d ++ [1]))).
  exists (TuyaProtocol.set_dispatcher sent
            (mk (buffer d) (listeners d)
               (Z.max (last_seqno d) (TuyaProtocol.seqno self))
               (semaphores d ++ [0]))).
  split.
  { unfold TuyaProtocol.exchange_start. rewrite Hgen.
    unfold TuyaProtocol.transport_write. simpl_session. rewrite Htr.
    simpl_session.
    replace (TuyaProtocol.seqno self + 1 - 1) with (TuyaProtocol.seqno self)
      by lia.
    fold d. rewrite wait_for_start_registers by assumption. reflexivity. }
  split; [reflexivity|].
  split.
  { unfold TuyaProtocol.exchange_resume, wait_for_resume, can_resume, sem_value.
    unfold sent. simpl_suspended. simpl_session. simpl_state.
    unfold sem. rewrite nth_last. reflexivity. }
  split.
  { unfold TuyaProtocol.data_received. unfold sent at 1. simpl_session.
    rewrite add_data_one_frame by (try assumption; exact Hb).
    unfold _dispatch. simpl_state. rewrite Hs.
    rewrite dict_get_new by assumption. simpl_state.
    rewrite dict_set_new by assumption. simpl_state.
    unfold sem. rewrite list_update_last. reflexivity. }
  split; [reflexivity|].
  split.
  { unfold TuyaProtocol.exchange_resume, wait_for_resume, can_resume, sem_value.
    unfold sent. simpl_suspended. simpl_session. simpl_state.
    unfold sem. rewrite nth_last.
    cbn [Z.ltb Z.compare]. simpl_state.
    rewrite dict_get_new by assumption. simpl_state.
    rewrite dict_del_new by assumption. rewrite list_update_last.
    cbn [TuyaProtocol.exchange_finish].
    rewrite Hdec by reflexivity. simpl_session.
    rewrite device_type_eqb_refl. reflexivity. }
  split; reflexivity.
Qed.

Lemma decode_clear_json (json_loads : str -> result json) (p : bytes)
    (text : str) (j : json) (s : TuyaProtocol.t) :
  TuyaProtocol.version s = TuyaProtocol.v3_1 ->
  startswith (b_lit "{") p = true ->
  utf8_decode p = Ok text -> json_loads text = Ok j ->
  TuyaProtocol._decode_payload json_loads p s = (Ok (Some j), s).
Proof.
  intros Hv Hp Ht Hj. unfold TuyaProtocol._decode_payload.
  destruct p as [|b p']; [discriminate|].
  change (len (b :: p') =? 0) with (Z.pos (Pos.of_succ_nat (length p')) =? 0).
  cbn [Z.eqb].
  assert (H31 : startswith PROTOCOL_VERSION_BYTES_31 (b :: p') = false).
  { cbn [startswith b_lit] in Hp. apply andb_true_iff in Hp.
    destruct Hp as [Hp _]. apply byte_eqb_eq in Hp. subst b. reflexivity. }
  rewrite H31, Hv. cbn [TuyaProtocol.is_v3_3]. rewrite Hp. cbn [negb].
  rewrite Ht, Hj. reflexivity.
Qed.

Lemma exchange_returns_response_witness :
  let j := JObj [(s_lit "dps", JObj [(s_lit "1", JBool true)])] in
  let json_loads := fun _ : str => Ok j in
  let self := demo_session TuyaProtocol.v3_1 type_0a in
  let m := mkTuyaMessage 0 10 0 (b_lit "{}") 0 in
  exists frame k s1 s2 s3,
    fst (fst (TuyaProtocol._generate_payload 1604492800 STATUS None self
                PAYLOAD_DICT)) = Ok frame /\
    fst (fst (TuyaProtocol.exchange_start json_loads 1604492800 STATUS None
                self PAYLOAD_DICT)) = TuyaProtocol.Waiting k /\
    snd (fst (TuyaProtocol.exchange_start json_loads 1604492800 STATUS None
                self PAYLOAD_DICT)) = s1 /\
    TuyaProtocol.transport s1 = Some ([] ++ [frame]) /\
    TuyaProtocol.exchange_resume json_loads k s1 = None /\
    TuyaProtocol.data_received json_loads (recv_frame m) s1 = (Ok tt, s2) /\
    TuyaProtocol.status_calls s2 = TuyaProtocol.status_calls self /\
    TuyaProtocol.exchange_resume json_loads k s2
    = Some (Ok (TuyaProtocol.VJson j), s3) /\
    listeners (TuyaProtocol.dispatcher s3)
    = listeners (TuyaProtocol.dispatcher self) /\
    TuyaProtocol.seqno s3 = TuyaProtocol.seqno self + 1.
Proof.
  intros j json_loads self m.
  assert (H : exists frame self1 g1,
             TuyaProtocol._generate_payload 1604492800 STATUS None self
               PAYLOAD_DICT = (Ok frame, self1, g1)).
  { do 3 eexists. vm_compute. reflexivity. }
  destruct H as (frame & self1 & g1 & H).
  assert (Hlast : last_seqno (TuyaProtocol.dispatcher self)
                  < TuyaProtocol.seqno self) by (cbn; lia).
  assert (Hm : frame_ok m) by (unfold frame_ok, len; cbn; lia).
  assert (Hdec : forall s,
             TuyaProtocol.version s = TuyaProtocol.version self ->
             TuyaProtocol.dev_type s = TuyaProtocol.dev_type self ->
             TuyaProtocol.cipher s = TuyaProtocol.cipher self ->
             TuyaProtocol._decode_payload json_loads (payload m) s
             = (Ok (Some j), s)).
  { intros s Hv _ _.
    apply (decode_clear_json json_loads (payload m) (s_lit "{}") j s Hv);
      reflexivity. }
  destruct (exchange_returns_response json_loads 1604492800 STATUS None self
              PAYLOAD_DICT frame self1 g1 [] m j H eq_refl eq_refl Hlast
              eq_refl Hm eq_refl Hdec)
    as (k & s1 & s2 & s3 & E1 & E2 & E3 & E4 & E5 & E6 & E7 & E8).
  exists frame, k, s1, s2, s3. rewrite H, E1. cbn [fst snd].
  repeat (split; [first [reflexivity|assumption]|]). assumption.
Defined.

(* ================================================================== *)
(** * [TuyaDevice.set_dps]: the retries *)

(** X30 [TuyaDevice.set_dps] tries at most three times.  The loop
    is written over [range(5)], but the handler returns when
    [i + 1 == 3]: the two awaited calls are made once, and again after
    each failure, three times at most; each failure is printed with
    the host; the method returns [None] whether an attempt succeeded
    or all three failed, and raises only when the configuration has
    no host, with the [KeyError] of the handler, after the first
    failure. *)
Theorem set_dps_three_attempts {World : Type} (CONF_HOST : str)
    (attempt : World -> result unit * World)
    (config_entry : list (str * json)) (world : World) :
  TuyaDevice.set_dps CONF_HOST attempt config_entry world
  = match attempt world with
    | (Ok _, w1) => (Ok tt, w1, [])
    | (Raise e1, w1) =>
        match dict_get str_eqb config_entry CONF_HOST with
        | None => (Raise KeyError, w1, [])
        | Some host =>
            match attempt w1 with
            | (Ok _, w2) => (Ok tt, w2, [(host, e1)])
            | (Raise e2, w2) =>
                match attempt w2 with
                | (Ok _, w3) => (Ok tt, w3, [(host, e1); (host, e2)])
                | (Raise e3, w3) =>
                    (Ok tt, w3, [(host, e1); (host, e2); (host, e3)])
                end
            end
        end
    end.
Proof.
  unfold TuyaDevice.set_dps.
  change (py_range 0 5) with [0; 1; 2; 3; 4].
  cbn [TuyaDevice.set_dps_loop].
  destruct (attempt world) as [[u1|e1] w1]; [reflexivity|].
  destruct (dict_get str_eqb config_entry CONF_HOST) as [host|];
    [|reflexivity].
  cbn [Z.add Z.eqb Pos.eqb Pos.add app].
  destruct (attempt w1) as [[u2|e2] w2]; [reflexivity|].
  cbn [Z.add Z.eqb Pos.eqb Pos.add Pos.succ app].
  destruct (attempt w2) as [[u3|e3] w3]; reflexivity.
Qed.
